(** * The asynchronous job lifecycle of the support-assistant backend

    A shallow embedding of the job store ([src/services/jobStore.js]), of the
    webhook receiver ([src/webhooks/openaiWebhook.js]), of the cancellation
    and status resolvers ([src/handlers/cancelJob.js],
    [src/handlers/getJobStatus.js]) and of the retention sweep
    ([src/handlers/cleanupJobs.js]), with the properties the specification
    states about them.

    Conventions of the embedding.
    - A JavaScript value is a [jsval]; an object is a finite map from
      property names to values, so that a spread [{...a, ...b}] is the
      right-biased union and a rest pattern is a [delete].
    - A JavaScript string is a [string] holding the bytes of its UTF-8
      form. Where the source measures a string or cuts it at a given
      number of characters, the embedding counts UTF-16 code units as
      the source does ([Text.length16], [Text.sliceTo16]); where it cuts
      at a position found by [indexOf], the position is one of the same
      character in both forms and is counted in bytes. White space and
      letter case are those of ASCII ([Text.trim], [Text.toLowerCase]),
      which is what header names and signature headers are written in.
    - What the platform provides (HMAC, [Buffer.from], [Number], [String] of
      a number, [JSON.parse], [Date]) is a [NodeRuntime]; every theorem
      holds for every runtime, and [Ref.runtime] is an executable one.
    - A handler is a function from a [world] (the key-value storage and the
      log of the calls made so far) to an [outcome], returned or thrown,
      and a new world; what the handler cannot see in its arguments (the
      clock, the provider, storage failures) is an [environment]. One
      handler runs at a time; [console] output is not modelled.
    - Numbers inside values are integers; the event and the context a
      handler receives are objects. *)

From Stdlib Require Import ZArith Lia List Ascii String.
From Stdlib.Strings Require Import Byte.
From stdpp Require Import base option gmap strings list pretty.
Import ListNotations.

Set Warnings "-register-all".
Local Open Scope string_scope.
Local Open Scope Z_scope.

(** ** Text: the string methods the sources call *)

Module Text.

(** White space as [String.prototype.trim] sees it, on ASCII. *)
Definition isSpace (c : ascii) : bool :=
  let n := nat_of_ascii c in
  ((9 <=? n) && (n <=? 13))%nat || (n =? 32)%nat.

Fixpoint trimStart (s : string) : string :=
  match s with
  | String c s' => if isSpace c then trimStart s' else s
  | EmptyString => EmptyString
  end.

Definition reverse (s : string) : string :=
  string_of_list_ascii (rev (list_ascii_of_string s)).

Definition trimEnd (s : string) : string := reverse (trimStart (reverse s)).

Definition trim (s : string) : string := trimEnd (trimStart s).

(** [s.split(sep)] for a one-character separator. *)
Fixpoint split (sep : ascii) (s : string) : list string :=
  match s with
  | EmptyString => [EmptyString]
  | String c s' =>
      if Ascii.eqb c sep then EmptyString :: split sep s'
      else match split sep s' with
           | [] => [String c EmptyString]
           | w :: ws => String c w :: ws
           end
  end.

(** [s.indexOf(c)], [None] standing for -1. *)
Fixpoint indexOf (c : ascii) (s : string) : option nat :=
  match s with
  | EmptyString => None
  | String d s' => if Ascii.eqb d c then Some O else S <$> indexOf c s'
  end.

(** [s.slice(0, n)] and [s.slice(n)] for [0 <= n]. *)
Definition sliceTo (n : nat) (s : string) : string := substring 0 n s.
Definition sliceFrom (n : nat) (s : string) : string :=
  substring n (String.length s - n) s.

Definition startsWith (p s : string) : bool := String.prefix p s.

Definition endsWith (p s : string) : bool :=
  String.prefix (reverse p) (reverse s).

(** [s.includes(sub)]. *)
Definition includes (sub s : string) : bool :=
  match String.index 0 sub s with Some _ => true | None => false end.

Definition lowerChar (c : ascii) : ascii :=
  let n := nat_of_ascii c in
  if ((65 <=? n) && (n <=? 90))%nat then ascii_of_nat (n + 32) else c.

Fixpoint toLowerCase (s : string) : string :=
  match s with
  | EmptyString => EmptyString
  | String c s' => String (lowerChar c) (toLowerCase s')
  end.

Definition nonEmpty (s : string) : bool := negb (String.eqb s "").

Fixpoint join (sep : string) (l : list string) : string :=
  match l with
  | [] => ""
  | [x] => x
  | x :: rest => x ++ sep ++ join sep rest
  end.

(** *** Lengths and cuts in UTF-16 code units

    The source takes the [length] of a string and cuts it with [slice]
    in UTF-16 code units, and a [string] holds the bytes of the UTF-8
    form. A byte below 128 and the lead byte of a sequence of two or
    three bytes stand for one code unit, the lead byte of a sequence of
    four bytes for two (a surrogate pair), a continuation byte for none. A
    cut that falls inside a surrogate pair leaves one surrogate of the
    pair, which is written in three bytes like every code unit from
    U+0800 on. *)
Definition unitsOf (c : ascii) : nat :=
  let n := N_of_ascii c in
  if (n <? 128)%N then 1%nat
  else if (n <? 192)%N then 0%nat
  else if (n <? 240)%N then 1%nat
  else 2%nat.

(** [s.length]. *)
Fixpoint length16 (s : string) : nat :=
  match s with
  | EmptyString => 0%nat
  | String c rest => (unitsOf c + length16 rest)%nat
  end.

Definition byteAt (i : nat) (s : string) : N :=
  match String.get i s with Some c => N_of_ascii c | None => 0%N end.

(** The code point written by the lead byte [c] of a sequence of four
    bytes and the three bytes after it, and its two surrogates. *)
Definition scalar (c : ascii) (rest : string) : N :=
  ((N_of_ascii c mod 8) * 262144 + (byteAt 0 rest mod 64) * 4096
   + (byteAt 1 rest mod 64) * 64 + byteAt 2 rest mod 64)%N.

Definition highSurrogate (cp : N) : N := (55296 + (cp - 65536) / 1024)%N.
Definition lowSurrogate (cp : N) : N := (56320 + (cp - 65536) mod 1024)%N.

Definition threeBytes (u : N) : string :=
  String (ascii_of_N (224 + u / 4096))
    (String (ascii_of_N (128 + (u / 64) mod 64))
       (String (ascii_of_N (128 + u mod 64)) EmptyString)).

(** [s.slice(0, n)]: the bytes of the first [n] code units. *)
Fixpoint sliceTo16 (n : nat) (s : string) : string :=
  match s with
  | EmptyString => EmptyString
  | String c rest =>
      match unitsOf c, n with
      | O, _ => String c (sliceTo16 n rest)
      | _, O => EmptyString
      | S O, S n' => String c (sliceTo16 n' rest)
      | _, S O => threeBytes (highSurrogate (scalar c rest))
      | _, S (S n') => String c (sliceTo16 n' rest)
      end
  end.

(** [s.slice(k)] for [0 < k]: the bytes after the first [k] code units;
    the continuation bytes of a character that is dropped go with it. *)
Fixpoint dropUnits (k : nat) (s : string) : string :=
  match s with
  | EmptyString => EmptyString
  | String c rest =>
      match unitsOf c, k with
      | O, _ => dropUnits k rest
      | _, O => s
      | S O, S k' => dropUnits k' rest
      | _, S O => threeBytes (lowSurrogate (scalar c rest)) ++ dropUnits 0 rest
      | _, S (S k') => dropUnits k' rest
      end
  end.

(** [s.slice(k)], and [s.slice(-n)], which starts [n] code units before
    the end, or at the start of a shorter string. *)
Definition sliceFrom16 (k : nat) (s : string) : string :=
  match k with O => s | _ => dropUnits k s end.

Definition sliceLast16 (n : nat) (s : string) : string :=
  sliceFrom16 (length16 s - n) s.

(** The characters of a string as [for ... of] and [new Set] go through
    it, one code point each: a lead byte with the continuation bytes
    after it. *)
Definition continues (s : string) : bool :=
  match s with
  | String c _ => (unitsOf c =? 0)%nat
  | EmptyString => false
  end.

Fixpoint codePoints (s : string) : list string :=
  match s with
  | EmptyString => []
  | String c rest =>
      if continues rest
      then match codePoints rest with
           | point :: points => String c point :: points
           | [] => [String c EmptyString]
           end
      else String c EmptyString :: codePoints rest
  end.

(** The code units of a string, as its indices number them: a code
    point above U+FFFF gives its two surrogates. *)
Definition unitsOfPoint (point : string) : list string :=
  match point with
  | EmptyString => []
  | String c rest =>
      if (unitsOf c =? 2)%nat
      then [threeBytes (highSurrogate (scalar c rest));
            threeBytes (lowSurrogate (scalar c rest))]
      else [point]
  end.

Definition codeUnits (s : string) : list string :=
  concat (map unitsOfPoint (codePoints s)).

End Text.

(** ** JavaScript values *)

Module Js.

Inductive jsval : Type :=
| VUndef
| VNull
| VBool (b : bool)
| VNum (n : Z)
| VStr (s : string)
| VArr (l : list jsval)
| VObj (o : gmap string jsval).

Abbreviation jsobj := (gmap string jsval).

(** A number as [Number(...)] returns it: the receiver only ever computes
    with timestamps, so the finite ones are integers (seconds). *)
Inductive jsnum : Type := NaN | PosInf | NegInf | Fin (z : Z).

(** An [Error]: the receiver reads its [message] and its [stack]. *)
Record jsError : Type := mkError { message : string; stack : string }.

Definition truthy (v : jsval) : bool :=
  match v with
  | VUndef | VNull => false
  | VBool b => b
  | VNum n => negb (n =? 0)
  | VStr s => Text.nonEmpty s
  | VArr _ | VObj _ => true
  end.

Definition truthyNum (n : jsnum) : bool :=
  match n with
  | NaN => false
  | Fin z => negb (z =? 0)
  | PosInf | NegInf => true
  end.

Definition isFinite (n : jsnum) : bool :=
  match n with Fin _ => true | _ => false end.

(** [a || b]. *)
Definition or (a b : jsval) : jsval := if truthy a then a else b.

(** [o[k]] on an object, and [o?.k] on anything: a missing property and a
    property of a non-object read as [undefined]. *)
Definition get (o : jsobj) (k : string) : jsval := default VUndef (o !! k).

Definition prop (v : jsval) (k : string) : jsval :=
  match v with VObj o => get o k | _ => VUndef end.

Definition isArray (v : jsval) : bool :=
  match v with VArr _ => true | _ => false end.

Definition isDefined (v : jsval) : bool :=
  match v with VUndef => false | _ => true end.

Definition isNull (v : jsval) : bool :=
  match v with VNull => true | _ => false end.

(** The elements of an array under their indices; the code units of a
    string, which [{...v}] and [v[i]] number, and its characters, which
    [new Set(v)] and [for ... of] go through. *)
Definition indexed (l : list jsval) : jsobj :=
  list_to_map (imap (fun i x => (pretty i, x)) l).

Definition units (s : string) : list jsval := map VStr (Text.codeUnits s).

Definition chars (s : string) : list jsval := map VStr (Text.codePoints s).

(** [{...v}]: the own enumerable properties of an object, of an array or
    of a string; [null], [undefined], numbers and booleans have none. *)
Definition spread (v : jsval) : jsobj :=
  match v with
  | VObj o => o
  | VArr l => indexed l
  | VStr s => indexed (units s)
  | _ => ∅
  end.

(** [a === b] on values read from storage or parsed from JSON: two
    primitives are compared by value, an array or an object is only
    identical to itself, and no two of the values compared here are the
    same object. [includes] and [Set] use the same comparison. *)
Definition strictEq (a b : jsval) : bool :=
  match a, b with
  | VUndef, VUndef | VNull, VNull => true
  | VBool x, VBool y => Bool.eqb x y
  | VNum x, VNum y => x =? y
  | VStr x, VStr y => String.eqb x y
  | _, _ => false
  end.

(** [JSON.parse(JSON.stringify(v))] for a [v] other than [undefined]:
    properties holding [undefined] disappear, array slots holding it
    become [null]. [None] is the [SyntaxError] of parsing [undefined]. *)
Fixpoint safeClone (v : jsval) : option jsval :=
  match v with
  | VUndef => None
  | VArr l => Some (VArr (map (fun x => default VNull (safeClone x)) l))
  | VObj o => Some (VObj (omap safeClone o))
  | _ => Some v
  end.

End Js.
Export Js.

(** ** The platform *)

Class NodeRuntime : Type := {
  (** [createHmac('sha256', key).update(msg).digest()] *)
  hmacSha256 : list byte -> list byte -> list byte;
  (** [Buffer.from(s, 'base64')] and [Buffer.from(s, 'hex')] *)
  bufferFromBase64 : string -> list byte;
  bufferFromHex : string -> list byte;
  (** [Number(s)] on a string and [String(n)] on a number *)
  stringToNumber : string -> jsnum;
  numberToString : jsnum -> string;
  (** [JSON.parse(s)], [None] when it throws, the message of the
      [SyntaxError] it then throws, and [JSON.stringify(v)] *)
  jsonParse : string -> option jsval;
  jsonParseMessage : string -> string;
  jsonStringify : jsval -> string;
  (** [new Date(ms).toISOString()] and [new Date(s).getTime()] *)
  toISOString : Z -> string;
  dateGetTime : string -> jsnum
}.

#[global] Instance byte_eq_decision : EqDecision byte := Byte.byte_eq_dec.

(** A string handed to [createHmac] or [update] is taken as its UTF-8
    bytes. *)
Definition utf8 (s : string) : list byte := list_byte_of_string s.

(** [crypto.timingSafeEqual] on two buffers of one length. *)
Definition timingSafeEqual (a b : list byte) : bool := bool_decide (a = b).

Section Coercions.
Context {rt : NodeRuntime}.

(** [String(v)], as a template literal computes it. *)
Fixpoint toStr (v : jsval) : string :=
  match v with
  | VUndef => "undefined"
  | VNull => "null"
  | VBool true => "true"
  | VBool false => "false"
  | VNum n => numberToString (Fin n)
  | VStr s => s
  | VArr l =>
      Text.join ","
        (map (fun x => match x with
                       | VUndef | VNull => ""
                       | _ => toStr x
                       end) l)
  | VObj _ => "[object Object]"
  end.

(** [Number(v)]. *)
Definition toNumber (v : jsval) : jsnum :=
  match v with
  | VUndef => NaN
  | VNull => Fin 0
  | VBool true => Fin 1
  | VBool false => Fin 0
  | VNum n => Fin n
  | VStr s => stringToNumber s
  | VArr _ => stringToNumber (toStr v)
  | VObj _ => NaN
  end.

End Coercions.

(** ** The signature verifier ([src/webhooks/openaiWebhook.js]) *)

(** Failures inside the verifier: the message of the [Error] thrown. *)
#[global] Instance sum_bind {E : Type} : MBind (sum E) :=
  fun A B f m => match m with inl e => inl e | inr a => f a end.

Module Verifier.
Section Verifier.
Context {rt : NodeRuntime}.

Definition SIGNATURE_TOLERANCE_SECONDS : Z := 300.

Definition normaliseHeaderValue (value : jsval) : jsval :=
  match value with
  | VArr l => nth 0 l VUndef
  | _ => value
  end.

Fixpoint normaliseSignatureHeader (headers : jsobj) (candidates : list string)
  : jsval :=
  match candidates with
  | [] => VUndef
  | name :: rest =>
      if truthy (get headers name)
      then normaliseHeaderValue (get headers name)
      else normaliseSignatureHeader headers rest
  end.

(** The [key=value] reading of one comma-separated part: [None] when the
    part has no [=], or an empty key or value. *)
Definition keyValue (part : string) : option (string * string) :=
  match Text.indexOf "=" part with
  | None => None
  | Some eqIndex =>
      let key := Text.sliceTo eqIndex part in
      let value := Text.sliceFrom (S eqIndex) part in
      if Text.nonEmpty key && Text.nonEmpty value
      then Some (key, value) else None
  end.

(** A string that is not empty, that is, truthy. *)
Definition filled (s : string) : Prop := Text.nonEmpty s = true.

(** The string a parser works on: its argument when that is a non-blank
    string ([undefined] defaults to the empty string). *)
Definition headerText (signatureHeader : jsval) : option string :=
  match signatureHeader with
  | VStr s => if Text.nonEmpty (Text.trim s) then Some s else None
  | _ => None
  end.

Definition openAiStep (acc : option jsnum * list string) (part : string)
  : option jsnum * list string :=
  match keyValue part with
  | None => acc
  | Some (key, value) =>
      if String.eqb key "t" then (Some (stringToNumber value), snd acc)
      else if Text.startsWith "v" key then (fst acc, (snd acc ++ [value])%list)
      else acc
  end.

Definition parseOpenAiSignature (signatureHeader : jsval)
  : option (jsnum * list string) :=
  match headerText signatureHeader with
  | None => None
  | Some s =>
      let signatureParts := map Text.trim (Text.split "," s) in
      match fold_left openAiStep signatureParts (None, []) with
      | (Some timestamp, signatures) =>
          if truthyNum timestamp && negb (length signatures =? 0)%nat
          then Some (timestamp, signatures) else None
      | (None, _) => None
      end
  end.

Definition parseSvixSignature (signatureHeader : jsval)
  : option (list string) :=
  match headerText signatureHeader with
  | None => None
  | Some s =>
      let signatures :=
        omap (fun part =>
                match Text.indexOf "=" part with
                | None => None
                | Some eqIndex =>
                    let version := Text.sliceTo eqIndex part in
                    let value := Text.sliceFrom (S eqIndex) part in
                    if Text.nonEmpty version && Text.nonEmpty value
                    then Some value else None
                end)
             (map Text.trim (Text.split "," s)) in
      if (length signatures =? 0)%nat then None else Some signatures
  end.

(** The loop of [parseStandardSignature] over the segments from [index]
    on: a [v1=sig] segment gives [sig]; a bare [v1] followed by a segment
    that does not start with [v] gives that segment and skips it. *)
Fixpoint standardLoop (segments : list string) : list string :=
  match segments with
  | [] => []
  | segment :: rest =>
      if negb (Text.nonEmpty segment) then standardLoop rest
      else if Text.includes "=" segment then
        match Text.indexOf "=" segment with
        | None => standardLoop rest
        | Some eqIndex =>
            let key := Text.trim (Text.sliceTo eqIndex segment) in
            let value := Text.trim (Text.sliceFrom (S eqIndex) segment) in
            if Text.nonEmpty key && Text.startsWith "v" key
               && Text.nonEmpty value
            then value :: standardLoop rest
            else standardLoop rest
        end
      else if Text.startsWith "v" segment then
        match rest with
        | next :: rest' =>
            if Text.nonEmpty next && negb (Text.startsWith "v" next)
            then next :: standardLoop rest'
            else standardLoop rest
        | [] => standardLoop rest
        end
      else standardLoop rest
  end.

Definition parseStandardSignature (signatureHeader : jsval)
  : option (list string) :=
  match headerText signatureHeader with
  | None => None
  | Some s =>
      let segments :=
        filter (fun seg => Is_true (Text.nonEmpty seg))
               (map Text.trim (Text.split "," s)) in
      if (length segments =? 0)%nat then None
      else
        let signatures := standardLoop segments in
        if (length signatures =? 0)%nat then None else Some signatures
  end.

(** The first of base64 and hex whose decoding has the expected length. *)
Definition decodeSignatureCandidate (signature : string)
  (expectedLength : nat) : option (list byte) :=
  if negb (Text.nonEmpty signature) then None
  else if (length (bufferFromBase64 signature) =? expectedLength)%nat
  then Some (bufferFromBase64 signature)
  else if (length (bufferFromHex signature) =? expectedLength)%nat
  then Some (bufferFromHex signature)
  else None.

(** ["whsec_" + base64(key)], or the bare base64 of the key. *)
Definition stripWhsec (secret : string) : string :=
  if Text.startsWith "whsec_" secret then Text.sliceFrom 6 secret else secret.

Definition deriveStandardSecretKey (secret : string) : option (list byte) :=
  if negb (Text.nonEmpty secret) then None
  else
    let key := bufferFromBase64 (stripWhsec secret) in
    if (0 <? length key)%nat then Some key else None.

Definition matchesSignature (secret : list byte) (payload : string)
  (signatures : list string) : bool :=
  let computed := hmacSha256 secret (utf8 payload) in
  existsb (fun signature =>
             match decodeSignatureCandidate signature (length computed) with
             | None => false
             | Some provided => timingSafeEqual provided computed
             end) signatures.

(** [Math.abs(nowSeconds - timestamp) > SIGNATURE_TOLERANCE_SECONDS]. *)
Definition outsideTolerance (nowSeconds : Z) (timestamp : jsnum) : bool :=
  match timestamp with
  | Fin t => SIGNATURE_TOLERANCE_SECONDS <? Z.abs (nowSeconds - t)
  | PosInf | NegInf => true
  | NaN => false
  end.

(** The three attempts of [unwrapWebhookEvent], each returning whether the
    payload is verified or the message of the error it throws. [nowMs] is
    [Date.now()]. *)
Definition nowSecondsOf (nowMs : Z) : Z := nowMs / 1000.

Definition verifyOpenAi (nowMs : Z) (rawBody : string)
  (openAiSignatureHeader : jsval) (secret : string) : string + bool :=
  match parseOpenAiSignature openAiSignatureHeader with
  | None => inl "Malformed OpenAI webhook signature header."
  | Some (timestamp, signatures) =>
      if outsideTolerance (nowSecondsOf nowMs) timestamp
      then inl "OpenAI webhook timestamp outside the allowed tolerance."
      else
        let signedPayload := numberToString timestamp ++ "." ++ rawBody in
        inr (matchesSignature (utf8 secret) signedPayload signatures)
  end.

Definition verifySvix (nowMs : Z) (rawBody : string) (headers : jsobj)
  (svixSignatureHeader : jsval) (secret : string) : string + bool :=
  let parsed := parseSvixSignature svixSignatureHeader in
  let timestampHeader :=
    Js.or (get headers "svix-timestamp")
      (Js.or (get headers "x-openai-timestamp")
         (get headers "openai-timestamp")) in
  let svixIdHeader := normaliseHeaderValue (get headers "svix-id") in
  match parsed with
  | None => inl "Malformed Svix webhook signature headers."
  | Some signatures =>
      if negb (truthy timestampHeader) || negb (truthy svixIdHeader)
      then inl "Malformed Svix webhook signature headers."
      else
        let timestamp := toNumber timestampHeader in
        if negb (isFinite timestamp)
        then inl "Invalid Svix webhook timestamp."
        else if outsideTolerance (nowSecondsOf nowMs) timestamp
        then inl "Svix webhook timestamp outside the allowed tolerance."
        else
          let key := bufferFromBase64 (stripWhsec secret) in
          if (length key =? 0)%nat
          then inl "Decoded Svix webhook secret is empty."
          else
            let signedPayload :=
              toStr svixIdHeader ++ "." ++ toStr timestampHeader
                ++ "." ++ rawBody in
            let computed := hmacSha256 key (utf8 signedPayload) in
            inr (existsb
                   (fun signature =>
                      let provided := bufferFromBase64 signature in
                      if negb (length provided =? length computed)%nat
                      then false
                      else timingSafeEqual provided computed)
                   signatures)
  end.

Definition verifyStandard (nowMs : Z) (rawBody : string) (headers : jsobj)
  (standardSignatureHeader webhookIdHeader : jsval) (secret : string)
  : string + bool :=
  let parsed := parseStandardSignature standardSignatureHeader in
  let timestampHeader :=
    normaliseHeaderValue
      (normaliseSignatureHeader headers
         ["webhook-timestamp"; "svix-timestamp"; "x-openai-timestamp";
          "openai-timestamp"]) in
  match parsed with
  | None => inl "Malformed Standard webhook signature headers."
  | Some signatures =>
      if negb (truthy timestampHeader) || negb (truthy webhookIdHeader)
      then inl "Malformed Standard webhook signature headers."
      else
        let timestamp := toNumber timestampHeader in
        if negb (isFinite timestamp)
        then inl "Invalid Standard webhook timestamp."
        else if outsideTolerance (nowSecondsOf nowMs) timestamp
        then inl "Standard webhook timestamp outside the allowed tolerance."
        else
          let signedPayload :=
            toStr webhookIdHeader ++ "." ++ toStr timestampHeader
              ++ "." ++ rawBody in
          match deriveStandardSecretKey secret with
          | None => inl "Invalid Standard webhook secret."
          | Some secretKey =>
              inr (matchesSignature secretKey signedPayload signatures)
          end
  end.

(** The verification part of [unwrapWebhookEvent]: [inr tt] when the
    source reaches "Webhook signature verification succeeded". *)
Definition verifySignature (nowMs : Z) (rawBody : string) (headers : jsobj)
  (secret : string) : string + unit :=
  let openAiSignatureHeader :=
    normaliseSignatureHeader headers
      ["x-openai-signature"; "openai-signature"] in
  let svixSignatureHeader :=
    normaliseSignatureHeader headers ["svix-signature"] in
  let standardSignatureHeader :=
    normaliseSignatureHeader headers ["webhook-signature"] in
  let webhookIdHeader := normaliseSignatureHeader headers ["webhook-id"] in
  if negb (truthy openAiSignatureHeader)
     && negb (truthy svixSignatureHeader)
     && negb (truthy standardSignatureHeader)
  then inl "Missing webhook signature headers."
  else
    v1 ← (if truthy openAiSignatureHeader
          then verifyOpenAi nowMs rawBody openAiSignatureHeader secret
          else inr false);
    v2 ← (if negb v1 && truthy svixSignatureHeader
          then verifySvix nowMs rawBody headers svixSignatureHeader secret
          else inr v1);
    v3 ← (if negb v2 && truthy standardSignatureHeader
          then verifyStandard nowMs rawBody headers standardSignatureHeader
                 webhookIdHeader secret
          else inr v2);
    if negb v3 then inl "Webhook signature verification failed."
    else inr tt.

Definition unwrapWebhookEvent (nowMs : Z) (rawBody : string)
  (headers : jsobj) (secret : string) : string + jsval :=
  _ ← verifySignature nowMs rawBody headers secret;
  match jsonParse rawBody with
  | Some parsed => inr parsed
  | None => inl "Invalid webhook payload."
  end.

End Verifier.
End Verifier.

(** ** Handlers: storage, provider and event calls *)

Module Effects.

(** A call a handler makes to the outside. *)
Inductive call : Type :=
| StorageGet (key : string)
| StorageSet (key : string) (value : jsval)
| StorageDelete (key : string)
| StorageQuery (prefix : string) (page : nat)
| StorageGetSecret (name : string)
| RetrieveCompletion (jobId : jsval)
| CancelCompletion (jobId : jsval)
| PublishAppEvent (key : string).

(** The key-value storage of the platform and the calls made so far, the
    latest last. *)
Record world : Type := mkWorld {
  storage : gmap string jsval;
  calls : list call
}.

(** What a handler cannot see in its arguments: the clock, the answers of
    the provider, the secret kept by the platform, and which storage
    calls fail. *)
Record environment : Type := mkEnvironment {
  dateNow : Z;
  storageFault : call -> option jsError;
  retrieveCompletion : jsval -> jsError + jsval;
  cancelCompletion : jsval -> jsError + jsval;
  storedSecret : jsError + jsval;
  processEnvSecret : jsval;
  pageSize : nat
}.

Inductive outcome (A : Type) : Type :=
| Returned (a : A)
| Thrown (e : jsError).
Arguments Returned {A} a.
Arguments Thrown {A} e.

Definition handler (A : Type) : Type := world -> outcome A * world.

#[global] Instance handler_ret : MRet handler :=
  fun A a w => (Returned a, w).

#[global] Instance handler_bind : MBind handler :=
  fun A B f m w =>
    match m w with
    | (Returned a, w') => f a w'
    | (Thrown e, w') => (Thrown e, w')
    end.

Definition throw {A : Type} (e : jsError) : handler A :=
  fun w => (Thrown e, w).

(** [try { m } catch (error) { h error }]. *)
Definition tryCatch {A : Type} (m : handler A) (h : jsError -> handler A)
  : handler A :=
  fun w =>
    match m w with
    | (Returned a, w') => (Returned a, w')
    | (Thrown e, w') => h e w'
    end.

Definition liftE {A : Type} (r : jsError + A) : handler A :=
  match r with
  | inl e => throw e
  | inr a => mret a
  end.

Definition gets {A : Type} (f : world -> A) : handler A :=
  fun w => (Returned (f w), w).

Definition modify (f : world -> world) : handler unit :=
  fun w => (Returned tt, f w).

Definition record (c : call) : handler unit :=
  modify (fun w => mkWorld (storage w) (calls w ++ [c])).

Definition TypeError (msg : string) : jsError := mkError msg "TypeError".
Definition SyntaxError (msg : string) : jsError := mkError msg "SyntaxError".
Definition RangeError (msg : string) : jsError := mkError msg "RangeError".
Definition Error (msg : string) : jsError := mkError msg "Error".

Section Calls.
Context (env : environment).

(** A storage call is recorded, then fails if the environment says so. *)
Definition storageCall (c : call) : handler unit :=
  _ ← record c;
  match storageFault env c with
  | Some e => throw e
  | None => mret tt
  end.

(** [storage.get(key)]: [undefined] for a key that is not there. *)
Definition storageGet (key : string) : handler jsval :=
  _ ← storageCall (StorageGet key);
  gets (fun w => default VUndef (storage w !! key)).

(** [storage.set(key, value)]. *)
Definition storageSet (key : string) (value : jsval) : handler unit :=
  _ ← storageCall (StorageSet key value);
  modify (fun w => mkWorld (<[key := value]> (storage w)) (calls w)).

(** [storage.delete(key)]: deleting a key that is not there does nothing. *)
Definition storageDelete (key : string) : handler unit :=
  _ ← storageCall (StorageDelete key);
  modify (fun w => mkWorld (delete key (storage w)) (calls w)).

(** [storage.getSecret(name)]. *)
Definition storageGetSecret (name : string) : handler jsval :=
  _ ← record (StorageGetSecret name);
  liftE (storedSecret env).

Definition providerRetrieve (jobId : jsval) : handler jsval :=
  _ ← record (RetrieveCompletion jobId);
  liftE (retrieveCompletion env jobId).

Definition providerCancel (jobId : jsval) : handler jsval :=
  _ ← record (CancelCompletion jobId);
  liftE (cancelCompletion env jobId).

(** [publishAppEvent(key)] ([src/services/appEvents.js]) catches whatever
    the publication throws and only logs it; its result is never read. *)
Definition publishAppEvent (key : string) : handler unit :=
  record (PublishAppEvent key).

End Calls.
End Effects.
Export Effects.

(** ** The job store ([src/services/jobStore.js]) *)

Module JobStatus.
Definition QUEUED : string := "queued".
Definition IN_PROGRESS : string := "in_progress".
Definition COMPLETED : string := "completed".
Definition FAILED : string := "failed".
Definition CANCELLED : string := "cancelled".
End JobStatus.

Module JobStore.
Section JobStore.
Context {rt : NodeRuntime} (env : environment).

Definition JOB_KEY_PREFIX : string := "async-job:".
Definition DEFAULT_RETENTION_DAYS : Z := 14.
Definition MILLIS_PER_DAY : Z := 24 * 60 * 60 * 1000.

(** The marker appended to a cut string, as the source file spells it. *)
Definition truncationMarker : string := "â€¦".

Definition nowIso : string := toISOString (dateNow env).

(** The time values of a [Date] lie at most 8.64e15 milliseconds from
    the epoch. *)
Definition MAX_TIME_VALUE : Z := 8640000000000000.

(** [new Date(Date.now() + retentionDays * MILLIS_PER_DAY).toISOString()];
    a date that is not a number, or that lies outside the range of
    [Date], has no ISO form. A sum inside the range is below 2^53 and is
    computed exactly. *)
Definition computeExpiryTimestamp (retentionDays : jsval) : jsError + string :=
  match toNumber retentionDays with
  | Fin days =>
      let time := dateNow env + days * MILLIS_PER_DAY in
      if Z.abs time <=? MAX_TIME_VALUE then inr (toISOString time)
      else inl (RangeError "Invalid time value")
  | _ => inl (RangeError "Invalid time value")
  end.

Definition buildJobKey (jobId : jsval) : string :=
  JOB_KEY_PREFIX ++ toStr jobId.

Definition truncate (value : jsval) (maxLength : nat) : jsval :=
  match value with
  | VStr s =>
      if negb (Text.nonEmpty s) then value
      else if (Text.length16 s <=? maxLength)%nat then value
      else VStr (Text.sliceTo16 maxLength s ++ truncationMarker)
  | _ => value
  end.

(** A parameter with a default: the default stands in for [undefined]. *)
Definition withDefault (d v : jsval) : jsval :=
  match v with VUndef => d | _ => v end.

(** The title, link and snippet [normaliseSearchResult] reads. *)
Definition titleOf (result : jsval) : jsval :=
  let result := withDefault (VObj ∅) result in
  Js.or (prop (prop result "metadata") "title")
    (Js.or (prop result "title") (VStr "Knowledge Base Article")).

Definition snippetOf (result : jsval) : jsval :=
  let result := withDefault (VObj ∅) result in
  Js.or (prop (prop result "metadata") "content")
    (Js.or (prop result "contentSnippet")
       (Js.or (prop result "content") (VStr ""))).

Definition linkOf (result : jsval) : jsval :=
  let result := withDefault (VObj ∅) result in
  Js.or (prop (prop result "metadata") "link")
    (Js.or (prop result "link") (VStr "")).

(** [result = {}] by default; reading a property of [null] throws. *)
Definition normaliseSearchResult (result : jsval) : jsError + jsval :=
  if isNull result then inl (TypeError "Cannot read properties of null")
  else
    inr (VObj (list_to_map
                 [("title", truncate (titleOf result) 256);
                  ("link", linkOf result);
                  ("contentSnippet", truncate (snippetOf result) 1024)])).

Definition safeCloneE (v : jsval) : jsError + jsval :=
  match safeClone v with
  | Some c => inr c
  | None => inl (SyntaxError "Unexpected token u in JSON")
  end.

Fixpoint mapE {A B : Type} (f : A -> jsError + B) (l : list A)
  : jsError + list B :=
  match l with
  | [] => inr []
  | x :: rest =>
      y ← f x;
      ys ← mapE f rest;
      inr (y :: ys)
  end.

(** [v ? safeClone(v) : null]. *)
Definition cloneOrNull (v : jsval) : jsError + jsval :=
  if truthy v then safeCloneE v else inr VNull.

(** The [auxiliaryData] of a new record: a copy of the payload, with its
    [searchResults], when they are an array, normalised one by one. *)
Definition auxiliaryDataOf (auxiliaryData : jsval) : jsError + jsval :=
  copy ← safeCloneE auxiliaryData;
  searchResults ←
    (if isNull auxiliaryData
     then inl (TypeError "Cannot read properties of null")
     else match prop auxiliaryData "searchResults" with
          | VArr l => l' ← mapE normaliseSearchResult l; inr (VArr l')
          | _ => inr VUndef
          end);
  inr (VObj (<["searchResults" := searchResults]> (spread copy))).

Definition createJobRecord (fields : jsobj) : handler jsval :=
  let auxiliaryData := withDefault (VObj ∅) (get fields "auxiliaryData") in
  let retentionDays :=
    withDefault (VNum DEFAULT_RETENTION_DAYS) (get fields "retentionDays") in
  let logs := withDefault (VArr []) (get fields "logs") in
  let timestamp := nowIso in
  expiresAt ← liftE (computeExpiryTimestamp retentionDays);
  invoker ← liftE (cloneOrNull (get fields "invoker"));
  llmCharacters ← liftE (cloneOrNull (get fields "llmCharacters"));
  vectorStats ← liftE (cloneOrNull (get fields "vectorStats"));
  auxiliary ← liftE (auxiliaryDataOf auxiliaryData);
  let record : jsobj :=
    list_to_map
      [("jobId", get fields "jobId");
       ("jobType", get fields "jobType");
       ("status", get fields "status");
       ("createdAt", VStr timestamp);
       ("updatedAt", VStr timestamp);
       ("expiresAt", VStr expiresAt);
       ("invoker", invoker);
       ("llmCharacters", llmCharacters);
       ("request",
        VObj (list_to_map
                [("promptLength", get fields "promptLength");
                 ("systemPromptLength", get fields "systemPromptLength");
                 ("promptFingerprint",
                  Js.or (get fields "promptFingerprint") VNull)]));
       ("vectorStats", vectorStats);
       ("auxiliaryData", auxiliary);
       ("result", VNull);
       ("error", VNull);
       ("processedWebhookIds", VArr []);
       ("logs", logs)] in
  storageSet env (buildJobKey (get fields "jobId")) (VObj record);;
  mret (VObj record).

Definition getJobRecord (jobId : jsval) : handler jsval :=
  storageGet env (buildJobKey jobId).

(** The record [updateJobRecord] starts from when the key holds nothing. *)
Definition shellRecord (jobId : jsval) : jsobj :=
  list_to_map
    [("jobId", jobId);
     ("createdAt", VStr nowIso);
     ("processedWebhookIds", VArr [])].

(** [if (updates[k] <test>) merged[k] = safeClone(updates[k])]. *)
Definition cloneField (test : jsval -> bool) (updates : jsobj) (k : string)
  (merged : jsobj) : handler jsobj :=
  if test (get updates k)
  then copy ← liftE (safeCloneE (get updates k));
       mret (<[k := copy]> merged)
  else mret merged.

Definition updateJobRecord (jobId : jsval) (updates : jsobj)
  : handler jsval :=
  let key := buildJobKey jobId in
  stored ← storageGet env key;
  let existing := Js.or stored (VObj (shellRecord jobId)) in
  let merged : jsobj :=
    <["updatedAt" := VStr nowIso]>
      (<["status" := Js.or (get updates "status") (prop existing "status")]>
         (updates ∪ spread existing)) in
  merged ← cloneField isDefined updates "result" merged;
  merged ← cloneField isDefined updates "error" merged;
  merged ← cloneField truthy updates "llmCharacters" merged;
  merged ← cloneField truthy updates "vectorStats" merged;
  merged ←
    (if truthy (get updates "auxiliaryData")
     then copy ← liftE (safeCloneE (get updates "auxiliaryData"));
          mret (<["auxiliaryData" :=
                  VObj (spread copy
                          ∪ spread (Js.or (prop existing "auxiliaryData")
                                      (VObj ∅)))]> merged)
     else mret merged);
  storageSet env key (VObj merged);;
  mret (VObj merged).

(** The record [updateJobRecord] computes, in closed form: every copy it
    takes is of a value that has one. *)
Definition cloned (test : jsval -> bool) (updates : jsobj) (k : string)
  (merged : jsobj) : jsobj :=
  if test (get updates k)
  then <[k := default VNull (safeClone (get updates k))]> merged
  else merged.

Definition mergedRecord (existing : jsval) (updates : jsobj) : jsobj :=
  let merged : jsobj :=
    cloned truthy updates "vectorStats"
      (cloned truthy updates "llmCharacters"
         (cloned isDefined updates "error"
            (cloned isDefined updates "result"
               (<["updatedAt" := VStr nowIso]>
                  (<["status" :=
                     Js.or (get updates "status") (prop existing "status")]>
                     (updates ∪ spread existing)))))) in
  if truthy (get updates "auxiliaryData")
  then <["auxiliaryData" :=
          VObj (spread (default VNull
                          (safeClone (get updates "auxiliaryData")))
                  ∪ spread (Js.or (prop existing "auxiliaryData")
                              (VObj ∅)))]> merged
  else merged.

(** [new Date(v).getTime()]. *)
Definition getTime (v : jsval) : jsnum :=
  match v with
  | VStr s => dateGetTime s
  | VArr _ | VObj _ => dateGetTime (toStr v)
  | _ => toNumber v
  end.

(** [value?.expiresAt && new Date(value.expiresAt).getTime() <= Date.now()]. *)
Definition isExpired (value : jsval) : bool :=
  truthy (prop value "expiresAt")
  && match getTime (prop value "expiresAt") with
     | Fin t => t <=? dateNow env
     | NegInf => true
     | PosInf | NaN => false
     end.

(** One turn of the [do ... while (cursor)] loop per page of the query. *)
Fixpoint scanPages (pages : list (list (string * jsval))) (page : nat)
  (expired : list jsval) : handler (list jsval) :=
  match pages with
  | [] => mret expired
  | results :: rest =>
      storageCall env (StorageQuery JOB_KEY_PREFIX page);;
      scanPages rest (S page)
        (expired ++ filter (fun v => Is_true (isExpired v))
                      (map snd results))%list
  end.

(** The entries under the job prefix, cut into pages by the platform; a
    query always answers with at least one page, possibly empty. *)
Definition pagesOf (pageSize : nat) (entries : list (string * jsval))
  : list (list (string * jsval)) :=
  match entries with
  | [] => [[]]
  | _ =>
      (fix cut (fuel : nat) (l : list (string * jsval)) :=
         match fuel, l with
         | O, _ | _, [] => []
         | S fuel', _ => take (S (pred pageSize)) l
                         :: cut fuel' (drop (S (pred pageSize)) l)
         end) (length entries) entries
  end.

Definition listExpiredJobs : handler (list jsval) :=
  entries ← gets (fun w =>
    filter (fun kv => Is_true (Text.startsWith JOB_KEY_PREFIX (fst kv)))
           (map_to_list (storage w)));
  scanPages (pagesOf (pageSize env) entries) 0 [].

Definition deleteJobRecord (jobId : jsval) : handler unit :=
  storageDelete env (buildJobKey jobId).

End JobStore.
End JobStore.

(** ** Result post-processing ([src/services/resultPostProcessor.js]) *)

(** Helpers whose output only fills the result payload of a completed
    job: the glossary rewrite of [src/services/termTranslator.js], the
    article enrichment, and the regular expression with which
    [ensureAgentSignature] finds and replaces the team signature. They are
    taken as given; the second may throw. *)
Class ResultHelpers : Type := {
  translateTerms : jsval -> string;
  enrichArticles : jsval -> jsval -> jsError + jsval;
  replaceTeamSignature : string -> string -> option string
}.

Module PostProcessor.
Section PostProcessor.
Context {rt : NodeRuntime} {helpers : ResultHelpers}.

Definition fence : string := "```".

(** [s.replace(/```$/, '')]. *)
Definition dropClosingFence (s : string) : string :=
  if Text.endsWith fence s
  then Text.sliceTo (String.length s - 3) s else s.

Definition sanitiseJson (payload : string) : string :=
  if negb (Text.nonEmpty payload) then payload
  else
    let trimmed := Text.trim payload in
    if Text.startsWith "```json" trimmed
    then Text.trim
           (dropClosingFence (Text.trimStart (Text.sliceFrom 7 trimmed)))
    else if Text.startsWith fence trimmed
    then Text.trim (dropClosingFence (Text.sliceFrom 3 trimmed))
    else trimmed.

(** Both parsers wrap whatever goes wrong in one [Error] whose message
    ends with the message of what went wrong: the [SyntaxError] of
    [JSON.parse], the [TypeError] of reading a property of [null], or the
    parser's own complaint about a missing field. *)
Definition parseAnalysisResponse (text : string) : jsError + jsval :=
  let failed inner : jsError + jsval :=
    inl (Error ("Failed to parse analysis response: " ++ inner)) in
  match jsonParse (sanitiseJson text) with
  | None => failed (jsonParseMessage (sanitiseJson text))
  | Some parsed =>
      if isNull parsed
      then failed "Cannot read properties of null (reading 'summary')"
      else if negb (truthy (prop parsed "summary"))
              || negb (truthy (prop parsed "internalNote"))
              || negb (truthy (prop parsed "recommendationPlan"))
      then failed "Analysis output missing required fields."
      else inr parsed
  end.

Definition parseFinalResponse (text : string) : jsError + jsval :=
  let failed inner : jsError + jsval :=
    inl (Error ("Failed to parse final response: " ++ inner)) in
  match jsonParse (sanitiseJson text) with
  | None => failed (jsonParseMessage (sanitiseJson text))
  | Some parsed =>
      if isNull parsed
      then failed "Cannot read properties of null (reading 'emailDraft')"
      else if negb (truthy (prop parsed "emailDraft"))
              || negb (truthy (prop parsed "internalNote"))
      then failed "Missing emailDraft or internalNote in response."
      else inr (VObj (<["emailDraft" :=
                        VStr (translateTerms (prop parsed "emailDraft"))]>
                        (spread parsed)))
  end.

Definition arrayOrEmpty (v : jsval) : jsval :=
  if isArray v then v else VArr [].

(** [plan = {}] by default, which stands in for [undefined] only:
    reading a property of [null] throws. *)
Definition normaliseRecommendationPlan (plan : jsval) : jsError + jsval :=
  match plan with
  | VNull =>
      inl (TypeError
             "Cannot read properties of null (reading 'customerSteps')")
  | _ =>
      let plan := match plan with VUndef => VObj ∅ | _ => plan end in
      inr (VObj (list_to_map
                   [("customerSteps",
                     arrayOrEmpty (prop plan "customerSteps"));
                    ("agentSteps", arrayOrEmpty (prop plan "agentSteps"));
                    ("toolSuggestions",
                     arrayOrEmpty (prop plan "toolSuggestions"))]))
  end.

End PostProcessor.
End PostProcessor.

(** ** The webhook receiver ([src/webhooks/openaiWebhook.js]) *)

(** What the web trigger receives, and what it answers. *)
Record inboundEvent : Type := mkEvent {
  eventHeaders : list (string * jsval);
  eventBody : jsval
}.

Record httpResponse : Type := mkResponse {
  statusCode : Z;
  responseBody : string
}.

Module Webhook.
Import Verifier JobStore PostProcessor.
Section Webhook.
Context {rt : NodeRuntime} {helpers : ResultHelpers} (env : environment).

Definition newline : string := String (ascii_of_nat 10) EmptyString.

Definition ensureAgentSignature (draft : string) (agentName : jsval)
  : jsError + string :=
  if negb (Text.nonEmpty draft) then inr draft
  else
    match Js.or agentName (VStr "") with
    | VStr name =>
        let trimmedName := Text.trim name in
        if negb (Text.nonEmpty trimmedName) then inr draft
        else
          let desiredSignature :=
            "Best regards," ++ newline ++ newline ++ trimmedName in
          if Text.includes desiredSignature draft then inr draft
          else
            match replaceTeamSignature draft desiredSignature with
            | Some replaced => inr replaced
            | None =>
                inr (Text.trimEnd draft ++ newline ++ newline
                       ++ desiredSignature)
            end
    | _ => inl (TypeError "trim is not a function")
    end.

(** The own keys of the header object in order, each stored under its
    lower-case form: a later key overwrites an earlier one. *)
Definition normaliseHeaders (headers : list (string * jsval)) : jsobj :=
  fold_left (fun normalised kv =>
               <[Text.toLowerCase (fst kv) := snd kv]> normalised)
            headers ∅.

(** The secret: the context's variable, else the process's, else the one
    kept by the platform, whose reading may fail and is then skipped. *)
Definition ensureWebhookSecret (context : jsval) : handler jsval :=
  let secret :=
    prop (prop context "environmentVariables") "OPENAI_WEBHOOK_SECRET" in
  let secret :=
    if negb (truthy secret) then processEnvSecret env else secret in
  if negb (truthy secret)
  then tryCatch (storageGetSecret env "openaiWebhookSecret")
                (fun _ => mret secret)
  else mret secret.

(** [Array.from(new Set(l))]: the first occurrence of each value. *)
Fixpoint distinct (seen l : list jsval) : list jsval :=
  match l with
  | [] => []
  | x :: rest =>
      if existsb (strictEq x) seen then distinct seen rest
      else x :: distinct (seen ++ [x])%list rest
  end.

(** The elements [new Set(existing)] iterates over. *)
Definition iterate (existing : jsval) : jsError + list jsval :=
  match existing with
  | VArr l => inr l
  | VStr s => inr (chars s)
  | VUndef | VNull => inr []
  | _ => inl (TypeError "object is not iterable")
  end.

Definition buildProcessedList (existing webhookId : jsval)
  : jsError + jsval :=
  let existing := withDefault (VArr []) existing in
  if negb (truthy webhookId) then inr existing
  else
    elements ← iterate existing;
    inr (VArr (distinct [] (elements ++ [webhookId])%list)).

Definition eventKeyFor (jobType : jsval) (suffix : string) : string :=
  let jobType := withDefault (VStr "response") jobType in
  let prefix :=
    if strictEq jobType (VStr "analysis")
    then "job-analysis" else "job-response" in
  prefix ++ "-" ++ suffix.

(** [openaiService.extractResponseText] ([src/services/openai.js]): the
    trimmed text of the first [output_text] block. [None] is a
    [TypeError]. *)
Definition blockText (block : jsval) : option (option string) :=
  match block with
  | VUndef | VNull => None
  | _ =>
      if strictEq (prop block "type") (VStr "output_text")
      then match prop block "text" with
           | VStr text => Some (Some (Text.trim text))
           | _ => None
           end
      else Some None
  end.

Fixpoint firstText (blocks : list jsval) : option (option string) :=
  match blocks with
  | [] => Some None
  | block :: rest =>
      match blockText block with
      | None => None
      | Some (Some text) => Some (Some text)
      | Some None => firstText rest
      end
  end.

Definition itemText (item : jsval) : option (option string) :=
  match item with
  | VUndef | VNull => None
  | _ =>
      let content := prop item "content" in
      if negb (truthy content) then Some None
      else match content with
           | VArr blocks => firstText blocks
           | VStr s => firstText (chars s)
           | _ => None
           end
  end.

Fixpoint firstItemText (items : list jsval) : option (option string) :=
  match items with
  | [] => Some None
  | item :: rest =>
      match itemText item with
      | None => None
      | Some (Some text) => Some (Some text)
      | Some None => firstItemText rest
      end
  end.

Definition extractResponseText (response : jsval) : option string :=
  match response with
  | VUndef | VNull => None
  | _ =>
      let found :=
        match prop response "output" with
        | VArr items => firstItemText items
        | VStr s => firstItemText (chars s)
        | VObj o =>
            match toNumber (get o "length") with
            | Fin n => if 0 <? n then None else Some None
            | PosInf => None
            | _ => Some None
            end
        | _ => Some None
        end in
      match found with
      | None => None
      | Some (Some text) => Some text
      | Some None => Some "No output returned"
      end
  end.

(** [extractOutputText]: [null] when the extraction throws. *)
Definition extractOutputText (response : jsval) : jsval :=
  match extractResponseText response with
  | Some text => VStr text
  | None => VNull
  end.

(** [webhookId && trackedJob.processedWebhookIds?.includes(webhookId)]. *)
Definition alreadyProcessed (trackedJob webhookId : jsval)
  : jsError + bool :=
  if negb (truthy webhookId) then inr false
  else
    match prop trackedJob "processedWebhookIds" with
    | VUndef | VNull => inr false
    | VArr l => inr (existsb (strictEq webhookId) l)
    | VStr s => inr (Text.includes (toStr webhookId) s)
    | _ => inl (TypeError "includes is not a function")
    end.

(** The result of a completed job, by job type. *)
Definition shapeResult (trackedJob : jsval) (outputText : string)
  : jsError + jsobj :=
  let auxiliaryData := prop trackedJob "auxiliaryData" in
  if strictEq (prop trackedJob "jobType") (VStr "analysis")
  then
    parsed ← parseAnalysisResponse outputText;
    recommendationPlan ←
      normaliseRecommendationPlan (prop parsed "recommendationPlan");
    knowledgeBaseArticles ←
      enrichArticles (prop parsed "knowledgeBaseArticles")
        (Js.or (prop auxiliaryData "searchResults") (VArr []));
    inr (list_to_map
           [("rawText", VStr outputText);
            ("summary", prop parsed "summary");
            ("internalNote", prop parsed "internalNote");
            ("recommendationPlan", recommendationPlan);
            ("knowledgeBaseArticles", knowledgeBaseArticles);
            ("taskQueue", arrayOrEmpty (prop parsed "taskQueue"));
            ("toolSuggestions", prop recommendationPlan "toolSuggestions");
            ("caseStatus", prop auxiliaryData "caseStatus")])
  else
    parsed ← parseFinalResponse outputText;
    emailDraft ←
      match prop parsed "emailDraft" with
      | VStr draft =>
          signed ← ensureAgentSignature draft (prop auxiliaryData "agentName");
          inr (VStr signed)
      | other => inr other
      end;
    inr (list_to_map
           [("rawText", VStr outputText);
            ("emailDraft", emailDraft);
            ("internalNote", prop parsed "internalNote");
            ("caseStatus", prop auxiliaryData "caseStatus")]).

(** The verification of [run]: a secret that is not a string makes every
    path of [unwrapWebhookEvent] throw. *)
Definition unwrapWith (webhookSecret : jsval) (rawBody : string)
  (headers : jsobj) : string + jsval :=
  match webhookSecret with
  | VStr secret => unwrapWebhookEvent (dateNow env) rawBody headers secret
  | _ => inl "The webhook secret is not a string."
  end.

Definition ack (body : string) : handler httpResponse :=
  mret (mkResponse 200 body).

Definition statusUpdate (status : string) (fields : list (string * jsval))
  : jsobj :=
  list_to_map (("status", VStr status) :: fields).

(** The two ways [run] settles a job once the artifact is retrieved. *)
Definition settleCompleted (jobId trackedJob processedWebhookIds : jsval)
  (outputText : string) : handler httpResponse :=
  result ← liftE (shapeResult trackedJob outputText);
  updated ← updateJobRecord env jobId
    (statusUpdate JobStatus.COMPLETED
       [("result", VObj result);
        ("error", VNull);
        ("processedWebhookIds", processedWebhookIds)]);
  publishAppEvent (eventKeyFor (prop updated "jobType") "completed");;
  ack "Ack: completed".

Definition settleFailure (jobId responsePayload eventType
  processedWebhookIds : jsval) : handler httpResponse :=
  let status := prop responsePayload "status" in
  let failureStatus :=
    if strictEq status (VStr "cancelled")
    then JobStatus.CANCELLED else JobStatus.FAILED in
  let error := prop responsePayload "error" in
  let failure : jsobj :=
    list_to_map
      [("message",
        Js.or (prop error "message") (Js.or error (VStr "Unknown failure")));
       ("details", if truthy (prop error "code") then error else VUndef);
       ("status", Js.or status eventType)] in
  updated ← updateJobRecord env jobId
    (statusUpdate failureStatus
       [("error", VObj failure);
        ("processedWebhookIds", processedWebhookIds)]);
  publishAppEvent
    (eventKeyFor (prop updated "jobType")
       (if String.eqb failureStatus JobStatus.CANCELLED
        then "cancelled" else "failed"));;
  ack "Ack: failure".

Definition settleRetrieveFailed (jobId trackedJob webhookId : jsval)
  (error : jsError) : handler httpResponse :=
  processed ←
    liftE (buildProcessedList (prop trackedJob "processedWebhookIds")
             webhookId);
  updateJobRecord env jobId
    (statusUpdate JobStatus.FAILED
       [("error",
         VObj (list_to_map
                 [("reason", VStr "retrieve_failed");
                  ("message", VStr (message error));
                  ("stack", VStr (stack error))]));
        ("processedWebhookIds", processed)]);;
  publishAppEvent (eventKeyFor (prop trackedJob "jobType") "failed");;
  ack "Ack: retrieve failed".

(** What [run] does with the outcome of the retrieval. *)
Definition settle (jobId trackedJob webhookId eventType : jsval)
  (retrieved : jsError + jsval) : handler httpResponse :=
  match retrieved with
  | inl error => settleRetrieveFailed jobId trackedJob webhookId error
  | inr responsePayload =>
      let outputText := extractOutputText responsePayload in
      processedWebhookIds ←
        liftE (buildProcessedList (prop trackedJob "processedWebhookIds")
                 webhookId);
      if negb (isDefined responsePayload) || isNull responsePayload
      then throw (TypeError "Cannot read properties of null")
      else if strictEq (prop responsePayload "status") (VStr "completed")
              && truthy outputText
      then settleCompleted jobId trackedJob processedWebhookIds
             (toStr outputText)
      else settleFailure jobId responsePayload eventType processedWebhookIds
  end.

(** [try { payload = await retrieveCompletion(jobId) } catch (error)]. *)
Definition retrieve (jobId : jsval) : handler (jsError + jsval) :=
  tryCatch (payload ← providerRetrieve env jobId; mret (inr payload))
           (fun error => mret (inl error)).

(** [run] once the event is verified and parsed. *)
Definition dispatch (headers : jsobj) (webhookEvent : jsval)
  : handler httpResponse :=
  let webhookId := normaliseHeaderValue (get headers "webhook-id") in
  let jobId := prop (prop webhookEvent "data") "id" in
  let eventType := prop webhookEvent "type" in
  if negb (truthy jobId) then ack "Ack: missing job id"
  else
    trackedJob ← getJobRecord env jobId;
    if negb (truthy trackedJob) then ack "Ack: job not tracked"
    else
      duplicate ← liftE (alreadyProcessed trackedJob webhookId);
      if duplicate : bool then ack "Ack: duplicate"
      else
        retrieved ← retrieve jobId;
        settle jobId trackedJob webhookId eventType retrieved.

(** The job's record holds the ledger [processed]. *)
Definition holdsLedger (w : world) (jobId processed : jsval) : Prop :=
  exists record,
    storage w !! buildJobKey jobId = Some record
    /\ prop record "processedWebhookIds" = processed.

(** [typeof event.body === 'string' ? event.body
      : JSON.stringify(event.body || {})]. *)
Definition rawBodyOf (event : inboundEvent) : string :=
  match eventBody event with
  | VStr body => body
  | body => jsonStringify (Js.or body (VObj ∅))
  end.

Definition run (event : inboundEvent) (context : jsval)
  : handler httpResponse :=
  let headers := normaliseHeaders (eventHeaders event) in
  let rawBody := rawBodyOf event in
  webhookSecret ← ensureWebhookSecret context;
  if negb (truthy webhookSecret)
  then mret (mkResponse 401 "Webhook secret not configured")
  else
    match unwrapWith webhookSecret rawBody headers with
    | inl _ => mret (mkResponse 400 "Invalid webhook signature")
    | inr webhookEvent => dispatch headers webhookEvent
    end.

End Webhook.
End Webhook.

(** ** Cancellation and status query
    ([src/handlers/cancelJob.js], [src/handlers/getJobStatus.js]) *)

Module Handlers.
Import JobStore.
Section Handlers.
Context {rt : NodeRuntime} (env : environment).

Definition FINAL_STATUSES : list jsval :=
  [VStr JobStatus.COMPLETED; VStr JobStatus.FAILED; VStr JobStatus.CANCELLED].

(** [FINAL_STATUSES.has(status)]. *)
Definition isFinal (status : jsval) : bool :=
  existsb (strictEq status) FINAL_STATUSES.

Definition failureReply (error : string) : jsval :=
  VObj (list_to_map [("success", VBool false); ("error", VStr error)]).

(** [const { processedWebhookIds, ...sanitised } = record]. *)
Definition sanitise (record : jsval) : jsval :=
  VObj (delete "processedWebhookIds" (spread record)).

(** The reply of [cancelJob] for a job that is already settled. *)
Definition settledReply (record : jsval) : jsval :=
  VObj (list_to_map
          [("success", VBool true);
           ("job", record);
           ("message",
            VStr ("Job already settled with status "
                    ++ toStr (prop record "status") ++ "."))]).

(** The fields [cancelJob] writes once the provider has answered. *)
Definition cancellation (cancelResponse : jsval) : jsobj :=
  list_to_map
    [("status", VStr JobStatus.CANCELLED);
     ("result", VNull);
     ("error",
      VObj (list_to_map
              [("reason", VStr "cancelled_by_user");
               ("message", VStr "Job cancelled at the request of the agent.");
               ("openaiStatus", prop cancelResponse "status")]))].

Definition cancelJob (payload : jsval) : handler jsval :=
  let jobId := prop payload "jobId" in
  if negb (truthy jobId)
  then mret (failureReply
               "Job identifier is required to request cancellation.")
  else
    record ← getJobRecord env jobId;
    if negb (truthy record)
    then mret (failureReply
                 ("No background job found for id " ++ toStr jobId ++ "."))
    else if isFinal (prop record "status")
    then mret (settledReply record)
    else
      cancelResponse ← providerCancel env jobId;
      updated ← updateJobRecord env jobId (cancellation cancelResponse);
      let sanitised := sanitise updated in
      let eventKey :=
        if strictEq (prop updated "jobType") (VStr "analysis")
        then "job-analysis-cancelled" else "job-response-cancelled" in
      publishAppEvent eventKey;;
      mret (VObj (list_to_map
                    [("success", VBool true); ("job", sanitised)])).

Definition getJobStatus (payload : jsval) : handler jsval :=
  let jobId := prop payload "jobId" in
  if negb (truthy jobId)
  then mret (failureReply "Job identifier is required to check status.")
  else
    record ← getJobRecord env jobId;
    if negb (truthy record)
    then mret (failureReply
                 ("No background job found for id " ++ toStr jobId ++ "."))
    else
      mret (VObj (list_to_map
                    [("success", VBool true); ("job", sanitise record)])).

End Handlers.
End Handlers.

(** ** The retention sweep ([src/handlers/cleanupJobs.js]) *)

Module CleanupJobs.
Import JobStore.
Section CleanupJobs.
Context {rt : NodeRuntime} (env : environment).

(** The [for ... of] loop: one deletion after the other, counting. *)
Fixpoint deleteAll (expiredJobs : list jsval) (deleted : nat) : handler nat :=
  match expiredJobs with
  | [] => mret deleted
  | job :: rest =>
      deleteJobRecord env (prop job "jobId");;
      deleteAll rest (S deleted)
  end.

(** The key the sweep deletes for an expired job. *)
Definition sweptKey (job : jsval) : string := buildJobKey (prop job "jobId").

(** The storage once the records of [jobs] are deleted. *)
Definition pruned (jobs : list jsval) (store : gmap string jsval)
  : gmap string jsval :=
  fold_left (fun st job => delete (sweptKey job) st) jobs store.

Definition sweepReply (pruned : nat) (message : string) : jsval :=
  VObj (list_to_map
          [("success", VBool true);
           ("pruned", VNum (Z.of_nat pruned));
           ("message", VStr message)]).

Definition run : handler jsval :=
  expiredJobs ← listExpiredJobs env;
  if (length expiredJobs =? 0)%nat
  then mret (sweepReply 0 "No expired jobs to delete.")
  else
    deleted ← deleteAll expiredJobs 0;
    mret (sweepReply deleted
            ("Removed " ++ numberToString (Fin (Z.of_nat deleted))
               ++ " expired job" ++ (if (deleted =? 1)%nat then "" else "s")
               ++ " from storage.")).

End CleanupJobs.
End CleanupJobs.

(** ** An executable runtime *)

(** [Ref.runtime] computes what Node computes on the inputs of the
    examples below: SHA-256 and HMAC as in FIPS 180-4 and RFC 2104, the
    lenient base64 and hex readers of [Buffer.from], integers in decimal
    for [Number] and [String], a JSON reader and writer over integers, and
    ISO dates of four-digit years. *)
Module Ref.

Module Sha256.

Definition w32 (x : Z) : Z := x mod 4294967296.
Definition add32 (x y : Z) : Z := w32 (x + y).
Definition rotr (n x : Z) : Z :=
  Z.lor (Z.shiftr x n) (w32 (Z.shiftl x (32 - n))).
Definition not32 (x : Z) : Z := Z.lxor x 4294967295.
Definition ch (x y z : Z) : Z := Z.lxor (Z.land x y) (Z.land (not32 x) z).
Definition maj (x y z : Z) : Z :=
  Z.lxor (Z.lxor (Z.land x y) (Z.land x z)) (Z.land y z).
Definition bsig0 (x : Z) : Z :=
  Z.lxor (Z.lxor (rotr 2 x) (rotr 13 x)) (rotr 22 x).
Definition bsig1 (x : Z) : Z :=
  Z.lxor (Z.lxor (rotr 6 x) (rotr 11 x)) (rotr 25 x).
Definition ssig0 (x : Z) : Z :=
  Z.lxor (Z.lxor (rotr 7 x) (rotr 18 x)) (Z.shiftr x 3).
Definition ssig1 (x : Z) : Z :=
  Z.lxor (Z.lxor (rotr 17 x) (rotr 19 x)) (Z.shiftr x 10).

(** The round constants and the initial hash value: the first 32 bits of
    the fractional parts of the cube roots of the first 64 primes, and of
    the square roots of the first 8. *)
Definition isPrime (n : Z) : bool :=
  (1 <? n)
  && forallb (fun d => negb (n mod d =? 0))
       (map Z.of_nat (seq 2 (Z.to_nat (Z.sqrt n) - 1))).

Definition primes : list Z :=
  Eval vm_compute in
    List.filter isPrime (map Z.of_nat (seq 2 310)).

(** The integer cube root, by bisection between [lo] and [hi]. *)
Fixpoint cubeRoot (fuel : nat) (lo hi x : Z) : Z :=
  match fuel with
  | O => lo
  | S fuel' =>
      let mid := (lo + hi) / 2 in
      if mid * mid * mid <=? x then cubeRoot fuel' mid hi x
      else cubeRoot fuel' lo mid x
  end.

Definition K : list Z :=
  Eval vm_compute in
    map (fun p => w32 (cubeRoot 64 0 (2 ^ 40) (p * 2 ^ 96))) primes.

Definition H0 : list Z :=
  Eval vm_compute in
    map (fun p => w32 (Z.sqrt (p * 2 ^ 64))) (take 8 primes).

(** The message schedule, latest word first: [more] further words. *)
Fixpoint schedule (more : nat) (w : list Z) : list Z :=
  match more with
  | O => w
  | S more' =>
      let word :=
        add32 (add32 (ssig1 (nth 1 w 0)) (nth 6 w 0))
              (add32 (ssig0 (nth 14 w 0)) (nth 15 w 0)) in
      schedule more' (word :: w)
  end.

Definition round (st : list Z) (kw : Z * Z) : list Z :=
  match st with
  | [a; b; c; d; e; f; g; h] =>
      let t1 :=
        add32 (add32 (add32 h (bsig1 e)) (add32 (ch e f g) (fst kw)))
              (snd kw) in
      let t2 := add32 (bsig0 a) (maj a b c) in
      [add32 t1 t2; a; b; c; add32 d t1; e; f; g]
  | _ => st
  end.

Fixpoint zipWith {A B C : Type} (f : A -> B -> C) (l : list A) (m : list B)
  : list C :=
  match l, m with
  | x :: l', y :: m' => f x y :: zipWith f l' m'
  | _, _ => []
  end.

Definition compress (h : list Z) (block : list Z) : list Z :=
  let w := rev (schedule 48 (rev block)) in
  zipWith add32 h (fold_left round (zipWith pair K w) h).

(** Big-endian words of a byte list whose length is a multiple of four. *)
Fixpoint words (fuel : nat) (bs : list Z) : list Z :=
  match fuel, bs with
  | S fuel', b0 :: b1 :: b2 :: b3 :: rest =>
      (b0 * 16777216 + b1 * 65536 + b2 * 256 + b3) :: words fuel' rest
  | _, _ => []
  end.

Fixpoint blocks (fuel : nat) (ws : list Z) : list (list Z) :=
  match fuel, ws with
  | O, _ | _, [] => []
  | S fuel', _ => take 16 ws :: blocks fuel' (drop 16 ws)
  end.

Definition bigEndian (width : nat) (x : Z) : list Z :=
  map (fun i => (x / 256 ^ Z.of_nat i) mod 256) (rev (seq 0 width)).

Definition pad (msg : list Z) : list Z :=
  let len := Z.of_nat (length msg) in
  let zeros := Z.to_nat ((55 - len) mod 64) in
  (msg ++ [128] ++ repeat 0 zeros ++ bigEndian 8 (8 * len))%list.

Definition digestZ (msg : list Z) : list Z :=
  let padded := pad msg in
  let ws := words (length padded) padded in
  concat (map (bigEndian 4) (fold_left compress (blocks (length ws) ws) H0)).

Definition toZ (b : byte) : Z := Z.of_N (Byte.to_N b).
Definition ofZ (z : Z) : byte := default x00 (Byte.of_N (Z.to_N z)).

Definition digest (msg : list byte) : list byte :=
  map ofZ (digestZ (map toZ msg)).

Definition hmac (key msg : list byte) : list byte :=
  let key := if (64 <? length key)%nat then digest key else key in
  let block := (map toZ key ++ repeat 0 (64 - length key))%list in
  let inner := map ofZ (map (Z.lxor 54) block) in
  let outer := map ofZ (map (Z.lxor 92) block) in
  digest (outer ++ digest (inner ++ msg))%list.

End Sha256.

(** The value of a base64 character, in either alphabet. *)
Definition base64Value (c : ascii) : option Z :=
  let n := Z.of_nat (nat_of_ascii c) in
  if (65 <=? n) && (n <=? 90) then Some (n - 65)
  else if (97 <=? n) && (n <=? 122) then Some (n - 71)
  else if (48 <=? n) && (n <=? 57) then Some (n + 4)
  else if (n =? 43) || (n =? 45) then Some 62
  else if (n =? 47) || (n =? 95) then Some 63
  else None.

(** [Buffer.from(s, 'base64')]: characters outside the alphabet are
    skipped, [=] ends the data, and leftover bits are dropped. *)
Fixpoint base64Go (s : string) (acc : Z) (bits : Z) : list byte :=
  match s with
  | EmptyString => []
  | String c rest =>
      if Ascii.eqb c "=" then []
      else match base64Value c with
           | None => base64Go rest acc bits
           | Some v =>
               let acc := acc * 64 + v in
               let bits := bits + 6 in
               if 8 <=? bits
               then Sha256.ofZ (acc / 2 ^ (bits - 8))
                    :: base64Go rest (acc mod 2 ^ (bits - 8)) (bits - 8)
               else base64Go rest acc bits
           end
  end.

Definition fromBase64 (s : string) : list byte := base64Go s 0 0.

Definition hexValue (c : ascii) : option Z :=
  let n := Z.of_nat (nat_of_ascii c) in
  if (48 <=? n) && (n <=? 57) then Some (n - 48)
  else if (97 <=? n) && (n <=? 102) then Some (n - 87)
  else if (65 <=? n) && (n <=? 70) then Some (n - 55)
  else None.

(** [Buffer.from(s, 'hex')]: pairs of digits up to the first that is not
    one. *)
Fixpoint fromHex (s : string) : list byte :=
  match s with
  | String c (String d rest) =>
      match hexValue c, hexValue d with
      | Some h, Some l => Sha256.ofZ (16 * h + l) :: fromHex rest
      | _, _ => []
      end
  | _ => []
  end.

Definition base64Char (v : Z) : ascii :=
  ascii_of_nat (Z.to_nat
    (if v <? 26 then v + 65 else if v <? 52 then v + 71
     else if v <? 62 then v - 4 else if v =? 62 then 43 else 47)).

(** [buffer.toString('base64')] and [buffer.toString('hex')]. *)
Fixpoint toBase64 (bs : list Z) : string :=
  match bs with
  | [] => ""
  | [a] =>
      String (base64Char (a / 4))
        (String (base64Char ((a mod 4) * 16)) "==")
  | [a; b] =>
      String (base64Char (a / 4))
        (String (base64Char ((a mod 4) * 16 + b / 16))
           (String (base64Char ((b mod 16) * 4)) "="))
  | a :: b :: c :: rest =>
      String (base64Char (a / 4))
        (String (base64Char ((a mod 4) * 16 + b / 16))
           (String (base64Char ((b mod 16) * 4 + c / 64))
              (String (base64Char (c mod 64)) (toBase64 rest))))
  end.

Definition hexChar (v : Z) : ascii :=
  ascii_of_nat (Z.to_nat (if v <? 10 then v + 48 else v + 87)).

Fixpoint toHex (bs : list Z) : string :=
  match bs with
  | [] => ""
  | b :: rest => String (hexChar (b / 16)) (String (hexChar (b mod 16)) (toHex rest))
  end.

(** [Number(s)] for a decimal integer, a blank string or an infinity;
    anything else reads as [NaN] here. *)
Definition digitValue (c : ascii) : option Z :=
  let n := Z.of_nat (nat_of_ascii c) in
  if (48 <=? n) && (n <=? 57) then Some (n - 48) else None.

Fixpoint digits (s : string) (acc : Z) : option Z :=
  match s with
  | EmptyString => Some acc
  | String c rest =>
      match digitValue c with
      | Some d => digits rest (10 * acc + d)
      | None => None
      end
  end.

Definition unsigned (s : string) : jsnum :=
  if String.eqb s "Infinity" then PosInf
  else if String.eqb s "" then NaN
  else match digits s 0 with Some z => Fin z | None => NaN end.

Definition negate (n : jsnum) : jsnum :=
  match n with
  | Fin z => Fin (- z)
  | PosInf => NegInf
  | NegInf => PosInf
  | NaN => NaN
  end.

Definition stringToNumber (s : string) : jsnum :=
  match Text.trim s with
  | EmptyString => Fin 0
  | String "-" rest => negate (unsigned rest)
  | String "+" rest => unsigned rest
  | t => unsigned t
  end.

Definition numberToString (n : jsnum) : string :=
  match n with
  | Fin z => pretty z
  | NaN => "NaN"
  | PosInf => "Infinity"
  | NegInf => "-Infinity"
  end.

(** *** JSON over integers *)

Definition isJsonSpace (c : ascii) : bool :=
  let n := nat_of_ascii c in
  ((n =? 32) || (n =? 9) || (n =? 10) || (n =? 13))%nat.

Fixpoint skipWs (s : string) : string :=
  match s with
  | String c rest => if isJsonSpace c then skipWs rest else s
  | EmptyString => s
  end.

Definition unescape (c : ascii) : option ascii :=
  let n := nat_of_ascii c in
  if (n =? 34)%nat || (n =? 92)%nat || (n =? 47)%nat then Some c
  else if (n =? 98)%nat then Some (ascii_of_nat 8)
  else if (n =? 102)%nat then Some (ascii_of_nat 12)
  else if (n =? 110)%nat then Some (ascii_of_nat 10)
  else if (n =? 114)%nat then Some (ascii_of_nat 13)
  else if (n =? 116)%nat then Some (ascii_of_nat 9)
  else None.

(** The characters up to the closing quote, and what follows it. *)
Fixpoint readString (s : string) : option (string * string) :=
  match s with
  | EmptyString => None
  | String c rest =>
      if (nat_of_ascii c =? 34)%nat then Some ("", rest)
      else if (nat_of_ascii c =? 92)%nat then
        match rest with
        | String e rest' =>
            match unescape e, readString rest' with
            | Some u, Some (text, after) => Some (String u text, after)
            | _, _ => None
            end
        | EmptyString => None
        end
      else if (nat_of_ascii c <? 32)%nat then None
      else match readString rest with
           | Some (text, after) => Some (String c text, after)
           | None => None
           end
  end.

Fixpoint readDigits (s : string) (acc : Z) (count : nat)
  : Z * nat * string :=
  match s with
  | String c rest =>
      match digitValue c with
      | Some d => readDigits rest (10 * acc + d) (S count)
      | None => (acc, count, s)
      end
  | EmptyString => (acc, count, s)
  end.

(** An integer literal: no leading zero, no fraction, no exponent. *)
Definition readNumber (s : string) : option (Z * string) :=
  let '(negative, body) :=
    match s with
    | String "-" rest => (true, rest)
    | _ => (false, s)
    end in
  let '(value, count, after) := readDigits body 0 0 in
  if (count =? 0)%nat then None
  else if (1 <? count)%nat && Text.startsWith "0" body then None
  else match after with
       | String "." _ | String "e" _ | String "E" _ => None
       | _ => Some (if negative then - value else value, after)
       end.

Definition doubleQuote : ascii := ascii_of_nat 34.

(** The text after an opening quote, when [s] starts with one. *)
Definition afterQuote (s : string) : option string :=
  match s with
  | String c rest => if Ascii.eqb c doubleQuote then Some rest else None
  | EmptyString => None
  end.

Definition readLiteral (t : string) : option (jsval * string) :=
  if Text.startsWith "true" t then Some (VBool true, Text.sliceFrom 4 t)
  else if Text.startsWith "false" t
  then Some (VBool false, Text.sliceFrom 5 t)
  else if Text.startsWith "null" t then Some (VNull, Text.sliceFrom 4 t)
  else match readNumber t with
       | Some (z, after) => Some (VNum z, after)
       | None => None
       end.

Fixpoint readValue (fuel : nat) (s : string) : option (jsval * string) :=
  match fuel with
  | O => None
  | S fuel' =>
      match skipWs s with
      | String "{" rest =>
          match skipWs rest with
          | String "}" after => Some (VObj ∅, after)
          | _ => readMembers fuel' rest ∅
          end
      | String "[" rest =>
          match skipWs rest with
          | String "]" after => Some (VArr [], after)
          | _ => readElements fuel' rest []
          end
      | t =>
          match afterQuote t with
          | Some rest =>
              match readString rest with
              | Some (text, after) => Some (VStr text, after)
              | None => None
              end
          | None => readLiteral t
          end
      end
  end
with readMembers (fuel : nat) (s : string) (acc : jsobj)
  : option (jsval * string) :=
  match fuel with
  | O => None
  | S fuel' =>
      match afterQuote (skipWs s) with
      | Some rest =>
          match readString rest with
          | Some (key, after) =>
              match skipWs after with
              | String ":" after' =>
                  match readValue fuel' after' with
                  | Some (v, after'') =>
                      match skipWs after'' with
                      | String "," more =>
                          readMembers fuel' more (<[key := v]> acc)
                      | String "}" done => Some (VObj (<[key := v]> acc), done)
                      | _ => None
                      end
                  | None => None
                  end
              | _ => None
              end
          | None => None
          end
      | None => None
      end
  end
with readElements (fuel : nat) (s : string) (acc : list jsval)
  : option (jsval * string) :=
  match fuel with
  | O => None
  | S fuel' =>
      match readValue fuel' s with
      | Some (v, after) =>
          match skipWs after with
          | String "," more => readElements fuel' more (acc ++ [v])%list
          | String "]" done => Some (VArr (acc ++ [v])%list, done)
          | _ => None
          end
      | None => None
      end
  end.

Definition jsonParse (s : string) : option jsval :=
  match readValue (S (String.length s)) s with
  | Some (v, after) =>
      match skipWs after with
      | EmptyString => Some v
      | _ => None
      end
  | None => None
  end.

Fixpoint escapeString (s : string) : string :=
  match s with
  | EmptyString => EmptyString
  | String c rest =>
      if (nat_of_ascii c =? 34)%nat || (nat_of_ascii c =? 92)%nat
      then String "\" (String c (escapeString rest))
      else String c (escapeString rest)
  end.

Definition quote (s : string) : string :=
  String doubleQuote (escapeString s) ++ String doubleQuote "".

(** [JSON.stringify(v)], the properties of an object in key order. *)
Fixpoint jsonStringify (v : jsval) : string :=
  match v with
  | VUndef => "undefined"
  | VNull => "null"
  | VBool true => "true"
  | VBool false => "false"
  | VNum n => pretty n
  | VStr s => quote s
  | VArr l =>
      "[" ++ Text.join ","
               (map (fun x => match x with
                              | VUndef => "null"
                              | _ => jsonStringify x
                              end) l) ++ "]"
  | VObj o =>
      "{" ++ Text.join ","
               (map (fun kv => quote (fst kv) ++ ":" ++ snd kv)
                  (map_to_list
                     (omap (fun x => match x with
                                     | VUndef => None
                                     | _ => Some (jsonStringify x)
                                     end) o))) ++ "}"
  end.

(** *** ISO dates *)

Definition padLeft (width : nat) (s : string) : string :=
  string_of_list_ascii (repeat "0"%char (width - String.length s)) ++ s.

Definition fixed (width : nat) (z : Z) : string := padLeft width (pretty z).

(** Year, month and day of a day count since 1970-01-01. *)
Definition civilFromDays (days : Z) : Z * Z * Z :=
  let z := days + 719468 in
  let era := z / 146097 in
  let doe := z - era * 146097 in
  let yoe := (doe - doe / 1460 + doe / 36524 - doe / 146096) / 365 in
  let doy := doe - (365 * yoe + yoe / 4 - yoe / 100) in
  let mp := (5 * doy + 2) / 153 in
  let d := doy - (153 * mp + 2) / 5 + 1 in
  let m := if mp <? 10 then mp + 3 else mp - 9 in
  (yoe + era * 400 + (if m <=? 2 then 1 else 0), m, d).

Definition daysFromCivil (y m d : Z) : Z :=
  let y := if m <=? 2 then y - 1 else y in
  let era := y / 400 in
  let yoe := y - era * 400 in
  let doy := (153 * (if 2 <? m then m - 3 else m + 9) + 2) / 5 + d - 1 in
  let doe := yoe * 365 + yoe / 4 - yoe / 100 + doy in
  era * 146097 + doe - 719468.

Definition toISOString (ms : Z) : string :=
  let '(y, m, d) := civilFromDays (ms / 86400000) in
  let t := ms mod 86400000 in
  fixed 4 y ++ "-" ++ fixed 2 m ++ "-" ++ fixed 2 d ++ "T"
    ++ fixed 2 (t / 3600000) ++ ":" ++ fixed 2 (t / 60000 mod 60) ++ ":"
    ++ fixed 2 (t / 1000 mod 60) ++ "." ++ fixed 3 (t mod 1000) ++ "Z".

Definition field (from len : nat) (s : string) : option Z :=
  digits (substring from len s) 0.

(** [new Date(s).getTime()] for the form [toISOString] writes. *)
Definition dateGetTime (s : string) : jsnum :=
  if negb (String.length s =? 24)%nat then NaN
  else if negb (String.eqb (substring 4 1 s ++ substring 7 1 s
                  ++ substring 10 1 s ++ substring 13 1 s
                  ++ substring 16 1 s ++ substring 19 1 s
                  ++ substring 23 1 s) "--T::.Z") then NaN
  else
    match field 0 4 s, field 5 2 s, field 8 2 s, field 11 2 s,
          field 14 2 s, field 17 2 s, field 20 3 s with
    | Some y, Some m, Some d, Some h, Some mi, Some sec, Some milli =>
        if (1 <=? m) && (m <=? 12) && (1 <=? d) && (d <=? 31)
           && (h <=? 23) && (mi <=? 59) && (sec <=? 59)
        then Fin (daysFromCivil y m d * 86400000 + h * 3600000
                  + mi * 60000 + sec * 1000 + milli)
        else NaN
    | _, _, _, _, _, _, _ => NaN
    end.

(** The wording of a [SyntaxError] varies with the version of Node; the
    reference runtime words every one alike. *)
Definition jsonParseMessage (s : string) : string :=
  "Unexpected token in JSON".

Definition runtime : NodeRuntime :=
  Build_NodeRuntime Sha256.hmac fromBase64 fromHex stringToNumber
    numberToString jsonParse jsonParseMessage jsonStringify toISOString
    dateGetTime.

(** Stand-ins for the result helpers: a text without glossary terms or
    team signature, and no article enrichment. *)
Definition helpers : ResultHelpers :=
  Build_ResultHelpers
    (fun v => match v with VStr s => s | _ => "" end)
    (fun articles _ => inr (if isArray articles then articles else VArr []))
    (fun _ _ => None).

End Ref.

(** ** Sample inputs *)

Module Examples.

(** 2023-11-14T22:13:20.000Z. *)
Definition clock : Z := 1700000000000.

Definition unavailable : jsError := mkError "provider unavailable" "Error".

(** An environment in which storage never fails, the platform keeps no
    secret and the provider answers nothing. *)
Definition quiet : environment :=
  mkEnvironment clock (fun _ => None) (fun _ => inl unavailable)
    (fun _ => inl unavailable) (inr VUndef) VUndef 10.

Definition emptyWorld : world := mkWorld ∅ [].

(** A response job as [createJobRecord] leaves it. *)
Definition jobRecord (jobId status : string) (processed : list jsval)
  : jsval :=
  VObj (list_to_map
          [("jobId", VStr jobId);
           ("jobType", VStr "response");
           ("status", VStr status);
           ("createdAt", VStr "2023-11-14T22:00:00.000Z");
           ("updatedAt", VStr "2023-11-14T22:00:00.000Z");
           ("expiresAt", VStr "2023-11-28T22:00:00.000Z");
           ("auxiliaryData",
            VObj (list_to_map [("caseStatus", VStr "open")]));
           ("result", VNull);
           ("error", VNull);
           ("processedWebhookIds", VArr processed)]).

Definition oneJob (jobId status : string) (processed : list jsval) : world :=
  mkWorld {[ ("async-job:" ++ jobId) := jobRecord jobId status processed ]} [].

(** A completed job that has applied the delivery [wh_1], and a request
    to cancel it. *)
Definition settledRecord : jsval :=
  jobRecord "resp_1" "completed" [VStr "wh_1"].

Definition settledWorld : world :=
  oneJob "resp_1" "completed" [VStr "wh_1"].

Definition cancelPayload : jsval := VObj {[ "jobId" := VStr "resp_1" ]}.

(** Two jobs past their expiry, and an environment in which the record of
    the first cannot be deleted. *)
Definition expiredJob (jobId : string) : jsval :=
  VObj (list_to_map
          [("jobId", VStr jobId);
           ("jobType", VStr "response");
           ("status", VStr "completed");
           ("expiresAt", VStr "2023-11-01T00:00:00.000Z");
           ("processedWebhookIds", VArr [])]).

Definition staleWorld : world :=
  mkWorld (list_to_map
             [("async-job:resp_a", expiredJob "resp_a");
              ("async-job:resp_b", expiredJob "resp_b")]) [].

Definition storageDown : jsError := mkError "storage unavailable" "Error".

Definition stuck (key : string) : environment :=
  mkEnvironment clock
    (fun c => match c with
              | StorageDelete k =>
                  if String.eqb k key then Some storageDown else None
              | _ => None
              end)
    (fun _ => inl unavailable) (fun _ => inl unavailable)
    (inr VUndef) VUndef 10.

(** A JSON text, written with apostrophes for its quotes. *)
Definition jsonText (s : string) : string :=
  string_of_list_ascii
    (map (fun c => if Ascii.eqb c "'" then ascii_of_nat 34 else c)
       (list_ascii_of_string s)).

(** The completion event of job [resp_1], the shared secret (the base64
    of [secret-key-0123456789] behind its prefix) and a context that
    carries it. *)
Definition completedBody : string :=
  jsonText "{'type':'response.completed','data':{'id':'resp_1'}}".

Definition completedEvent : jsval :=
  VObj (list_to_map
          [("type", VStr "response.completed");
           ("data", VObj (list_to_map [("id", VStr "resp_1")]))]).

Definition sharedSecret : string := "whsec_c2VjcmV0LWtleS0wMTIzNDU2Nzg5".

Definition withSecret : jsval :=
  VObj {[ "environmentVariables" :=
            VObj {[ "OPENAI_WEBHOOK_SECRET" := VStr sharedSecret ]} ]}.

(** A delivery under the standard convention, signed at the clock's
    second; the platform hands each header over as an array. *)
Definition standardDelivery (id signature : string) : inboundEvent :=
  mkEvent
    [("Webhook-Id", VArr [VStr id]);
     ("Webhook-Timestamp", VArr [VStr "1700000000"]);
     ("Webhook-Signature", VArr [VStr ("v1," ++ signature)])]
    (VStr completedBody).

Definition firstDelivery : inboundEvent :=
  standardDelivery "wh_1" "sREv6phsPDuIv6nhpg9JJC2nsSJHtZCbn6QGB0VbIp8=".

Definition secondDelivery : inboundEvent :=
  standardDelivery "wh_2" "y/L84Mq/2IXH9lEIm3gL3v/Tc3xS4l9T4tuTZzZlJ/U=".

(** A delivery under the provider-native convention: no delivery id. *)
Definition nativeDelivery : inboundEvent :=
  mkEvent
    [("OpenAI-Signature",
      VArr [VStr "t=1700000000,v1=Gel/VOuKADxUj23efaXoMSgT8fAJ4zULIXTRlfismaM="])]
    (VStr completedBody).

(** Broker-style headers whose only candidate is the digest in hex. *)
Definition brokerHexSignature : string :=
  "32e9ddb7fb1996df6a561f442d8e55d11b6cab91e4a17745deb61499f16fe502".

Definition brokerHexHeaders : jsobj :=
  list_to_map
    [("svix-id", VStr "msg_1");
     ("svix-timestamp", VStr "1700000000");
     ("svix-signature", VStr ("v1=" ++ brokerHexSignature))].

(** A provider that answers every retrieval with [payload]. *)
Definition answering (payload : jsval) : environment :=
  mkEnvironment clock (fun _ => None) (fun _ => inr payload)
    (fun _ => inl unavailable) (inr VUndef) VUndef 10.

(** The artifact of a failed job, and that of a completed job whose
    output text is not JSON. *)
Definition failedArtifact : jsval :=
  VObj (list_to_map
          [("id", VStr "resp_1");
           ("status", VStr "failed");
           ("error",
            VObj (list_to_map
                    [("code", VStr "server_error");
                     ("message", VStr "The model failed.")]))]).

Definition proseArtifact : jsval :=
  VObj (list_to_map
          [("id", VStr "resp_1");
           ("status", VStr "completed");
           ("output",
            VArr [VObj (list_to_map
                          [("type", VStr "message");
                           ("content",
                            VArr [VObj (list_to_map
                                          [("type", VStr "output_text");
                                           ("text",
                                            VStr "Sorry, I cannot help with that.")])])])])]).





End Examples.

(** ** The verifier, convention by convention *)

(** The three header conventions, in the order they are tried. First
    what the receiver's own parsers read from a callback under each
    ([reading]); then, in the words of the specification, the forms in
    which a sender writes the signature header, what a callback so
    written offers ([written], [offered]) and when a convention accepts
    it. The two are compared with [Verifier.verifySignature] below. *)
Module Scheme.
Import Verifier.
Section Scheme.
Context {rt : NodeRuntime}.

Inductive scheme : Type := ProviderNative | BrokerStyle | Standard.

Definition rank (s : scheme) : nat :=
  match s with ProviderNative => 0 | BrokerStyle => 1 | Standard => 2 end.

Definition signatureHeader (s : scheme) (headers : jsobj) : jsval :=
  normaliseSignatureHeader headers
    match s with
    | ProviderNative => ["x-openai-signature"; "openai-signature"]
    | BrokerStyle => ["svix-signature"]
    | Standard => ["webhook-signature"]
    end.

(** The callback carries the convention's signature header. *)
Definition presented (s : scheme) (headers : jsobj) : Prop :=
  truthy (signatureHeader s headers) = true.

(** What one convention reads: the timestamp, the signature candidates,
    the HMAC key, the canonical signed string, and whether a candidate may
    also be given in hex. *)
Record attempt : Type := mkAttempt {
  timestamp : jsnum;
  candidates : list string;
  key : list byte;
  signedString : string;
  hexAllowed : bool
}.

Definition guard (b : bool) : option unit := if b then Some tt else None.

(** What the receiver reads from a header set with its parsers, [None]
    when it finds it malformed: no timestamp or no signature parsed, and
    for the broker-style and standard conventions no delivery id, no
    finite timestamp or an empty decoded key. *)
Definition reading (s : scheme) (rawBody : string) (headers : jsobj)
  (secret : string) : option attempt :=
  match s with
  | ProviderNative =>
      '(timestamp, signatures) ←
        parseOpenAiSignature (signatureHeader s headers);
      Some (mkAttempt timestamp signatures (utf8 secret)
              (numberToString timestamp ++ "." ++ rawBody) true)
  | BrokerStyle =>
      let timestampHeader :=
        Js.or (get headers "svix-timestamp")
          (Js.or (get headers "x-openai-timestamp")
             (get headers "openai-timestamp")) in
      let id := normaliseHeaderValue (get headers "svix-id") in
      let key := bufferFromBase64 (stripWhsec secret) in
      signatures ← parseSvixSignature (signatureHeader s headers);
      _ ← guard (truthy timestampHeader && truthy id
                 && isFinite (toNumber timestampHeader)
                 && negb (length key =? 0)%nat);
      Some (mkAttempt (toNumber timestampHeader) signatures key
              (toStr id ++ "." ++ toStr timestampHeader ++ "." ++ rawBody)
              false)
  | Standard =>
      let timestampHeader :=
        normaliseHeaderValue
          (normaliseSignatureHeader headers
             ["webhook-timestamp"; "svix-timestamp"; "x-openai-timestamp";
              "openai-timestamp"]) in
      let id := normaliseSignatureHeader headers ["webhook-id"] in
      signatures ← parseStandardSignature (signatureHeader s headers);
      _ ← guard (truthy timestampHeader && truthy id
                 && isFinite (toNumber timestampHeader));
      key ← deriveStandardSecretKey secret;
      Some (mkAttempt (toNumber timestampHeader) signatures key
              (toStr id ++ "." ++ toStr timestampHeader ++ "." ++ rawBody)
              true)
  end.

(** The timestamp differs from now by at most 300 seconds. *)
Definition within (nowMs : Z) (timestamp : jsnum) : Prop :=
  exists t, timestamp = Fin t /\ Z.abs (nowMs / 1000 - t) <= 300.

(** The candidate, decoded as base64, or as hex when that is allowed and
    the base64 decoding has not the digest's length, is the digest. *)
Definition decodesTo (hex : bool) (signature : string) (digest : list byte)
  : Prop :=
  bufferFromBase64 signature = digest
  \/ (hex = true
      /\ length (bufferFromBase64 signature) <> length digest
      /\ bufferFromHex signature = digest).

(** The digest over the signed string matches at least one candidate. *)
Definition matched (a : attempt) : Prop :=
  exists signature,
    signature ∈ candidates a
    /\ decodesTo (hexAllowed a) signature
         (hmacSha256 (key a) (utf8 (signedString a))).

Definition accepted (s : scheme) (nowMs : Z) (rawBody : string)
  (headers : jsobj) (secret : string) : Prop :=
  exists a,
    reading s rawBody headers secret = Some a
    /\ within nowMs (timestamp a) /\ matched a.

(** The attempt is well formed and recent, and matches no candidate. *)
Definition passedOver (s : scheme) (nowMs : Z) (rawBody : string)
  (headers : jsobj) (secret : string) : Prop :=
  exists a,
    reading s rawBody headers secret = Some a
    /\ within nowMs (timestamp a) /\ ~ matched a.

(** *** Headers as a sender writes them

    The specification gives each signature header as a list of versioned
    signatures: [v1=<signature>] entries separated by commas, after a
    [t=<seconds>] entry under the provider-native convention, or, under
    the standard convention, [v1,<signature>] pairs. *)

(** A timestamp or a signature as it stands in a header: not empty, and
    without a comma and without blanks around it. *)
Definition plainText (text : string) : Prop :=
  Text.nonEmpty text = true
  /\ Text.trim text = text
  /\ Text.indexOf "," text = None.

(** [v1=<signature>,v1=<signature>,...] *)
Definition entries (signatures : list string) : list string :=
  map (fun signature => "v1=" ++ signature) signatures.

Definition versioned (signatures : list string) : string :=
  Text.join "," (entries signatures).

(** [v1,<signature>,v1,<signature>,...] *)
Definition paired (signatures : list string) : string :=
  Text.join "," (flat_map (fun signature => ["v1"; signature]) signatures).

(** The signature header of the convention is written in one of these
    forms, with the signatures [signatures] and, under the
    provider-native convention, the timestamp [stamp], which is not 0.
    The pairs of the standard convention hold no signature that begins
    with [v]. *)
Definition written (s : scheme) (headers : jsobj) (stamp : string)
  (signatures : list string) : Prop :=
  signatures <> []
  /\ Forall plainText signatures
  /\ match s with
     | ProviderNative =>
         plainText stamp
         /\ stringToNumber stamp <> Fin 0
         /\ signatureHeader s headers
            = VStr ("t=" ++ stamp ++ "," ++ versioned signatures)
     | BrokerStyle =>
         signatureHeader s headers = VStr (versioned signatures)
     | Standard =>
         signatureHeader s headers = VStr (versioned signatures)
         \/ (Forall (fun signature => Text.startsWith "v" signature = false)
               signatures
             /\ signatureHeader s headers = VStr (paired signatures))
     end.

(** What a callback so written offers under the convention: the
    timestamp (the one written in the signature header, or the one of
    the timestamp header), the signatures as candidates, the key (the
    secret itself, or the base64 text after its [whsec_] prefix,
    decoded) and the signed string; [None] when the timestamp is not a
    number or, under the broker-style and standard conventions, the
    delivery id or the timestamp is missing or the key is empty. *)
Definition offered (s : scheme) (rawBody : string) (headers : jsobj)
  (secret : string) (stamp : string) (signatures : list string)
  : option attempt :=
  match s with
  | ProviderNative =>
      let timestamp := stringToNumber stamp in
      _ ← guard (truthyNum timestamp);
      Some (mkAttempt timestamp signatures (utf8 secret)
              (numberToString timestamp ++ "." ++ rawBody) true)
  | BrokerStyle =>
      let timestampHeader :=
        Js.or (get headers "svix-timestamp")
          (Js.or (get headers "x-openai-timestamp")
             (get headers "openai-timestamp")) in
      let id := normaliseHeaderValue (get headers "svix-id") in
      let key := bufferFromBase64 (stripWhsec secret) in
      _ ← guard (truthy timestampHeader && truthy id
                 && isFinite (toNumber timestampHeader)
                 && negb (length key =? 0)%nat);
      Some (mkAttempt (toNumber timestampHeader) signatures key
              (toStr id ++ "." ++ toStr timestampHeader ++ "." ++ rawBody)
              false)
  | Standard =>
      let timestampHeader :=
        normaliseHeaderValue
          (normaliseSignatureHeader headers
             ["webhook-timestamp"; "svix-timestamp"; "x-openai-timestamp";
              "openai-timestamp"]) in
      let id := normaliseSignatureHeader headers ["webhook-id"] in
      _ ← guard (truthy timestampHeader && truthy id
                 && isFinite (toNumber timestampHeader));
      key ← deriveStandardSecretKey secret;
      Some (mkAttempt (toNumber timestampHeader) signatures key
              (toStr id ++ "." ++ toStr timestampHeader ++ "." ++ rawBody)
              true)
  end.

(** The convention accepts the callback: what it offers is recent and
    the digest over its signed string matches one of its signatures. *)
Definition acceptedAs (s : scheme) (nowMs : Z) (rawBody : string)
  (headers : jsobj) (secret : string) : Prop :=
  exists stamp signatures a,
    written s headers stamp signatures
    /\ offered s rawBody headers secret stamp signatures = Some a
    /\ within nowMs (timestamp a) /\ matched a.

(** What the callback offers under the convention is recent and matches
    none of its signatures. *)
Definition passedOverAs (s : scheme) (nowMs : Z) (rawBody : string)
  (headers : jsobj) (secret : string) : Prop :=
  exists stamp signatures a,
    written s headers stamp signatures
    /\ offered s rawBody headers secret stamp signatures = Some a
    /\ within nowMs (timestamp a) /\ ~ matched a.

(** The attempt the receiver makes for a convention. *)
Definition attemptOf (s : scheme) (nowMs : Z) (rawBody : string)
  (headers : jsobj) (secret : string) : string + bool :=
  match s with
  | ProviderNative =>
      verifyOpenAi nowMs rawBody (signatureHeader s headers) secret
  | BrokerStyle =>
      verifySvix nowMs rawBody headers (signatureHeader s headers) secret
  | Standard =>
      verifyStandard nowMs rawBody headers (signatureHeader s headers)
        (normaliseSignatureHeader headers ["webhook-id"]) secret
  end.

End Scheme.
End Scheme.

(** ** What the receiver logs ([src/webhooks/openaiWebhook.js]) *)

(** Before it verifies a callback, [unwrapWebhookEvent] logs the header
    set and the state of the secret, each through a masking helper. *)
Module Logging.
Section Logging.
Context {rt : NodeRuntime}.

Definition sensitivePatterns : list string :=
  ["signature"; "secret"; "authorization"; "token"; "key"; "auth"].

(** [sensitivePatterns.some((pattern) => lowerKey.includes(pattern))]. *)
Definition isSensitive (key : string) : bool :=
  existsb (fun pattern => Text.includes pattern (Text.toLowerCase key))
    sensitivePatterns.

(** What is logged for the value of a sensitive header. *)
Definition masked (headerValue : jsval) : string :=
  let value := toStr (Js.or headerValue (VStr "")) in
  if (8 <? Text.length16 value)%nat
  then Text.sliceTo16 4 value ++ "..." ++ Text.sliceLast16 4 value
  else if (0 <? Text.length16 value)%nat then "***"
  else "".

(** One entry per own key of [headers], under the same key. *)
Definition sanitizeHeadersForLogging (headers : jsobj) : jsobj :=
  map_imap (fun key value =>
              Some (if isSensitive key then VStr (masked value) else value))
           headers.

End Logging.
End Logging.

(** ** Error replies ([src/utils/errorHandler.js]) *)

Module ErrorHandler.

(** [ErrorHandler.handleOpenAIError(error)]: the first test that the
    message of the error passes decides the reply. *)
Definition handleOpenAIError (error : jsError) : jsval :=
  let text := message error in
  if Text.includes "limit reached" text then
    VObj (list_to_map
            [("success", VBool false);
             ("error", VStr text);
             ("userMessage", VStr text);
             ("retryable", VBool false)])
  else if Text.includes "401" text || Text.includes "authentication" text then
    VObj (list_to_map
            [("success", VBool false);
             ("error", VStr "API authentication failed");
             ("userMessage",
              VStr "Configuration error. Please contact your administrator.");
             ("retryable", VBool false)])
  else if Text.includes "429" text || Text.includes "rate limit" text then
    VObj (list_to_map
            [("success", VBool false);
             ("error", VStr "OpenAI rate limit exceeded");
             ("userMessage",
              VStr "Too many requests. Please wait a moment and try again.");
             ("retryable", VBool true);
             ("retryAfter", VNum 60000)])
  else if Text.includes "500" text || Text.includes "502" text
          || Text.includes "503" text then
    VObj (list_to_map
            [("success", VBool false);
             ("error", VStr "OpenAI service unavailable");
             ("userMessage",
              VStr ("The AI service is temporarily unavailable. "
                      ++ "Please try again in a few moments."));
             ("retryable", VBool true);
             ("retryAfter", VNum 5000)])
  else if Text.includes "timeout" text || Text.includes "ETIMEDOUT" text then
    VObj (list_to_map
            [("success", VBool false);
             ("error", VStr "Request timeout");
             ("userMessage",
              VStr "The request took too long. Please try again.");
             ("retryable", VBool true);
             ("retryAfter", VNum 1000)])
  else
    VObj (list_to_map
            [("success", VBool false);
             ("error", VStr text);
             ("userMessage",
              VStr "An unexpected error occurred. Please try again.");
             ("retryable", VBool true);
             ("retryAfter", VNum 1000)]).

Definition handleVectorSearchError (error : jsError) : jsval :=
  let text := message error in
  if Text.includes "not loaded" text then
    VObj (list_to_map
            [("success", VBool false);
             ("error", VStr "Knowledge base not initialized");
             ("userMessage",
              VStr ("The knowledge base is not ready. "
                      ++ "Please contact your administrator."));
             ("retryable", VBool false)])
  else
    VObj (list_to_map
            [("success", VBool false);
             ("error", VStr text);
             ("userMessage",
              VStr "Failed to search knowledge base. Please try again.");
             ("retryable", VBool true);
             ("retryAfter", VNum 1000)]).

Definition handleStorageError (error : jsError) : jsval :=
  VObj (list_to_map
          [("success", VBool false);
           ("error", VStr (message error));
           ("userMessage",
            VStr "Failed to access storage. Please try again.");
           ("retryable", VBool true);
           ("retryAfter", VNum 1000)]).

(** [ErrorHandler.handle(error, context = 'Operation')]. *)
Definition handle (error : jsError) (context : string) : jsval :=
  VObj (list_to_map
          [("success", VBool false);
           ("error", Js.or (VStr (message error)) (VStr "Unknown error"));
           ("userMessage", VStr (context ++ " failed. Please try again."));
           ("retryable", VBool true);
           ("retryAfter", VNum 1000)]).

End ErrorHandler.

(** ** Article enrichment ([src/services/resultPostProcessor.js]) *)

Module Articles.
Import JobStore.
Section Articles.
Context {rt : NodeRuntime}.

(** [v.slice(0, 480)]: strings and arrays have a [slice]. *)
Definition slice480 (v : jsval) : jsError + jsval :=
  match v with
  | VStr s => inr (VStr (Text.sliceTo16 480 s))
  | VArr l => inr (VArr (take 480 l))
  | _ => inl (TypeError "slice is not a function")
  end.

(** The entry made of a search result when the model named no article. *)
Definition fromSearchResult (result : jsval) : jsError + jsval :=
  match result with
  | VUndef | VNull => inl (TypeError "Cannot read properties of null")
  | _ =>
      let metadata := prop result "metadata" in
      contentSnippet ←
        slice480 (Js.or (prop metadata "content") (VStr ""));
      inr (VObj (list_to_map
                   [("title",
                     Js.or (prop metadata "title")
                       (VStr "Knowledge Base Article"));
                    ("link", Js.or (prop metadata "link") (VStr ""));
                    ("contentSnippet", contentSnippet)]))
  end.

(** [searchResults[index]]. *)
Definition element (searchResults : jsval) (index : nat) : jsError + jsval :=
  match searchResults with
  | VUndef | VNull => inl (TypeError "Cannot read properties of null")
  | VArr l => inr (nth index l VUndef)
  | VStr s => inr (nth index (units s) VUndef)
  | VObj o => inr (get o (pretty index))
  | _ => inr VUndef
  end.

(** The entry made of the article the model named at [index]. *)
Definition fromArticle (searchResults : jsval) (index : nat)
  (article : jsval) : jsError + jsval :=
  found ← element searchResults index;
  let fallback := Js.or (prop found "metadata") (VObj ∅) in
  match article with
  | VUndef | VNull => inl (TypeError "Cannot read properties of null")
  | _ =>
      contentSnippet ←
        (if truthy (prop article "contentSnippet")
         then inr (prop article "contentSnippet")
         else if truthy (prop article "content")
         then inr (prop article "content")
         else if truthy (prop fallback "content")
         then slice480 (prop fallback "content")
         else inr (VStr ""));
      inr (VObj (list_to_map
                   [("title",
                     Js.or (prop article "title")
                       (Js.or (prop fallback "title")
                          (VStr ("Article "
                                   ++ numberToString
                                        (Fin (Z.of_nat index + 1))))));
                    ("link",
                     Js.or (prop article "link")
                       (Js.or (prop fallback "link") (VStr "")));
                    ("contentSnippet", contentSnippet)]))
  end.

(** [articles.map((article, index) => ...)] from [index] on. *)
Fixpoint fromArticles (searchResults : jsval) (index : nat)
  (articles : list jsval) : jsError + list jsval :=
  match articles with
  | [] => inr []
  | article :: rest =>
      entry ← fromArticle searchResults index article;
      entries ← fromArticles searchResults (S index) rest;
      inr (entry :: entries)
  end.

Definition enrichArticles (articles searchResults : jsval)
  : jsError + jsval :=
  let articles := withDefault (VArr []) articles in
  let searchResults := withDefault (VArr []) searchResults in
  match articles with
  | VArr (article :: rest) =>
      entries ← fromArticles searchResults 0 (article :: rest);
      inr (VArr entries)
  | _ =>
      match searchResults with
      | VArr results =>
          entries ← mapE fromSearchResult results;
          inr (VArr entries)
      | _ => inl (TypeError "searchResults.map is not a function")
      end
  end.

End Articles.
End Articles.

(** ** Further sample inputs *)

Module Samples.

(** The fields of a new analysis job, with the default retention, and
    the same with a retention that is not a number. *)
Definition newJob : jsobj :=
  list_to_map
    [("jobId", VStr "resp_7");
     ("jobType", VStr "analysis");
     ("status", VStr "queued");
     ("promptLength", VNum 1200);
     ("systemPromptLength", VNum 80)].

Definition undatedJob : jsobj :=
  <["retentionDays" := VStr "a fortnight"]> newJob.

End Samples.

Module Requests.

(** A status or cancellation request for the job [jobId]. *)
Definition about (jobId : string) : jsval := VObj {[ "jobId" := VStr jobId ]}.

(** A provider that accepts every cancellation and answers [payload]. *)
Definition cancelling (payload : jsval) : environment :=
  mkEnvironment Examples.clock (fun _ => None)
    (fun _ => inl Examples.unavailable) (fun _ => inr payload)
    (inr VUndef) VUndef 10.

Definition cancelledArtifact : jsval :=
  VObj (list_to_map [("id", VStr "resp_1"); ("status", VStr "cancelled")]).

End Requests.

Module Stores.

(** A store holding an expired job, a job still within its retention and
    a value that is not a job record. *)
Definition mixedWorld : world :=
  mkWorld (list_to_map
             [("async-job:resp_a", Examples.expiredJob "resp_a");
              ("async-job:resp_1", Examples.jobRecord "resp_1" "completed" []);
              ("usage_daily_2023-11-14",
               VObj (list_to_map [("calls", VNum 3)]))]) [].

End Stores.

(** ** A well-keyed store *)

Module Sweep.
Section Sweep.
Context {rt : NodeRuntime} (env : environment).

(** Every expired record under the job prefix is stored under the key of
    its own [jobId], the key the sweep deletes for it. *)
Definition keyedByOwnId (store : gmap string jsval) : bool :=
  forallb (fun kv =>
             implb (Text.startsWith JobStore.JOB_KEY_PREFIX (fst kv)
                    && JobStore.isExpired env (snd kv))
                   (String.eqb (CleanupJobs.sweptKey (snd kv)) (fst kv)))
          (map_to_list store).

End Sweep.
End Sweep.

Module Deliveries.

(** A delivery under the standard convention whose signature is not the
    digest, and a context that carries no secret. *)
Definition forgedDelivery : inboundEvent :=
  Examples.standardDelivery "wh_1"
    "AAAAAAAAAAAAAAAAAAAAAAAAAAAAAAAAAAAAAAAAAAA=".





(** The headers of the first sample delivery with a provider-native
    signature header added whose timestamp is long past. *)
Definition staleNativeHeaders : jsobj :=
  <["x-openai-signature" := VStr "t=1600000000,v1=AAAA"]>
    (Webhook.normaliseHeaders (eventHeaders Examples.firstDelivery)).







End Deliveries.

Module Results.

(** Two articles named by the model, the second without a title, and the
    search result that stands behind the first. *)
Definition namedArticles : jsval :=
  VArr [VObj (list_to_map [("title", VStr "Roaming abroad")]);
        VObj (list_to_map [("link", VStr "https://kb.example/sim")])].

Definition searchResults : jsval :=
  VArr [VObj (list_to_map
                [("metadata",
                  VObj (list_to_map
                          [("title", VStr "Roaming");
                           ("link", VStr "https://kb.example/roaming");
                           ("content", VStr "Roaming is enabled by default.")]))])].

End Results.

(** * Properties *)

(** ** Text *)

Lemma unitsOf_le c : (Text.unitsOf c <= 2)%nat.
Proof.
  unfold Text.unitsOf.
  destruct (N_of_ascii c <? 128)%N, (N_of_ascii c <? 192)%N,
    (N_of_ascii c <? 240)%N; lia.
Qed.

Lemma unitsOf_lead (x : N) :
  (224 <= x < 240)%N -> Text.unitsOf (ascii_of_N x) = 1%nat.
Proof.
  intros Hx. unfold Text.unitsOf. rewrite N_ascii_embedding by lia.
  destruct (N.ltb_spec x 128); [lia|].
  destruct (N.ltb_spec x 192); [lia|].
  destruct (N.ltb_spec x 240); [done|lia].
Qed.

Lemma unitsOf_continuation (x : N) :
  (128 <= x < 192)%N -> Text.unitsOf (ascii_of_N x) = 0%nat.
Proof.
  intros Hx. unfold Text.unitsOf. rewrite N_ascii_embedding by lia.
  destruct (N.ltb_spec x 128); [lia|].
  destruct (N.ltb_spec x 192); [done|lia].
Qed.

(** A code unit from U+0800 on, written in three bytes, is one unit. *)
Lemma length16_threeBytes (u : N) :
  (u < 65536)%N -> Text.length16 (Text.threeBytes u) = 1%nat.
Proof.
  intros Hu. unfold Text.threeBytes. cbn [Text.length16].
  assert (Hhigh : (u / 4096 < 16)%N)
    by (apply N.Div0.div_lt_upper_bound; lia).
  assert (Hmid : ((u / 64) mod 64 < 64)%N) by (by apply N.mod_lt).
  assert (Hlow : (u mod 64 < 64)%N) by (by apply N.mod_lt).
  revert Hhigh Hmid Hlow.
  generalize (u / 4096)%N, ((u / 64) mod 64)%N, (u mod 64)%N.
  intros high mid low Hhigh Hmid Hlow.
  rewrite unitsOf_lead, !unitsOf_continuation by lia. reflexivity.
Qed.

Lemma scalar_bound c rest : (Text.scalar c rest < 2097152)%N.
Proof.
  unfold Text.scalar.
  assert (H3 : (N_of_ascii c mod 8 < 8)%N) by (by apply N.mod_lt).
  assert (H2 : (Text.byteAt 0 rest mod 64 < 64)%N) by (by apply N.mod_lt).
  assert (H1 : (Text.byteAt 1 rest mod 64 < 64)%N) by (by apply N.mod_lt).
  assert (H0 : (Text.byteAt 2 rest mod 64 < 64)%N) by (by apply N.mod_lt).
  revert H3 H2 H1 H0.
  generalize (N_of_ascii c mod 8)%N, (Text.byteAt 0 rest mod 64)%N,
    (Text.byteAt 1 rest mod 64)%N, (Text.byteAt 2 rest mod 64)%N.
  intros. lia.
Qed.

Lemma length16_highSurrogate c rest :
  Text.length16 (Text.threeBytes (Text.highSurrogate (Text.scalar c rest)))
  = 1%nat.
Proof.
  apply length16_threeBytes. unfold Text.highSurrogate.
  pose proof (scalar_bound c rest) as Hcp.
  assert (Hten : ((Text.scalar c rest - 65536) / 1024 < 10240)%N)
    by (apply N.Div0.div_lt_upper_bound; lia).
  revert Hten. generalize ((Text.scalar c rest - 65536) / 1024)%N.
  intros. lia.
Qed.

Lemma length16_lowSurrogate c rest :
  Text.length16 (Text.threeBytes (Text.lowSurrogate (Text.scalar c rest)))
  = 1%nat.
Proof.
  apply length16_threeBytes. unfold Text.lowSurrogate.
  assert (Hten : ((Text.scalar c rest - 65536) mod 1024 < 1024)%N)
    by (by apply N.mod_lt).
  revert Hten. generalize ((Text.scalar c rest - 65536) mod 1024)%N.
  intros. lia.
Qed.

Lemma length16_app (s t : string) :
  Text.length16 (s ++ t) = (Text.length16 s + Text.length16 t)%nat.
Proof. induction s as [|c s IH]; simpl; [done|]. rewrite IH. lia. Qed.

(** A cut at [n] code units keeps [n] of them, or all there are. *)
Lemma length16_sliceTo16 (n : nat) (s : string) :
  Text.length16 (Text.sliceTo16 n s) = Nat.min n (Text.length16 s).
Proof.
  revert n. induction s as [|c s IH]; intros n; [by destruct n|].
  cbn [Text.sliceTo16 Text.length16]. pose proof (unitsOf_le c) as Hc.
  destruct (Text.unitsOf c) as [|[|u]] eqn:Hunits.
  - cbn [Text.length16]. rewrite Hunits, IH. lia.
  - destruct n as [|n]; [done|].
    cbn [Text.length16]. rewrite Hunits, IH. lia.
  - destruct n as [|[|n]]; [done| |].
    + rewrite length16_highSurrogate. lia.
    + cbn [Text.length16]. rewrite Hunits, IH. lia.
Qed.

Lemma sliceTo16_all (n : nat) (s : string) :
  (Text.length16 s <= n)%nat -> Text.sliceTo16 n s = s.
Proof.
  revert n. induction s as [|c s IH]; intros n; [done|].
  cbn [Text.sliceTo16 Text.length16]. pose proof (unitsOf_le c) as Hc.
  destruct (Text.unitsOf c) as [|[|u]] eqn:Hunits; intros Hn.
  - by rewrite IH.
  - destruct n as [|n]; [lia|]. rewrite IH; [done|lia].
  - destruct n as [|[|n]]; [lia|lia|]. rewrite IH; [done|lia].
Qed.

Lemma length16_dropUnits (k : nat) (s : string) :
  Text.length16 (Text.dropUnits k s) = (Text.length16 s - k)%nat.
Proof.
  revert k. induction s as [|c s IH]; intros k; [done|].
  cbn [Text.dropUnits]. pose proof (unitsOf_le c) as Hc.
  destruct (Text.unitsOf c) as [|[|u]] eqn:Hunits.
  - rewrite IH. cbn [Text.length16]. rewrite Hunits. lia.
  - destruct k as [|k]; [lia|].
    rewrite IH. cbn [Text.length16]. rewrite Hunits. lia.
  - destruct k as [|[|k]]; [lia| |].
    + rewrite length16_app, length16_lowSurrogate, IH.
      cbn [Text.length16]. rewrite Hunits. lia.
    + rewrite IH. cbn [Text.length16]. rewrite Hunits. lia.
Qed.

Lemma length16_sliceLast16 (n : nat) (s : string) :
  Text.length16 (Text.sliceLast16 n s) = Nat.min n (Text.length16 s).
Proof.
  unfold Text.sliceLast16, Text.sliceFrom16.
  destruct (Text.length16 s - n)%nat as [|k] eqn:Hk; [lia|].
  rewrite length16_dropUnits. lia.
Qed.

(** *** Reversal, trimming, splitting *)

Lemma list_ascii_app (a b : string) :
  list_ascii_of_string (a ++ b)
  = (list_ascii_of_string a ++ list_ascii_of_string b)%list.
Proof. induction a as [|c a IH]; simpl; [done|]. by rewrite IH. Qed.

Lemma string_of_list_app (l k : list ascii) :
  string_of_list_ascii (l ++ k)
  = string_of_list_ascii l ++ string_of_list_ascii k.
Proof. induction l as [|c l IH]; simpl; [done|]. by rewrite IH. Qed.

Lemma length_string_of_list (l : list ascii) :
  String.length (string_of_list_ascii l) = length l.
Proof. induction l as [|c l IH]; simpl; [done|]. by rewrite IH. Qed.

Lemma length_list_of_string (s : string) :
  length (list_ascii_of_string s) = String.length s.
Proof. induction s as [|c s IH]; simpl; [done|]. by rewrite IH. Qed.

Lemma reverse_length (s : string) :
  String.length (Text.reverse s) = String.length s.
Proof.
  unfold Text.reverse.
  by rewrite length_string_of_list, length_rev, length_list_of_string.
Qed.

Lemma reverse_involutive (s : string) : Text.reverse (Text.reverse s) = s.
Proof.
  unfold Text.reverse.
  by rewrite list_ascii_of_string_of_list_ascii, rev_involutive,
    string_of_list_ascii_of_string.
Qed.

Lemma reverse_app (a b : string) :
  Text.reverse (a ++ b) = Text.reverse b ++ Text.reverse a.
Proof.
  unfold Text.reverse. by rewrite list_ascii_app, rev_app_distr,
    string_of_list_app.
Qed.

Lemma reverse_filled (s : string) : s <> "" -> Text.reverse s <> "".
Proof.
  intros Hs Hr. apply Hs.
  rewrite <- (reverse_involutive s), Hr. reflexivity.
Qed.

Lemma length_trimStart (s : string) :
  (String.length (Text.trimStart s) <= String.length s)%nat.
Proof.
  induction s as [|c s IH]; simpl; [done|].
  destruct (Text.isSpace c); simpl; lia.
Qed.

Lemma trimStart_whole (s : string) :
  String.length (Text.trimStart s) = String.length s ->
  Text.trimStart s = s.
Proof.
  destruct s as [|c s]; simpl; [done|].
  destruct (Text.isSpace c); [|done].
  pose proof (length_trimStart s). lia.
Qed.

Lemma length_trimEnd (s : string) :
  (String.length (Text.trimEnd s) <= String.length s)%nat.
Proof.
  unfold Text.trimEnd. rewrite reverse_length.
  pose proof (length_trimStart (Text.reverse s)) as H.
  by rewrite reverse_length in H.
Qed.

(** A string that trimming leaves alone has no blank at either end. *)
Lemma trim_parts (s : string) :
  Text.trim s = s -> Text.trimStart s = s /\ Text.trimEnd s = s.
Proof.
  unfold Text.trim. intros Htrim.
  assert (Hstart : Text.trimStart s = s).
  { apply trimStart_whole.
    pose proof (length_trimStart s).
    pose proof (length_trimEnd (Text.trimStart s)) as Hend.
    rewrite Htrim in Hend. lia. }
  split; [done|]. by rewrite Hstart in Htrim.
Qed.

Lemma trimStart_app (a b : string) :
  Text.trimStart a <> "" -> Text.trimStart (a ++ b) = Text.trimStart a ++ b.
Proof.
  induction a as [|c a IH]; simpl; [done|].
  destruct (Text.isSpace c); [exact IH|done].
Qed.

Lemma trimEnd_app (a b : string) :
  Text.trimEnd b = b -> b <> "" -> Text.trimEnd (a ++ b) = a ++ b.
Proof.
  unfold Text.trimEnd. intros Hend Hb.
  assert (Hrev : Text.trimStart (Text.reverse b) = Text.reverse b).
  { rewrite <- (reverse_involutive (Text.trimStart (Text.reverse b))).
    by rewrite Hend. }
  rewrite reverse_app, trimStart_app, Hrev.
  - by rewrite reverse_app, !reverse_involutive.
  - rewrite Hrev. by apply reverse_filled.
Qed.

(** Text that begins with a character other than a blank and ends with
    text that trimming leaves alone is left alone. *)
Lemma trim_prefixed (c : ascii) (a b : string) :
  Text.isSpace c = false -> Text.trim b = b -> b <> "" ->
  Text.trim (String c a ++ b) = String c a ++ b.
Proof.
  intros Hc Hb Hfilled. destruct (trim_parts b Hb) as [_ Hend].
  unfold Text.trim. simpl. rewrite Hc.
  exact (trimEnd_app (String c a) b Hend Hfilled).
Qed.

Lemma trim_filled (c : ascii) (s : string) :
  Text.isSpace c = false -> Text.nonEmpty (Text.trim (String c s)) = true.
Proof.
  intros Hc. unfold Text.trim, Text.nonEmpty. simpl. rewrite Hc.
  unfold Text.trimEnd.
  assert (Hfilled : Text.reverse (Text.trimStart (Text.reverse (String c s)))
                    <> "").
  { apply reverse_filled.
    change (String c s) with (String c "" ++ s).
    rewrite reverse_app.
    assert (Hrest : forall l,
      Text.trimStart (string_of_list_ascii (l ++ [c])) <> "").
    { induction l as [|d l IH]; simpl; [by rewrite Hc|].
      by destruct (Text.isSpace d). }
    unfold Text.reverse at 2. simpl.
    rewrite <- (string_of_list_ascii_of_string (Text.reverse s)).
    rewrite <- string_of_list_app with (k := [c]). apply Hrest. }
  by destruct (String.eqb_spec
                 (Text.reverse (Text.trimStart (Text.reverse (String c s))))
                 "").
Qed.

Lemma nonEmpty_filled (s : string) : Text.nonEmpty s = true <-> s <> "".
Proof.
  unfold Text.nonEmpty. by destruct (String.eqb_spec s ""); split.
Qed.

Lemma split_whole (sep : ascii) (s : string) :
  Text.indexOf sep s = None -> Text.split sep s = [s].
Proof.
  induction s as [|c s IH]; simpl; [done|].
  destruct (Ascii.eqb c sep); [done|].
  destruct (Text.indexOf sep s); [done|]. intros _. by rewrite IH.
Qed.

Lemma split_at (sep : ascii) (a b : string) :
  Text.indexOf sep a = None ->
  Text.split sep (a ++ String sep b) = a :: Text.split sep b.
Proof.
  induction a as [|c a IH]; simpl.
  - by rewrite Ascii.eqb_refl.
  - destruct (Ascii.eqb c sep); [done|].
    destruct (Text.indexOf sep a); [done|]. intros _. by rewrite IH.
Qed.

(** Parts without the separator are what splitting their join gives. *)
Lemma split_join (part : string) (parts : list string) :
  Forall (fun p => Text.indexOf "," p = None) (part :: parts) ->
  Text.split "," (Text.join "," (part :: parts)) = part :: parts.
Proof.
  revert part. induction parts as [|next parts IH]; intros part Hall.
  - apply split_whole. by inversion Hall.
  - inversion Hall as [|? ? Hpart Hrest]; subst.
    change (Text.join "," (part :: next :: parts))
      with (part ++ String "," (Text.join "," (next :: parts))).
    by rewrite split_at, IH.
Qed.

Lemma includes_equals (s : string) :
  Text.includes "=" s
  = match Text.indexOf "=" s with Some _ => true | None => false end.
Proof.
  unfold Text.includes. induction s as [|c s IH]; [reflexivity|].
  cbn [Text.indexOf index String.prefix].
  assert (Hempty : String.prefix "" s = true) by (by destruct s).
  rewrite Hempty.
  destruct (Ascii.eqb_spec c "=") as [->|Hc].
  - by destruct (ascii_dec "=" "=").
  - destruct (ascii_dec "=" c) as [<-|_]; [done|].
    destruct (Text.indexOf "=" s), (index 0 "=" s); simpl in *; done.
Qed.

Lemma substring_whole (s : string) : substring 0 (String.length s) s = s.
Proof. induction s as [|c s IH]; simpl; [done|]. by rewrite IH. Qed.

(** ** Values and handlers *)

Lemma safeClone_defined v :
  isDefined v = true -> exists c, safeClone v = Some c.
Proof. destruct v; simpl; try discriminate; eauto. Qed.

Lemma truthy_defined v : truthy v = true -> isDefined v = true.
Proof. by destruct v. Qed.

Lemma safeClone_falsy v :
  isDefined v = true -> truthy v = false -> safeClone v = Some v.
Proof. destruct v; simpl; try discriminate; eauto. Qed.

Lemma bind_returned {A B} (m : handler A) (f : A -> handler B) w a w' :
  m w = (Returned a, w') -> (m ≫= f) w = f a w'.
Proof. intros H. unfold mbind, handler_bind. by rewrite H. Qed.

Lemma ret_bind {A B} (a : A) (f : A -> handler B) w :
  (mret a ≫= f) w = f a w.
Proof. reflexivity. Qed.

Lemma bind_thrown {A B} (m : handler A) (f : A -> handler B) w e w' :
  m w = (Thrown e, w') -> (m ≫= f) w = (Thrown e, w').
Proof. intros H. unfold mbind, handler_bind. by rewrite H. Qed.

Section StorageFacts.
Context (env : environment).

Lemma storageGet_ok key w :
  storageFault env (StorageGet key) = None ->
  storageGet env key w =
    (Returned (default VUndef (storage w !! key)),
     mkWorld (storage w) (calls w ++ [StorageGet key])).
Proof.
  intros H. unfold storageGet, storageCall, record, modify, gets.
  unfold mbind, handler_bind. simpl. by rewrite H.
Qed.

Lemma storageGet_fault key w e :
  storageFault env (StorageGet key) = Some e ->
  storageGet env key w =
    (Thrown e, mkWorld (storage w) (calls w ++ [StorageGet key])).
Proof.
  intros H. unfold storageGet, storageCall, record, modify, gets.
  unfold mbind, handler_bind. simpl. by rewrite H.
Qed.

Lemma storageSet_ok key v w :
  storageFault env (StorageSet key v) = None ->
  storageSet env key v w =
    (Returned tt,
     mkWorld (<[key := v]> (storage w)) (calls w ++ [StorageSet key v])).
Proof.
  intros H. unfold storageSet, storageCall, record, modify, gets.
  unfold mbind, handler_bind. simpl. by rewrite H.
Qed.

Lemma storageSet_fault key v w e :
  storageFault env (StorageSet key v) = Some e ->
  storageSet env key v w =
    (Thrown e, mkWorld (storage w) (calls w ++ [StorageSet key v])).
Proof.
  intros H. unfold storageSet, storageCall, record, modify, gets.
  unfold mbind, handler_bind. simpl. by rewrite H.
Qed.

Lemma storageDelete_ok key w :
  storageFault env (StorageDelete key) = None ->
  storageDelete env key w =
    (Returned tt,
     mkWorld (delete key (storage w)) (calls w ++ [StorageDelete key])).
Proof.
  intros H. unfold storageDelete, storageCall, record, modify, gets.
  unfold mbind, handler_bind. simpl. by rewrite H.
Qed.

Lemma storageDelete_fault key w e :
  storageFault env (StorageDelete key) = Some e ->
  storageDelete env key w =
    (Thrown e, mkWorld (storage w) (calls w ++ [StorageDelete key])).
Proof.
  intros H. unfold storageDelete, storageCall, record, modify, gets.
  unfold mbind, handler_bind. simpl. by rewrite H.
Qed.

End StorageFacts.

(** ** The job store *)

Section JobStoreFacts.
Context {rt : NodeRuntime} (env : environment).
Import JobStore.

Lemma cloneField_run test updates k merged w :
  (forall v, test v = true -> isDefined v = true) ->
  cloneField test updates k merged w =
    (Returned (cloned test updates k merged), w).
Proof.
  intros Ht. unfold cloneField, cloned.
  destruct (test (get updates k)) eqn:E; [|reflexivity].
  destruct (safeClone_defined _ (Ht _ E)) as [c Hc].
  unfold safeCloneE. by rewrite Hc.
Qed.

(** What [updateJobRecord] does up to its write. *)
Lemma updateJobRecord_merge jobId updates w :
  let key := buildJobKey jobId in
  let existing :=
    Js.or (default VUndef (storage w !! key)) (VObj (shellRecord env jobId)) in
  storageFault env (StorageGet key) = None ->
  updateJobRecord env jobId updates w =
    (storageSet env key (VObj (mergedRecord env existing updates));;
     mret (VObj (mergedRecord env existing updates)))
      (mkWorld (storage w) (calls w ++ [StorageGet key])).
Proof.
  intros key existing Hg. unfold updateJobRecord.
  rewrite (bind_returned _ _ _ _ _ (storageGet_ok _ _ w Hg)).
  fold key. fold existing.
  rewrite (bind_returned _ _ _ _ _ (cloneField_run _ _ _ _ _ (fun v H => H))).
  rewrite (bind_returned _ _ _ _ _ (cloneField_run _ _ _ _ _ (fun v H => H))).
  rewrite (bind_returned _ _ _ _ _ (cloneField_run _ _ _ _ _ truthy_defined)).
  rewrite (bind_returned _ _ _ _ _ (cloneField_run _ _ _ _ _ truthy_defined)).
  unfold mergedRecord.
  destruct (truthy (get updates "auxiliaryData")) eqn:E; [|done].
  destruct (safeClone_defined _ (truthy_defined _ E)) as [c Hc].
  unfold safeCloneE. by rewrite Hc.
Qed.

Lemma updateJobRecord_run jobId updates w :
  let key := buildJobKey jobId in
  let existing :=
    Js.or (default VUndef (storage w !! key)) (VObj (shellRecord env jobId)) in
  let merged := mergedRecord env existing updates in
  storageFault env (StorageGet key) = None ->
  storageFault env (StorageSet key (VObj merged)) = None ->
  updateJobRecord env jobId updates w =
    (Returned (VObj merged),
     mkWorld (<[key := VObj merged]> (storage w))
       (calls w ++ [StorageGet key; StorageSet key (VObj merged)])).
Proof.
  intros key existing merged Hg Hs.
  rewrite updateJobRecord_merge by done.
  rewrite (bind_returned _ _ _ _ _ (storageSet_ok _ _ _ _ Hs)).
  simpl. by rewrite <- app_assoc.
Qed.

End JobStoreFacts.

Section UpdateContract.
Context {rt : NodeRuntime} (env : environment).
Import JobStore.

Lemma cloned_other test updates k merged j :
  j <> k -> cloned test updates k merged !! j = merged !! j.
Proof.
  intros Hne. unfold cloned. destruct (test _); [|done].
  by rewrite lookup_insert_ne.
Qed.

Lemma cloned_same test updates k merged :
  test (get updates k) = true ->
  cloned test updates k merged !! k
    = Some (default VNull (safeClone (get updates k))).
Proof. intros Ht. unfold cloned. rewrite Ht. by rewrite lookup_insert_eq. Qed.

Lemma cloned_skip test updates k merged :
  test (get updates k) = false -> cloned test updates k merged = merged.
Proof. intros Ht. unfold cloned. by rewrite Ht. Qed.


Lemma get_lookup (o : jsobj) k v : o !! k = Some v -> get o k = v.
Proof. intros H. unfold get. by rewrite H. Qed.

Lemma get_missing (o : jsobj) k : o !! k = None -> get o k = VUndef.
Proof. intros H. unfold get. by rewrite H. Qed.

(** The lookups of the merged record, field by field. *)
Lemma mergedRecord_updatedAt existing updates :
  mergedRecord env existing updates !! "updatedAt" = Some (VStr (nowIso env)).
Proof.
  unfold mergedRecord.
  destruct (truthy (get updates "auxiliaryData"));
    rewrite ?lookup_insert_ne by done;
    rewrite !cloned_other by done; by rewrite lookup_insert_eq.
Qed.

Lemma mergedRecord_status existing updates :
  mergedRecord env existing updates !! "status"
    = Some (Js.or (get updates "status") (prop existing "status")).
Proof.
  unfold mergedRecord.
  destruct (truthy (get updates "auxiliaryData"));
    rewrite ?lookup_insert_ne by done;
    rewrite !cloned_other by done;
    rewrite lookup_insert_ne by done; by rewrite lookup_insert_eq.
Qed.

Lemma mergedRecord_plain existing updates k :
  k ∉ ["updatedAt"; "status"; "result"; "error"; "llmCharacters";
       "vectorStats"; "auxiliaryData"] ->
  mergedRecord env existing updates !! k = (updates ∪ spread existing) !! k.
Proof.
  rewrite !not_elem_of_cons. intros (?&?&?&?&?&?&?&_).
  unfold mergedRecord.
  destruct (truthy (get updates "auxiliaryData"));
    rewrite ?lookup_insert_ne by done;
    rewrite !cloned_other by done; by rewrite !lookup_insert_ne by done.
Qed.

Lemma mergedRecord_kept existing updates k :
  updates !! k = None -> k ∉ ["updatedAt"; "status"] ->
  mergedRecord env existing updates !! k = spread existing !! k.
Proof.
  rewrite !not_elem_of_cons. intros Hk (?&?&_).
  assert (Hu : get updates k = VUndef) by by apply get_missing.
  assert (Hbase :
    (<["updatedAt" := VStr (nowIso env)]>
       (<["status" := Js.or (get updates "status") (prop existing "status")]>
          (updates ∪ spread existing)) : jsobj) !! k = spread existing !! k).
  { rewrite !lookup_insert_ne by done.
    rewrite lookup_union_r; done. }
  assert (Hc : forall test j (m : jsobj),
             test VUndef = false -> cloned test updates j m !! k = m !! k).
  { intros test j m Ht. destruct (decide (k = j)) as [->|Hne].
    - rewrite cloned_skip; [done|]. by rewrite Hu.
    - by apply cloned_other. }
  unfold mergedRecord.
  destruct (truthy (get updates "auxiliaryData")) eqn:E.
  - destruct (decide (k = "auxiliaryData")) as [->|Hne].
    + rewrite Hu in E. discriminate.
    + rewrite lookup_insert_ne by done. by rewrite !Hc.
  - by rewrite !Hc.
Qed.

Lemma mergedRecord_deep existing updates k v :
  k ∈ ["result"; "error"; "llmCharacters"; "vectorStats"] ->
  updates !! k = Some v -> v <> VUndef ->
  exists copy,
    safeClone v = Some copy
    /\ mergedRecord env existing updates !! k = Some copy.
Proof.
  intros Hk Hu Hv.
  assert (Hd : isDefined v = true) by by destruct v.
  destruct (safeClone_defined v Hd) as [copy Hcopy].
  exists copy. split; [done|].
  assert (Hg : get updates k = v) by by apply get_lookup.
  assert (Hfalsy : truthy v = false -> v = copy).
  { intros Hf. rewrite (safeClone_falsy v Hd Hf) in Hcopy. congruence. }
  unfold mergedRecord.
  rewrite !elem_of_cons in Hk.
  destruct Hk as [->|[->|[->|[->|Hk]]]]; [| | | |by inversion Hk].
  all: destruct (truthy (get updates "auxiliaryData"));
    rewrite ?lookup_insert_ne by done.
  1-4: rewrite !cloned_other by done;
    rewrite cloned_same by (by rewrite Hg); by rewrite Hg, Hcopy.
  1-2: rewrite !cloned_other by done.
  all: destruct (truthy v) eqn:Et;
    [ rewrite cloned_same by (by rewrite Hg); by rewrite Hg, Hcopy
    | rewrite cloned_skip by (by rewrite Hg);
      rewrite !cloned_other by done;
      rewrite !lookup_insert_ne by done;
      rewrite (lookup_union_Some_l _ _ _ _ Hu);
      by rewrite (Hfalsy eq_refl) ].
Qed.


End UpdateContract.

Section UpdateTheorem.
Context {rt : NodeRuntime} (env : environment).
Import JobStore.


End UpdateTheorem.


(** ** Job creation *)


Lemma liftE_inl {A} (r : jsError + A) e w :
  r = inl e -> liftE r w = (Thrown e, w).
Proof. by intros ->. Qed.

Section CreationFacts.
Context {rt : NodeRuntime} (env : environment).
Import JobStore.

Lemma cloneOrNull_ok v : exists c, cloneOrNull v = inr c.
Proof.
  unfold cloneOrNull. destruct (truthy v) eqn:E; [|eauto].
  destruct (safeClone_defined _ (truthy_defined _ E)) as [c Hc].
  unfold safeCloneE. rewrite Hc. eauto.
Qed.





End CreationFacts.

Section CreationTheorem.
Context {rt : NodeRuntime} (env : environment).
Import JobStore.





End CreationTheorem.



(** ** Cancellation and status query *)

Section ProviderFacts.
Context (env : environment).

Lemma providerCancel_run jobId w :
  providerCancel env jobId w =
    (match cancelCompletion env jobId with
     | inl e => Thrown e
     | inr a => Returned a
     end,
     mkWorld (storage w) (calls w ++ [CancelCompletion jobId])).
Proof.
  unfold providerCancel, record, modify, mbind, handler_bind. simpl.
  by destruct (cancelCompletion env jobId).
Qed.

Lemma providerRetrieve_run jobId w :
  providerRetrieve env jobId w =
    (match retrieveCompletion env jobId with
     | inl e => Thrown e
     | inr a => Returned a
     end,
     mkWorld (storage w) (calls w ++ [RetrieveCompletion jobId])).
Proof.
  unfold providerRetrieve, record, modify, mbind, handler_bind. simpl.
  by destruct (retrieveCompletion env jobId).
Qed.

Lemma publishAppEvent_run key w :
  publishAppEvent key w =
    (Returned tt, mkWorld (storage w) (calls w ++ [PublishAppEvent key])).
Proof. reflexivity. Qed.

Lemma storageGet_cases key w :
  storageGet env key w =
    (match storageFault env (StorageGet key) with
     | Some e => Thrown e
     | None => Returned (default VUndef (storage w !! key))
     end,
     mkWorld (storage w) (calls w ++ [StorageGet key])).
Proof.
  destruct (storageFault env (StorageGet key)) eqn:E.
  - by apply storageGet_fault.
  - by apply storageGet_ok.
Qed.

Lemma storageSet_cases key v w :
  storageSet env key v w =
    (match storageFault env (StorageSet key v) with
     | Some e => Thrown e
     | None => Returned tt
     end,
     mkWorld (match storageFault env (StorageSet key v) with
              | Some _ => storage w
              | None => <[key := v]> (storage w)
              end) (calls w ++ [StorageSet key v])).
Proof.
  destruct (storageFault env (StorageSet key v)) eqn:E.
  - by apply storageSet_fault.
  - by apply storageSet_ok.
Qed.

End ProviderFacts.

Section UpdateCases.
Context {rt : NodeRuntime} (env : environment).
Import JobStore.

(** Whatever the storage does, [updateJobRecord] either writes the merged
    record under the job's key and returns it, or throws and leaves the
    storage as it was. *)
Lemma updateJobRecord_cases jobId updates w :
  let key := buildJobKey jobId in
  let existing :=
    Js.or (default VUndef (storage w !! key)) (VObj (shellRecord env jobId)) in
  let merged := mergedRecord env existing updates in
  (updateJobRecord env jobId updates w =
     (Returned (VObj merged),
      mkWorld (<[key := VObj merged]> (storage w))
        (calls w ++ [StorageGet key; StorageSet key (VObj merged)])))
  \/ (exists e trail,
        updateJobRecord env jobId updates w =
          (Thrown e, mkWorld (storage w) (calls w ++ trail))).
Proof.
  intros key existing merged.
  destruct (storageFault env (StorageGet key)) as [e|] eqn:Hg.
  - right. exists e, [StorageGet key]. unfold updateJobRecord.
    by rewrite (bind_thrown _ _ _ _ _ (storageGet_fault _ _ w _ Hg)).
  - destruct (storageFault env (StorageSet key (VObj merged))) as [e|] eqn:Hs.
    + right. exists e, [StorageGet key; StorageSet key (VObj merged)].
      rewrite updateJobRecord_merge by done.
      rewrite (bind_thrown _ _ _ _ _ (storageSet_fault _ _ _ _ _ Hs)).
      simpl. by rewrite <- app_assoc.
    + left. by apply updateJobRecord_run.
Qed.

End UpdateCases.

Section HandlerFacts.
Context {rt : NodeRuntime} (env : environment).
Import JobStore Handlers.

Lemma isFinal_truthy record :
  isFinal (prop record "status") = true -> truthy record = true.
Proof. by destruct record. Qed.

Lemma isFinal_cancelled : isFinal (VStr JobStatus.CANCELLED) = true.
Proof. reflexivity. Qed.

Lemma cancelJob_final payload w record :
  let jobId := prop payload "jobId" in
  let key := buildJobKey jobId in
  truthy jobId = true ->
  storageFault env (StorageGet key) = None ->
  storage w !! key = Some record ->
  isFinal (prop record "status") = true ->
  cancelJob env payload w =
    (Returned (settledReply record),
     mkWorld (storage w) (calls w ++ [StorageGet key])).
Proof.
  intros jobId key Hid Hget Hrec Hfinal. unfold cancelJob.
  fold jobId. rewrite Hid. simpl.
  unfold getJobRecord. fold key.
  rewrite (bind_returned _ _ _ _ _ (storageGet_ok _ _ w Hget)).
  rewrite Hrec. simpl. rewrite (isFinal_truthy _ Hfinal). simpl.
  by rewrite Hfinal.
Qed.

End HandlerFacts.

Section CancelTwice.
Context {rt : NodeRuntime} (env : environment).
Import JobStore Handlers.

(** After a cancellation that reports success, the job is settled. *)
Lemma cancelJob_settles payload w reply w1 :
  let jobId := prop payload "jobId" in
  let key := buildJobKey jobId in
  cancelJob env payload w = (Returned reply, w1) ->
  prop reply "success" = VBool true ->
  truthy jobId = true
  /\ storageFault env (StorageGet key) = None
  /\ exists record,
       storage w1 !! key = Some record
       /\ isFinal (prop record "status") = true.
Proof.
  intros jobId key Hrun Hok. unfold cancelJob in Hrun. fold jobId in Hrun.
  destruct (truthy jobId) eqn:Hid; simpl in Hrun.
  2:{ injection Hrun as <- <-. discriminate. }
  split; [done|].
  unfold getJobRecord in Hrun. fold key in Hrun.
  unfold mbind at 1, handler_bind at 1 in Hrun.
  rewrite storageGet_cases in Hrun.
  destruct (storageFault env (StorageGet key)) as [e|] eqn:Hget; [done|].
  split; [done|].
  destruct (storage w !! key) as [record|] eqn:Hrec; simpl in Hrun.
  2:{ injection Hrun as <- <-. discriminate. }
  destruct (truthy record) eqn:Htruthy; simpl in Hrun.
  2:{ injection Hrun as <- <-. discriminate. }
  destruct (isFinal (prop record "status")) eqn:Hfinal.
  { injection Hrun as <- <-. exists record. by split. }
  unfold mbind at 1, handler_bind at 1 in Hrun.
  rewrite providerCancel_run in Hrun.
  destruct (cancelCompletion env jobId) as [e|cancelResponse]; [done|].
  cbn [storage calls] in Hrun.
  unfold mbind at 1, handler_bind at 1 in Hrun.
  destruct (updateJobRecord_cases env jobId (cancellation cancelResponse)
              (mkWorld (storage w)
                 ((calls w ++ [StorageGet key])
                    ++ [CancelCompletion jobId])))
    as [Hup|(e & trail & Hup)]; rewrite Hup in Hrun; [|done].
  cbn [storage calls mbind handler_bind mret handler_ret] in Hrun.
  rewrite (bind_returned _ _ _ _ _ (publishAppEvent_run _ _)) in Hrun.
  injection Hrun as <- <-. cbn [storage].
  eexists. split; [by rewrite lookup_insert_eq|].
  unfold prop, get. by rewrite mergedRecord_status.
Qed.

End CancelTwice.

Section CancelTheorem.
Context {rt : NodeRuntime} (env : environment).
Import JobStore Handlers.

Lemma isFinal_spec status :
  isFinal status = true
  <-> status ∈ [VStr "completed"; VStr "failed"; VStr "cancelled"].
Proof.
  rewrite !elem_of_cons, elem_of_nil. unfold isFinal, FINAL_STATUSES. simpl.
  split.
  - destruct status as [| |b|n|s|l|o]; simpl; try discriminate.
    rewrite !orb_true_iff. intros [H|[H|[H|H]]]; try discriminate;
      apply String.eqb_eq in H; subst; auto.
  - intros [->|[->|[->|[]]]]; reflexivity.
Qed.

Lemma settledReply_fields record status :
  prop record "status" = VStr status ->
  exists reply : jsobj,
    settledReply record = VObj reply
    /\ reply !! "success" = Some (VBool true)
    /\ reply !! "job" = Some record
    /\ reply !! "message"
       = Some (VStr ("Job already settled with status " ++ status ++ ".")).
Proof.
  intros Hstatus. unfold settledReply. rewrite Hstatus. cbn [toStr].
  eexists. split; [reflexivity|]. by repeat split.
Qed.

Lemma final_status status :
  status ∈ [VStr "completed"; VStr "failed"; VStr "cancelled"] ->
  exists name,
    status = VStr name /\ name ∈ ["completed"; "failed"; "cancelled"].
Proof.
  rewrite !elem_of_cons, elem_of_nil.
  intros [->|[->|[->|[]]]]; eexists; (split; [reflexivity|]);
    rewrite !elem_of_cons; auto.
Qed.

(** C6. A cancellation request for a job whose status is already
    [completed], [failed] or [cancelled] returns a reply whose [success]
    is [true], whose [job] is the stored record and whose [message]
    names the status; it only reads the record: the provider is not
    called and the storage is left as it was. Hence after a cancellation
    that reported success, cancelling the same job again returns such a
    reply with the stored record, calls nothing but the read, and
    changes nothing. *)
Theorem cancelJob_idempotent :
  (forall payload w record,
     let jobId := prop payload "jobId" in
     let key := buildJobKey jobId in
     truthy jobId = true ->
     storageFault env (StorageGet key) = None ->
     storage w !! key = Some record ->
     prop record "status"
       ∈ [VStr "completed"; VStr "failed"; VStr "cancelled"] ->
     exists (reply : jsobj) (status : string),
       cancelJob env payload w =
         (Returned (VObj reply),
          mkWorld (storage w) (calls w ++ [StorageGet key]))
       /\ prop record "status" = VStr status
       /\ reply !! "success" = Some (VBool true)
       /\ reply !! "job" = Some record
       /\ reply !! "message"
          = Some (VStr ("Job already settled with status "
                          ++ status ++ ".")))
  /\ (forall payload w reply w1,
        let key := buildJobKey (prop payload "jobId") in
        cancelJob env payload w = (Returned reply, w1) ->
        prop reply "success" = VBool true ->
        exists record (again : jsobj) (status : string),
          storage w1 !! key = Some record
          /\ cancelJob env payload w1 =
               (Returned (VObj again),
                mkWorld (storage w1) (calls w1 ++ [StorageGet key]))
          /\ prop record "status" = VStr status
          /\ status ∈ ["completed"; "failed"; "cancelled"]
          /\ again !! "success" = Some (VBool true)
          /\ again !! "job" = Some record
          /\ again !! "message"
             = Some (VStr ("Job already settled with status "
                             ++ status ++ "."))).
Proof.
  split.
  - intros payload w record jobId key Hid Hget Hrec Hfinal.
    destruct (final_status _ Hfinal) as (status & Hstatus & _).
    destruct (settledReply_fields record status Hstatus)
      as (reply & Hreply & Hfields).
    exists reply, status. rewrite <- Hreply.
    split; [|by split].
    apply cancelJob_final; try done. by apply isFinal_spec.
  - intros payload w reply w1 key Hrun Hok.
    destruct (cancelJob_settles env payload w reply w1 Hrun Hok)
      as (Hid & Hget & record & Hrec & Hfinal).
    destruct (final_status _ (proj1 (isFinal_spec _) Hfinal))
      as (status & Hstatus & Hname).
    destruct (settledReply_fields record status Hstatus)
      as (again & Hreply & Hfields).
    exists record, again, status. rewrite <- Hreply.
    split; [done|]. split; [by apply cancelJob_final|].
    split; [done|]. by split.
Qed.

Lemma sanitise_strips record :
  prop (sanitise record) "processedWebhookIds" = VUndef.
Proof. unfold sanitise, prop, get. by rewrite lookup_delete_eq. Qed.

(** The status query never returns the ledger. *)
Lemma getJobStatus_strips payload w reply w' :
  getJobStatus env payload w = (Returned reply, w') ->
  prop (prop reply "job") "processedWebhookIds" = VUndef.
Proof.
  unfold getJobStatus. destruct (truthy (prop payload "jobId")); simpl.
  2:{ intros [= <- <-]. reflexivity. }
  unfold getJobRecord, mbind at 1, handler_bind at 1.
  rewrite storageGet_cases.
  destruct (storageFault env _); [done|].
  destruct (truthy (default VUndef _)); simpl.
  - intros [= <- <-]. apply sanitise_strips.
  - intros [= <- <-]. reflexivity.
Qed.

End CancelTheorem.

Lemma cancelJob_idempotent_witness :
  storage Examples.settledWorld
    !! JobStore.buildJobKey (rt := Ref.runtime)
         (prop Examples.cancelPayload "jobId")
    = Some Examples.settledRecord
  /\ exists (reply : jsobj) (status : string),
       Handlers.cancelJob (rt := Ref.runtime) Examples.quiet
         Examples.cancelPayload Examples.settledWorld
       = (Returned (VObj reply),
          mkWorld (storage Examples.settledWorld)
            (calls Examples.settledWorld
               ++ [StorageGet
                     (JobStore.buildJobKey (rt := Ref.runtime)
                        (prop Examples.cancelPayload "jobId"))]))
       /\ prop Examples.settledRecord "status" = VStr status
       /\ reply !! "success" = Some (VBool true)
       /\ reply !! "job" = Some Examples.settledRecord
       /\ reply !! "message"
          = Some (VStr ("Job already settled with status "
                          ++ status ++ ".")).
Proof.
  split; [reflexivity|].
  apply (proj1 (cancelJob_idempotent (rt := Ref.runtime) Examples.quiet)
           Examples.cancelPayload Examples.settledWorld
           Examples.settledRecord).
  - reflexivity.
  - reflexivity.
  - reflexivity.
  - left.
Defined.

(** C5 fails on the settled path: the record [cancelJob] returns for a job
    that is already completed still carries [processedWebhookIds]. *)
Lemma cancelJob_settled_returns_ledger :
  exists reply,
    fst (Handlers.cancelJob (rt := Ref.runtime) Examples.quiet
           Examples.cancelPayload Examples.settledWorld)
      = Returned reply
    /\ prop reply "success" = VBool true
    /\ prop (prop reply "job") "processedWebhookIds" = VArr [VStr "wh_1"].
Proof. eexists. split; [reflexivity|]. split; reflexivity. Qed.

(** ** The retention sweep *)

Section SweepFacts.
Context {rt : NodeRuntime} (env : environment).
Import JobStore CleanupJobs.

Lemma storageCall_storage c w out w' :
  storageCall env c w = (out, w') -> storage w' = storage w.
Proof.
  unfold storageCall, record, modify, mbind, handler_bind. simpl.
  destruct (storageFault env c); by intros [= <- <-].
Qed.

Lemma scanPages_storage pages page expired w out w' :
  scanPages env pages page expired w = (out, w') -> storage w' = storage w.
Proof.
  revert page expired w. induction pages as [|results rest IH]; simpl.
  - by intros page expired w [= <- <-].
  - intros page expired w. unfold mbind at 1, handler_bind at 1.
    destruct (storageCall env _ w) as [[[]|e] w0] eqn:Hcall.
    + intros H. apply IH in H. rewrite H. by eapply storageCall_storage.
    + intros [= <- <-]. by eapply storageCall_storage.
Qed.

Lemma listExpiredJobs_storage w out w' :
  listExpiredJobs env w = (out, w') -> storage w' = storage w.
Proof.
  unfold listExpiredJobs, gets, mbind at 1, handler_bind at 1.
  apply scanPages_storage.
Qed.

Lemma deleteAll_ok jobs deleted w :
  Forall (fun job => storageFault env (StorageDelete (sweptKey job)) = None)
    jobs ->
  deleteAll env jobs deleted w =
    (Returned (deleted + length jobs)%nat,
     mkWorld (pruned jobs (storage w))
       (calls w ++ map (fun job => StorageDelete (sweptKey job)) jobs)).
Proof.
  intros Hok. revert deleted w.
  induction Hok as [|job jobs Hjob _ IH]; intros deleted w; simpl.
  - rewrite Nat.add_0_r, app_nil_r. by destruct w.
  - unfold deleteJobRecord.
    rewrite (bind_returned _ _ _ _ _ (storageDelete_ok _ _ _ Hjob)).
    rewrite IH. simpl. f_equal; [f_equal; lia|].
    by rewrite <- app_assoc.
Qed.

Lemma deleteAll_fault before job after e deleted w :
  Forall (fun job => storageFault env (StorageDelete (sweptKey job)) = None)
    before ->
  storageFault env (StorageDelete (sweptKey job)) = Some e ->
  deleteAll env (before ++ job :: after) deleted w =
    (Thrown e,
     mkWorld (pruned before (storage w))
       (calls w
          ++ map (fun job => StorageDelete (sweptKey job)) (before ++ [job]))).
Proof.
  intros Hok Hfault. revert deleted w.
  induction Hok as [|first before Hfirst _ IH]; intros deleted w; simpl.
  - unfold deleteJobRecord.
    by rewrite (bind_thrown _ _ _ _ _ (storageDelete_fault _ _ _ _ Hfault)).
  - unfold deleteJobRecord.
    rewrite (bind_returned _ _ _ _ _ (storageDelete_ok _ _ _ Hfirst)).
    rewrite IH. simpl. by rewrite <- app_assoc.
Qed.

End SweepFacts.

Section SweepTheorem.
Context {rt : NodeRuntime} (env : environment).
Import JobStore CleanupJobs.

(** C7, as the code has it. The sweep deletes the expired jobs one after
    the other. When no deletion fails it returns a success result whose
    count is the number of expired jobs, all of them deleted. When the
    deletion of one job fails, the run fails with that error: the jobs
    listed before it are deleted, and neither it nor the jobs listed after
    it are. *)
Theorem sweep_stops_at_first_failure (w w1 : world) (jobs : list jsval) :
  listExpiredJobs env w = (Returned jobs, w1) ->
  (Forall (fun job => storageFault env (StorageDelete (sweptKey job)) = None)
     jobs ->
   exists message,
     run env w =
       (Returned (sweepReply (length jobs) message),
        mkWorld (pruned jobs (storage w))
          (calls w1 ++ map (fun job => StorageDelete (sweptKey job)) jobs)))
  /\ (forall before job after e,
        jobs = (before ++ job :: after)%list ->
        Forall (fun job =>
                  storageFault env (StorageDelete (sweptKey job)) = None)
          before ->
        storageFault env (StorageDelete (sweptKey job)) = Some e ->
        run env w =
          (Thrown e,
           mkWorld (pruned before (storage w))
             (calls w1
                ++ map (fun job => StorageDelete (sweptKey job))
                     (before ++ [job])))).
Proof.
  intros Hlist.
  assert (Hstore : storage w1 = storage w)
    by by eapply listExpiredJobs_storage.
  split.
  - intros Hok. unfold run. rewrite (bind_returned _ _ _ _ _ Hlist).
    destruct jobs as [|job jobs]; simpl.
    + eexists. rewrite app_nil_r. destruct w1; simpl in *. by subst.
    + rewrite (bind_returned _ _ _ _ _
                 (deleteAll_ok env (job :: jobs) 0 w1 Hok)).
      eexists. simpl. by rewrite Hstore.
  - intros before job after e -> Hok Hfault. unfold run.
    rewrite (bind_returned _ _ _ _ _ Hlist).
    destruct before; simpl;
      rewrite (bind_thrown _ _ _ _ _
                 (deleteAll_fault env _ job after e 0 w1 Hok Hfault));
      simpl; by rewrite Hstore.
Qed.

End SweepTheorem.

Lemma sweep_stops_at_first_failure_witness :
  Forall (fun job =>
            storageFault Examples.quiet
              (StorageDelete (CleanupJobs.sweptKey (rt := Ref.runtime) job))
              = None)
    [Examples.expiredJob "resp_a"; Examples.expiredJob "resp_b"]
  /\ exists message,
       CleanupJobs.run (rt := Ref.runtime) Examples.quiet Examples.staleWorld
         = (Returned (CleanupJobs.sweepReply 2 message),
            mkWorld ∅
              [StorageQuery "async-job:" 0;
               StorageDelete "async-job:resp_a";
               StorageDelete "async-job:resp_b"]).
Proof.
  assert (Hok :
    Forall (fun job =>
              storageFault Examples.quiet
                (StorageDelete (CleanupJobs.sweptKey (rt := Ref.runtime) job))
                = None)
      [Examples.expiredJob "resp_a"; Examples.expiredJob "resp_b"]).
  { by repeat constructor. }
  split; [exact Hok|].
  destruct (proj1 (sweep_stops_at_first_failure (rt := Ref.runtime)
                     Examples.quiet Examples.staleWorld
                     (mkWorld (storage Examples.staleWorld)
                        [StorageQuery "async-job:" 0])
                     [Examples.expiredJob "resp_a";
                      Examples.expiredJob "resp_b"]
                     eq_refl) Hok) as [message Hrun].
  exists message. rewrite Hrun. reflexivity.
Defined.

(** C7 as stated fails: when the record of the first of two expired jobs
    cannot be deleted, the run throws instead of returning a success
    result, and the second job, whose deletion would not fail, is still
    in storage. *)
Lemma sweep_fails_as_a_whole :
  fst (CleanupJobs.run (rt := Ref.runtime)
         (Examples.stuck "async-job:resp_a") Examples.staleWorld)
    = Thrown Examples.storageDown
  /\ storage
       (snd (CleanupJobs.run (rt := Ref.runtime)
               (Examples.stuck "async-job:resp_a") Examples.staleWorld))
     !! "async-job:resp_b" = Some (Examples.expiredJob "resp_b")
  /\ storageFault (Examples.stuck "async-job:resp_a")
       (StorageDelete "async-job:resp_b") = None.
Proof. repeat split; vm_compute; reflexivity. Qed.

(** ** The signature verifier *)

Section ParserFacts.
Context {rt : NodeRuntime}.
Import Verifier.

Lemma keyValue_filled part key value :
  keyValue part = Some (key, value) -> filled value.
Proof.
  unfold keyValue. destruct (Text.indexOf _ part); [|done].
  destruct (Text.nonEmpty _ && Text.nonEmpty _) eqn:E; [|done].
  intros [= <- <-]. by apply andb_true_iff in E as [_ E].
Qed.

Lemma openAiStep_filled acc part :
  Forall filled (snd acc) -> Forall filled (snd (openAiStep acc part)).
Proof.
  intros Hacc. unfold openAiStep.
  destruct (keyValue part) as [[key value]|] eqn:E; [|done].
  destruct (String.eqb key "t"); [done|].
  destruct (Text.startsWith "v" key); [|done].
  simpl. apply Forall_app. split; [done|].
  repeat constructor. by eapply keyValue_filled.
Qed.

Lemma parseOpenAiSignature_filled header timestamp signatures :
  parseOpenAiSignature header = Some (timestamp, signatures) ->
  truthyNum timestamp = true /\ Forall filled signatures.
Proof.
  unfold parseOpenAiSignature. destruct (headerText header) as [s|]; [|done].
  assert (Hfold : forall parts acc,
            Forall filled (snd acc) ->
            Forall filled (snd (fold_left openAiStep parts acc))).
  { induction parts as [|part parts IH]; intros acc Hacc; simpl; [done|].
    apply IH. by apply openAiStep_filled. }
  specialize (Hfold (map Text.trim (Text.split "," s)) (None, [])
                (Forall_nil_2 _)).
  destruct (fold_left _ _ _) as [[t|] sigs]; [|done].
  destruct (truthyNum t && _) eqn:E; [|done].
  intros [= <- <-]. by apply andb_true_iff in E as [E _].
Qed.

Lemma standardLoop_filled segments : Forall filled (standardLoop segments).
Proof.
  assert (H : forall n segments,
            (length segments <= n)%nat -> Forall filled (standardLoop segments)).
  { clear segments. induction n as [|n IH]; intros [|segment rest] Hlen;
      simpl in *; try done; try lia.
    assert (Hrest : Forall filled (standardLoop rest)) by (apply IH; lia).
    destruct (negb (Text.nonEmpty segment)); [done|].
    destruct (Text.includes "=" segment).
    { destruct (Text.indexOf "=" segment); [|done].
      destruct (_ && Text.nonEmpty _) eqn:E; [|done].
      constructor; [|done]. by apply andb_true_iff in E as [_ E]. }
    destruct (Text.startsWith "v" segment); [|done].
    destruct rest as [|next rest']; [done|].
    destruct (Text.nonEmpty next && _) eqn:E; [|done].
    constructor.
    - by apply andb_true_iff in E as [E _].
    - apply IH. simpl in Hlen. lia. }
  by apply (H (length segments)).
Qed.

Lemma parseStandardSignature_filled header signatures :
  parseStandardSignature header = Some signatures -> Forall filled signatures.
Proof.
  unfold parseStandardSignature. destruct (headerText header); [|done].
  destruct (length _ =? 0)%nat; [done|].
  destruct (length (standardLoop _) =? 0)%nat; [done|].
  intros [= <-]. apply standardLoop_filled.
Qed.

End ParserFacts.

Section MatchingFacts.
Context {rt : NodeRuntime}.
Import Verifier Scheme.

Lemma timingSafeEqual_spec a b : timingSafeEqual a b = true <-> a = b.
Proof. unfold timingSafeEqual. apply bool_decide_eq_true. Qed.

Lemma matchesSignature_spec key payload signatures :
  Forall filled signatures ->
  matchesSignature key payload signatures = true
  <-> exists signature,
        signature ∈ signatures
        /\ decodesTo true signature (hmacSha256 key (utf8 payload)).
Proof.
  intros Hfilled. unfold matchesSignature. rewrite existsb_exists.
  set (digest := hmacSha256 key (utf8 payload)).
  split.
  - intros (signature & Hin & Hmatch). exists signature.
    split; [by apply list_elem_of_In|].
    unfold decodeSignatureCandidate in Hmatch.
    destruct (negb (Text.nonEmpty signature)); [done|].
    destruct (length (bufferFromBase64 signature) =? length digest)%nat
      eqn:Hb64.
    { left. by apply timingSafeEqual_spec. }
    destruct (length (bufferFromHex signature) =? length digest)%nat;
      [|done].
    right. repeat split.
    + by apply Nat.eqb_neq.
    + by apply timingSafeEqual_spec.
  - intros (signature & Hin & Hdec). exists signature.
    split; [by apply list_elem_of_In|].
    assert (Hne : Text.nonEmpty signature = true)
      by exact (proj1 (Forall_forall _ _) Hfilled _ Hin).
    unfold decodeSignatureCandidate. rewrite Hne. simpl.
    destruct Hdec as [Hb64|(_ & Hlen & Hhex)].
    + rewrite Hb64, Nat.eqb_refl. by apply timingSafeEqual_spec.
    + apply Nat.eqb_neq in Hlen. rewrite Hlen.
      rewrite Hhex, Nat.eqb_refl. by apply timingSafeEqual_spec.
Qed.

Lemma base64Only_spec digest signatures :
  existsb (fun signature =>
             let provided := bufferFromBase64 signature in
             if negb (length provided =? length digest)%nat then false
             else timingSafeEqual provided digest) signatures = true
  <-> exists signature,
        signature ∈ signatures /\ decodesTo false signature digest.
Proof.
  rewrite existsb_exists. split.
  - intros (signature & Hin & Hmatch). exists signature.
    split; [by apply list_elem_of_In|]. left. simpl in Hmatch.
    destruct (negb (length (bufferFromBase64 signature) =? length digest)%nat);
      [done|].
    by apply timingSafeEqual_spec.
  - intros (signature & Hin & [Hb64|(Hhex & _)]); [|done].
    exists signature. split; [by apply list_elem_of_In|].
    simpl. rewrite Hb64, Nat.eqb_refl. by apply timingSafeEqual_spec.
Qed.

Lemma outsideTolerance_within nowMs timestamp :
  timestamp <> NaN ->
  outsideTolerance (nowSecondsOf nowMs) timestamp = false
  <-> within nowMs timestamp.
Proof.
  intros Hnan. unfold within, outsideTolerance, nowSecondsOf,
    SIGNATURE_TOLERANCE_SECONDS.
  destruct timestamp as [| | |t]; try done.
  - split; [done|]. by intros (t & ? & _).
  - split; [done|]. by intros (t & ? & _).
  - rewrite Z.ltb_ge. split.
    + intros H. by exists t.
    + by intros (t' & [= <-] & H).
Qed.

End MatchingFacts.

Section AttemptFacts.
Context {rt : NodeRuntime}.
Import Verifier Scheme.

Lemma bool_eq_iff (b m : bool) (P : Prop) :
  (m = true <-> P) -> (@inr string bool m = inr b <-> (b = true <-> P)).
Proof.
  intros HP. split.
  - intros [= <-]. done.
  - intros Hb. f_equal. destruct b, m; try done.
    + apply HP, Hb. done.
    + symmetry. apply Hb, HP. done.
Qed.

Lemma isFinite_not_nan n : isFinite n = true -> n <> NaN.
Proof. by destruct n. Qed.

Lemma truthyNum_not_nan n : truthyNum n = true -> n <> NaN.
Proof. by destruct n. Qed.

(** An attempt yields a verdict exactly when the header set is well
    formed and recent; the verdict is whether a candidate matches. *)
Lemma attemptOf_inr s nowMs rawBody headers secret b :
  attemptOf s nowMs rawBody headers secret = inr b
  <-> exists a,
        reading s rawBody headers secret = Some a
        /\ within nowMs (timestamp a)
        /\ (b = true <-> matched a).
Proof.
  destruct s; unfold attemptOf, reading.
  - (* provider-native *)
    unfold verifyOpenAi.
    destruct (parseOpenAiSignature _) as [[t sigs]|] eqn:Hparse; simpl.
    2:{ split; [done|]. by intros (a & ? & _). }
    destruct (parseOpenAiSignature_filled _ _ _ Hparse) as [Ht Hsigs].
    pose proof (outsideTolerance_within nowMs t (truthyNum_not_nan _ Ht))
      as Hwithin.
    destruct (outsideTolerance (nowSecondsOf nowMs) t) eqn:Hout.
    { split; [done|]. intros (a & [= <-] & Hw & _). simpl in Hw.
      apply Hwithin in Hw. done. }
    rewrite (bool_eq_iff b _ _ (matchesSignature_spec _ _ _ Hsigs)).
    split.
    + intros Hb. eexists. split; [done|]. split; [by apply Hwithin|done].
    + by intros (a & [= <-] & _ & Hb).
  - (* broker-style *)
    unfold verifySvix.
    destruct (parseSvixSignature _) as [sigs|] eqn:Hparse; simpl.
    2:{ split; [done|]. by intros (a & ? & _). }
    set (timestampHeader :=
           Js.or (get headers "svix-timestamp")
             (Js.or (get headers "x-openai-timestamp")
                (get headers "openai-timestamp"))).
    set (id := normaliseHeaderValue (get headers "svix-id")).
    destruct (truthy timestampHeader); simpl.
    2:{ split; [done|]. by intros (a & ? & _). }
    destruct (truthy id); simpl.
    2:{ split; [done|]. by intros (a & ? & _). }
    destruct (isFinite (toNumber timestampHeader)) eqn:Hfin; simpl.
    2:{ split; [done|]. by intros (a & ? & _). }
    pose proof (outsideTolerance_within nowMs _ (isFinite_not_nan _ Hfin))
      as Hwithin.
    destruct (outsideTolerance _ (toNumber timestampHeader)) eqn:Hout.
    { split; [done|].
      destruct (negb _); simpl; [|by intros (a & ? & _)].
      intros (a & [= <-] & Hw & _). simpl in Hw. apply Hwithin in Hw. done. }
    destruct (length (bufferFromBase64 (stripWhsec secret)) =? 0)%nat; simpl.
    { split; [done|]. by intros (a & ? & _). }
    rewrite (bool_eq_iff b _ _ (base64Only_spec _ _)).
    split.
    + intros Hb. eexists. split; [done|]. split; [by apply Hwithin|done].
    + by intros (a & [= <-] & _ & Hb).
  - (* standard *)
    unfold verifyStandard.
    set (timestampHeader :=
           normaliseHeaderValue
             (normaliseSignatureHeader headers
                ["webhook-timestamp"; "svix-timestamp"; "x-openai-timestamp";
                 "openai-timestamp"])).
    set (id := normaliseSignatureHeader headers ["webhook-id"]).
    destruct (parseStandardSignature _) as [sigs|] eqn:Hparse; simpl.
    2:{ split; [done|]. by intros (a & ? & _). }
    pose proof (parseStandardSignature_filled _ _ Hparse) as Hsigs.
    destruct (truthy timestampHeader); simpl.
    2:{ split; [done|]. by intros (a & ? & _). }
    destruct (truthy id); simpl.
    2:{ split; [done|]. by intros (a & ? & _). }
    destruct (isFinite (toNumber timestampHeader)) eqn:Hfin; simpl.
    2:{ split; [done|]. by intros (a & ? & _). }
    pose proof (outsideTolerance_within nowMs _ (isFinite_not_nan _ Hfin))
      as Hwithin.
    destruct (outsideTolerance _ (toNumber timestampHeader)) eqn:Hout.
    { split; [done|].
      destruct (deriveStandardSecretKey secret); simpl;
        [|by intros (a & ? & _)].
      intros (a & [= <-] & Hw & _). simpl in Hw. apply Hwithin in Hw. done. }
    destruct (deriveStandardSecretKey secret) as [key|]; simpl.
    2:{ split; [done|]. by intros (a & ? & _). }
    rewrite (bool_eq_iff b _ _ (matchesSignature_spec _ _ _ Hsigs)).
    split.
    + intros Hb. eexists. split; [done|]. split; [by apply Hwithin|done].
    + by intros (a & [= <-] & _ & Hb).
Qed.

Lemma accepted_attempt s nowMs rawBody headers secret :
  accepted s nowMs rawBody headers secret
  <-> attemptOf s nowMs rawBody headers secret = inr true.
Proof.
  rewrite attemptOf_inr. unfold accepted. split.
  - intros (a & Hr & Hw & Hm). exists a. by repeat split.
  - intros (a & Hr & Hw & Hm). exists a. repeat split; try done. by apply Hm.
Qed.

Lemma passedOver_attempt s nowMs rawBody headers secret :
  passedOver s nowMs rawBody headers secret
  <-> attemptOf s nowMs rawBody headers secret = inr false.
Proof.
  rewrite attemptOf_inr. unfold passedOver. split.
  - intros (a & Hr & Hw & Hm). exists a. repeat split; try done.
  - intros (a & Hr & Hw & Hm). exists a. repeat split; try done.
    intros H. apply Hm in H. done.
Qed.

End AttemptFacts.

Section VerifierTheorem.
Context {rt : NodeRuntime}.
Import Verifier Scheme.

(** The receiver in terms of the attempts it makes. *)
Lemma verifySignature_attempts nowMs rawBody headers secret :
  verifySignature nowMs rawBody headers secret =
    (let tried s := truthy (signatureHeader s headers) in
     let verdict s := attemptOf s nowMs rawBody headers secret in
     if negb (tried ProviderNative) && negb (tried BrokerStyle)
        && negb (tried Standard)
     then inl "Missing webhook signature headers."
     else
       v1 ← (if tried ProviderNative then verdict ProviderNative
             else inr false);
       v2 ← (if negb v1 && tried BrokerStyle then verdict BrokerStyle
             else inr v1);
       v3 ← (if negb v2 && tried Standard then verdict Standard
             else inr v2);
       if negb v3 then inl "Webhook signature verification failed."
       else inr tt).
Proof. reflexivity. Qed.

Ltac earlier_attempts He :=
  pose proof (He ProviderNative) as He1;
  pose proof (He BrokerStyle) as He2;
  pose proof (He Standard) as He3;
  simpl in He1, He2, He3.

(** The receiver in terms of what its parsers read. The conventions
    whose signature header the callback carries are tried in order, and
    verification succeeds exactly when one of them reads a recent
    timestamp and a candidate that the digest matches, every convention
    carried before it having read a recent timestamp and no matching
    candidate. *)
Lemma verification_by_reading (nowMs : Z) (rawBody : string) (headers : jsobj)
  (secret : string) :
  (verifySignature nowMs rawBody headers secret = inr tt
   <-> exists s,
         presented s headers
         /\ accepted s nowMs rawBody headers secret
         /\ forall s',
              (rank s' < rank s)%nat -> presented s' headers ->
              passedOver s' nowMs rawBody headers secret)
  /\ (forall event,
        unwrapWebhookEvent nowMs rawBody headers secret = inr event
        <-> verifySignature nowMs rawBody headers secret = inr tt
            /\ jsonParse rawBody = Some event)
  /\ (verifySignature nowMs rawBody headers secret <> inr tt ->
      exists reason,
        unwrapWebhookEvent nowMs rawBody headers secret = inl reason).
Proof.
  split; [|split].
  - rewrite verifySignature_attempts. unfold presented.
    setoid_rewrite accepted_attempt. setoid_rewrite passedOver_attempt.
    destruct (truthy (signatureHeader ProviderNative headers)) eqn:P1,
      (truthy (signatureHeader BrokerStyle headers)) eqn:P2,
      (truthy (signatureHeader Standard headers)) eqn:P3;
      destruct (attemptOf ProviderNative nowMs rawBody headers secret)
        as [e1|[|]] eqn:R1;
      destruct (attemptOf BrokerStyle nowMs rawBody headers secret)
        as [e2|[|]] eqn:R2;
      destruct (attemptOf Standard nowMs rawBody headers secret)
        as [e3|[|]] eqn:R3;
      simpl; (split;
      [ intros H; try discriminate H;
        first
          [ exists ProviderNative; rewrite ?P1, ?R1;
            split; [done|]; split; [done|];
            intros [] Hlt Hp; simpl in Hlt; try lia; congruence
          | exists BrokerStyle; rewrite ?P2, ?R2;
            split; [done|]; split; [done|];
            intros [] Hlt Hp; simpl in Hlt; try lia; congruence
          | exists Standard; rewrite ?P3, ?R3;
            split; [done|]; split; [done|];
            intros [] Hlt Hp; simpl in Hlt; try lia; congruence ]
      | intros (s & Hp & Ha & He); try reflexivity; exfalso;
        earlier_attempts He;
        destruct s; simpl in *;
        rewrite ?P1, ?P2, ?P3, ?R1, ?R2, ?R3 in *;
        try discriminate;
        try (specialize (He1 ltac:(lia) eq_refl); discriminate);
        try (specialize (He2 ltac:(lia) eq_refl); discriminate) ]).
  - intros event. unfold unwrapWebhookEvent.
    destruct (verifySignature nowMs rawBody headers secret) as [e|[]]; simpl.
    + split; [done|]. by intros [? _].
    + destruct (jsonParse rawBody) as [parsed|].
      * split; [by intros [= <-]|]. by intros [_ [= <-]].
      * split; [done|]. by intros [_ ?].
  - intros Hnot. unfold unwrapWebhookEvent.
    destruct (verifySignature nowMs rawBody headers secret) as [e|[]]; simpl.
    + by exists e.
    + done.
Qed.

End VerifierTheorem.

(** ** Headers as a sender writes them *)

Section FormFacts.
Context {rt : NodeRuntime}.
Import Verifier Scheme.

Lemma plainText_filled text : plainText text -> text <> "".
Proof. intros (Hfilled & _). by apply nonEmpty_filled. Qed.

Lemma entry_plain signature :
  plainText signature ->
  Text.trim ("v1=" ++ signature) = "v1=" ++ signature
  /\ Text.indexOf "," ("v1=" ++ signature) = None.
Proof.
  intros Hplain. pose proof (plainText_filled _ Hplain) as Hfilled.
  destruct Hplain as (_ & Htrim & Hcomma). split.
  - exact (trim_prefixed "v" "1=" signature eq_refl Htrim Hfilled).
  - change (Text.indexOf "," ("v1=" ++ signature))
      with (S <$> (S <$> (S <$> Text.indexOf "," signature))).
    by rewrite Hcomma.
Qed.

Lemma sliceFrom_entry signature :
  Text.sliceFrom 3 ("v1=" ++ signature) = signature.
Proof.
  change (Text.sliceFrom 3 ("v1=" ++ signature))
    with (substring 0 (String.length signature - 0) signature).
  rewrite Nat.sub_0_r. apply substring_whole.
Qed.

Lemma trimmed_parts (parts : list string) :
  Forall (fun part => Text.trim part = part) parts ->
  map Text.trim parts = parts.
Proof. induction 1 as [|part parts Hpart _ IH]; simpl; [done|]. by rewrite Hpart, IH. Qed.

Lemma filled_parts (parts : list string) :
  Forall (fun part => Text.nonEmpty part = true) parts ->
  filter (fun part => Is_true (Text.nonEmpty part)) parts = parts.
Proof.
  induction 1 as [|part parts Hpart _ IH]; [done|].
  rewrite filter_cons_True by (by rewrite Hpart). by rewrite IH.
Qed.

(** The parts of a header made of plain parts. *)
Lemma parts_joined (part : string) (parts : list string) :
  Forall (fun p => Text.trim p = p /\ Text.indexOf "," p = None)
    (part :: parts) ->
  map Text.trim (Text.split "," (Text.join "," (part :: parts)))
  = part :: parts.
Proof.
  intros Hall. rewrite split_join.
  - apply trimmed_parts. eapply Forall_impl; [exact Hall|]. by intros p [? ?].
  - eapply Forall_impl; [exact Hall|]. by intros p [? ?].
Qed.

Lemma entries_plain signatures :
  Forall plainText signatures ->
  Forall (fun p => Text.trim p = p /\ Text.indexOf "," p = None)
    (entries signatures).
Proof.
  intros Hall. unfold entries. apply Forall_map.
  eapply Forall_impl; [exact Hall|]. intros signature. apply entry_plain.
Qed.

Lemma headerText_lead (c : ascii) (s : string) :
  Text.isSpace c = false -> headerText (VStr (String c s)) = Some (String c s).
Proof. intros Hc. unfold headerText. by rewrite trim_filled. Qed.

Lemma join_lead (c : ascii) (a : string) (parts : list string) :
  exists tail, Text.join "," (String c a :: parts) = String c tail.
Proof. destruct parts; simpl; eauto. Qed.

Lemma parseSvix_versioned signatures :
  signatures <> [] -> Forall plainText signatures ->
  parseSvixSignature (VStr (versioned signatures)) = Some signatures.
Proof.
  intros Hsome Hall. unfold parseSvixSignature, versioned.
  destruct signatures as [|signature rest]; [done|].
  destruct (join_lead "v" ("1=" ++ signature) (entries rest)) as [tail Htail].
  change (entries (signature :: rest))
    with (String "v" ("1=" ++ signature) :: entries rest) in *.
  rewrite Htail, headerText_lead by done. rewrite <- Htail.
  rewrite parts_joined by exact (entries_plain _ Hall).
  clear Htail tail Hsome.
  change (String "v" ("1=" ++ signature) :: entries rest)
    with (entries (signature :: rest)).
  match goal with
  | |- context [omap ?f (entries _)] =>
      assert (Hread : forall l, Forall plainText l -> omap f (entries l) = l)
  end.
  { induction 1 as [|s others Hs _ IH]; [done|].
    change (entries (s :: others)) with (("v1=" ++ s) :: entries others).
    cbn [omap list_omap]. cbn [omap] in IH. rewrite IH.
    change (Text.indexOf "=" ("v1=" ++ s)) with (Some 2%nat).
    cbv beta iota zeta. rewrite sliceFrom_entry.
    change (Text.sliceTo 2 ("v1=" ++ s)) with "v1".
    destruct Hs as (-> & _). reflexivity. }
  rewrite (Hread _ Hall). reflexivity.
Qed.

Lemma standardLoop_versioned signatures :
  Forall plainText signatures ->
  standardLoop (entries signatures) = signatures.
Proof.
  induction 1 as [|s l Hs _ IH]; [done|].
  cbn [entries map standardLoop]. fold (entries l). rewrite IH.
  change (Text.nonEmpty ("v1=" ++ s)) with true. cbn [negb].
  rewrite includes_equals.
  change (Text.indexOf "=" ("v1=" ++ s)) with (Some 2%nat).
  cbv beta iota zeta. rewrite sliceFrom_entry.
  change (Text.sliceTo 2 ("v1=" ++ s)) with "v1".
  change (Text.trim "v1") with "v1".
  destruct Hs as (Hfilled & -> & _). rewrite Hfilled. reflexivity.
Qed.

Lemma standardLoop_paired signatures :
  Forall plainText signatures ->
  Forall (fun signature => Text.startsWith "v" signature = false)
    signatures ->
  standardLoop (flat_map (fun signature => ["v1"; signature]) signatures)
  = signatures.
Proof.
  induction 1 as [|s l Hs _ IH]; [done|]. intros Hv.
  inversion Hv as [|? ? Hstart Hrest]; subst.
  cbn [flat_map app standardLoop]. rewrite (IH Hrest).
  change (Text.nonEmpty "v1") with true.
  change (Text.includes "=" "v1") with false.
  change (Text.startsWith "v" "v1") with true. cbn [negb].
  destruct Hs as (-> & _). by rewrite Hstart.
Qed.

Lemma parseStandard_versioned signatures :
  signatures <> [] -> Forall plainText signatures ->
  parseStandardSignature (VStr (versioned signatures)) = Some signatures.
Proof.
  intros Hsome Hall. unfold parseStandardSignature, versioned.
  destruct signatures as [|signature rest]; [done|].
  destruct (join_lead "v" ("1=" ++ signature) (entries rest)) as [tail Htail].
  change (entries (signature :: rest))
    with (String "v" ("1=" ++ signature) :: entries rest) in *.
  rewrite Htail, headerText_lead by done. rewrite <- Htail.
  rewrite parts_joined by exact (entries_plain _ Hall).
  change (String "v" ("1=" ++ signature) :: entries rest)
    with (entries (signature :: rest)).
  rewrite filled_parts.
  - rewrite standardLoop_versioned by done. reflexivity.
  - unfold entries. apply Forall_map. by apply Forall_true.
Qed.

Lemma parseStandard_paired signatures :
  signatures <> [] -> Forall plainText signatures ->
  Forall (fun signature => Text.startsWith "v" signature = false)
    signatures ->
  parseStandardSignature (VStr (paired signatures)) = Some signatures.
Proof.
  intros Hsome Hall Hv. unfold parseStandardSignature, paired.
  destruct signatures as [|signature rest]; [done|].
  set (parts := flat_map (fun s => ["v1"; s]) (signature :: rest)).
  assert (Hparts : Forall (fun p => Text.nonEmpty p = true
                                    /\ Text.trim p = p
                                    /\ Text.indexOf "," p = None) parts).
  { unfold parts. clear Hsome Hv.
    induction Hall as [|s l Hs _ IH]; [constructor|].
    cbn [flat_map app]. constructor; [by repeat split|].
    constructor; [exact Hs|exact IH]. }
  destruct (join_lead "v" "1" (flat_map (fun s => ["v1"; s]) rest ++ []))
    as [tail Htail].
  assert (Hshape : parts = "v1" :: signature
                             :: flat_map (fun s => ["v1"; s]) rest)
    by reflexivity.
  destruct (join_lead "v" "1"
              (signature :: flat_map (fun s => ["v1"; s]) rest))
    as [lead Hlead].
  rewrite Hshape in *. rewrite Hlead, headerText_lead by done.
  rewrite <- Hlead. rewrite parts_joined.
  2:{ eapply Forall_impl; [exact Hparts|]. by intros p (? & ? & ?). }
  rewrite filled_parts.
  2:{ eapply Forall_impl; [exact Hparts|]. by intros p (? & ? & ?). }
  rewrite <- Hshape. unfold parts.
  rewrite standardLoop_paired by done. reflexivity.
Qed.

Lemma fold_entries timestamp seen signatures :
  Forall plainText signatures ->
  fold_left openAiStep (entries signatures) (timestamp, seen)
  = (timestamp, (seen ++ signatures)%list).
Proof.
  intros Hall. revert seen.
  induction Hall as [|s l Hs _ IH]; intros seen.
  - by rewrite app_nil_r.
  - cbn [entries map fold_left]. fold (entries l).
    assert (Hstep : openAiStep (timestamp, seen) ("v1=" ++ s)
                    = (timestamp, (seen ++ [s])%list)).
    { unfold openAiStep, keyValue.
      change (Text.indexOf "=" ("v1=" ++ s)) with (Some 2%nat).
      cbv beta iota zeta. rewrite sliceFrom_entry.
      change (Text.sliceTo 2 ("v1=" ++ s)) with "v1".
      destruct Hs as (-> & _). reflexivity. }
    rewrite Hstep, IH. by rewrite <- app_assoc.
Qed.

Lemma parseOpenAi_written stamp signatures :
  plainText stamp -> signatures <> [] -> Forall plainText signatures ->
  parseOpenAiSignature (VStr ("t=" ++ stamp ++ "," ++ versioned signatures))
  = if truthyNum (stringToNumber stamp)
    then Some (stringToNumber stamp, signatures) else None.
Proof.
  intros Hstamp Hsome Hall. unfold parseOpenAiSignature, versioned.
  destruct signatures as [|signature rest]; [done|].
  change ("t=" ++ stamp ++ "," ++ Text.join "," (entries (signature :: rest)))
    with (Text.join "," (("t=" ++ stamp) :: entries (signature :: rest))).
  destruct (join_lead "t" ("=" ++ stamp) (entries (signature :: rest)))
    as [tail Htail].
  change (String "t" ("=" ++ stamp)) with ("t=" ++ stamp) in Htail.
  rewrite Htail, headerText_lead by done. rewrite <- Htail.
  rewrite parts_joined.
  2:{ constructor; [|exact (entries_plain _ Hall)].
      pose proof (plainText_filled _ Hstamp) as Hfilled.
      destruct Hstamp as (_ & Htrim & Hcomma). split.
      - exact (trim_prefixed "t" "=" stamp eq_refl Htrim Hfilled).
      - change (Text.indexOf "," ("t=" ++ stamp))
          with (S <$> (S <$> Text.indexOf "," stamp)).
        by rewrite Hcomma. }
  cbn [fold_left].
  assert (Hstep : openAiStep (None, []) ("t=" ++ stamp)
                  = (Some (stringToNumber stamp), [])).
  { unfold openAiStep, keyValue.
    change (Text.indexOf "=" ("t=" ++ stamp)) with (Some 1%nat).
    cbv beta iota zeta.
    assert (Hvalue : Text.sliceFrom 2 ("t=" ++ stamp) = stamp).
    { change (Text.sliceFrom 2 ("t=" ++ stamp))
        with (substring 0 (String.length stamp - 0) stamp).
      rewrite Nat.sub_0_r. apply substring_whole. }
    rewrite Hvalue.
    change (Text.sliceTo 1 ("t=" ++ stamp)) with "t".
    destruct Hstamp as (-> & _). reflexivity. }
  rewrite Hstep, fold_entries by done. cbn [app length Nat.eqb negb].
  by rewrite andb_true_r.
Qed.

(** What the receiver reads from a header written in one of the forms is
    what the header offers. *)
Lemma reading_written s rawBody headers secret stamp signatures :
  written s headers stamp signatures ->
  reading s rawBody headers secret
  = offered s rawBody headers secret stamp signatures.
Proof.
  intros (Hsome & Hall & Hform). destruct s; unfold reading, offered.
  - destruct Hform as (Hstamp & _ & ->).
    rewrite parseOpenAi_written by done.
    by destruct (truthyNum (stringToNumber stamp)).
  - rewrite Hform, parseSvix_versioned by done. reflexivity.
  - destruct Hform as [->|[Hv ->]].
    + rewrite parseStandard_versioned by done. reflexivity.
    + rewrite parseStandard_paired by done. reflexivity.
Qed.

End FormFacts.

Section ConventionTheorem.
Context {rt : NodeRuntime}.
Import Verifier Scheme.

Lemma accepted_as s nowMs rawBody headers secret :
  (exists stamp signatures, written s headers stamp signatures) ->
  accepted s nowMs rawBody headers secret
  <-> acceptedAs s nowMs rawBody headers secret.
Proof.
  intros (stamp & signatures & Hwritten). split.
  - intros (a & Hread & Hwithin & Hmatched). exists stamp, signatures, a.
    by rewrite <- (reading_written _ rawBody _ secret _ _ Hwritten).
  - intros (stamp' & signatures' & a & Hwritten' & Hoffer & Hrest).
    exists a. by rewrite (reading_written _ _ _ _ _ _ Hwritten').
Qed.

Lemma passedOver_as s nowMs rawBody headers secret :
  (exists stamp signatures, written s headers stamp signatures) ->
  passedOver s nowMs rawBody headers secret
  <-> passedOverAs s nowMs rawBody headers secret.
Proof.
  intros (stamp & signatures & Hwritten). split.
  - intros (a & Hread & Hwithin & Hmatched). exists stamp, signatures, a.
    by rewrite <- (reading_written _ rawBody _ secret _ _ Hwritten).
  - intros (stamp' & signatures' & a & Hwritten' & Hoffer & Hrest).
    exists a. by rewrite (reading_written _ _ _ _ _ _ Hwritten').
Qed.

(** C1, as the code has it by design. Take a callback each of whose
    signature headers is written as a list of versioned signatures:
    [t=<seconds>,v1=<signature>,...] with a timestamp other than 0
    under the provider-native convention, [v1=<signature>,...] under
    the broker-style and the standard convention, or, under the
    standard convention, [v1,<signature>] pairs none of whose
    signatures begins with [v]. The conventions carried are tried in
    the order provider-native, broker-style, standard, and verification
    succeeds if and only if one of them offers a timestamp that differs
    from the current time by at most 300 seconds (with, under the
    broker-style and standard conventions, a delivery id and a key that
    is not empty) and a signature that the HMAC-SHA256 digest over its
    signed string matches, decoded as base64, or as hex of the digest's
    length under the provider-native and standard conventions only,
    while every convention carried before it offered a recent timestamp
    and no matching signature. The event is returned exactly when, in
    addition, the body parses; whenever verification does not succeed
    the callback is rejected. *)
Theorem verification_iff (nowMs : Z) (rawBody : string) (headers : jsobj)
  (secret : string) :
  (forall s,
     presented s headers ->
     exists stamp signatures, written s headers stamp signatures) ->
  (verifySignature nowMs rawBody headers secret = inr tt
   <-> exists s,
         presented s headers
         /\ acceptedAs s nowMs rawBody headers secret
         /\ forall s',
              (rank s' < rank s)%nat -> presented s' headers ->
              passedOverAs s' nowMs rawBody headers secret)
  /\ (forall event,
        unwrapWebhookEvent nowMs rawBody headers secret = inr event
        <-> verifySignature nowMs rawBody headers secret = inr tt
            /\ jsonParse rawBody = Some event)
  /\ (verifySignature nowMs rawBody headers secret <> inr tt ->
      exists reason,
        unwrapWebhookEvent nowMs rawBody headers secret = inl reason).
Proof.
  intros Hwritten.
  destruct (verification_by_reading nowMs rawBody headers secret)
    as (Hiff & Hevent & Hrejected).
  split; [|by split]. rewrite Hiff.
  split; intros (s & Hcarried & Haccepted & Hearlier); exists s;
    (split; [done|]); split.
  - by apply accepted_as; [apply Hwritten|].
  - intros s' Hrank Hcarried'.
    by apply passedOver_as; [apply Hwritten|apply Hearlier].
  - by apply accepted_as; [apply Hwritten|].
  - intros s' Hrank Hcarried'.
    by apply passedOver_as; [apply Hwritten|apply Hearlier].
Qed.

End ConventionTheorem.

Lemma verification_iff_witness :
  exists s,
    Scheme.presented s
      (Webhook.normaliseHeaders (eventHeaders Examples.firstDelivery))
    /\ Scheme.acceptedAs (rt := Ref.runtime) s Examples.clock
         Examples.completedBody
         (Webhook.normaliseHeaders (eventHeaders Examples.firstDelivery))
         Examples.sharedSecret
    /\ forall s',
         (Scheme.rank s' < Scheme.rank s)%nat ->
         Scheme.presented s'
           (Webhook.normaliseHeaders (eventHeaders Examples.firstDelivery)) ->
         Scheme.passedOverAs (rt := Ref.runtime) s' Examples.clock
           Examples.completedBody
           (Webhook.normaliseHeaders (eventHeaders Examples.firstDelivery))
           Examples.sharedSecret.
Proof.
  assert (Hwritten : forall s,
    Scheme.presented s
      (Webhook.normaliseHeaders (eventHeaders Examples.firstDelivery)) ->
    exists stamp signatures,
      Scheme.written (rt := Ref.runtime) s
        (Webhook.normaliseHeaders (eventHeaders Examples.firstDelivery))
        stamp signatures).
  { intros [| |] Hcarried; try (vm_compute in Hcarried; discriminate).
    exists "", ["sREv6phsPDuIv6nhpg9JJC2nsSJHtZCbn6QGB0VbIp8="].
    split; [discriminate|]. split.
    - constructor; [|constructor]. repeat split; vm_compute; reflexivity.
    - right. split; [|vm_compute; reflexivity].
      constructor; [|constructor]. vm_compute; reflexivity. }
  apply (proj1 (proj1 (verification_iff (rt := Ref.runtime) Examples.clock
                         Examples.completedBody _ Examples.sharedSecret
                         Hwritten))).
  vm_compute; reflexivity.
Defined.

(** C1 as stated fails: under the broker-style convention a candidate that
    is the digest in hex, of the digest's length, with a timestamp equal to
    the current second, is rejected, since that convention only decodes
    base64. *)
Lemma broker_hex_candidate_rejected :
  Scheme.presented Scheme.BrokerStyle Examples.brokerHexHeaders
  /\ Ref.fromHex Examples.brokerHexSignature
     = Ref.Sha256.hmac (Ref.fromBase64 "c2VjcmV0LWtleS0wMTIzNDU2Nzg5")
         (utf8 ("msg_1.1700000000." ++ Examples.completedBody))
  /\ length (Ref.fromHex Examples.brokerHexSignature) = 32%nat
  /\ Z.abs (Examples.clock / 1000 - 1700000000) <= 300
  /\ Verifier.verifySignature (rt := Ref.runtime) Examples.clock
       Examples.completedBody Examples.brokerHexHeaders
       Examples.sharedSecret
     = inl "Webhook signature verification failed.".
Proof.
  split; [reflexivity|]. split; [by vm_compute|]. split; [by vm_compute|].
  split; [by vm_compute|]. by vm_compute.
Qed.

(** The standard convention accepts the first sample delivery. *)
Lemma firstDelivery_accepted :
  Verifier.unwrapWebhookEvent (rt := Ref.runtime) Examples.clock
    Examples.completedBody
    (Webhook.normaliseHeaders (eventHeaders Examples.firstDelivery))
    Examples.sharedSecret
  = inr Examples.completedEvent.
Proof. by vm_compute. Qed.

(** A convention that is carried but stale rejects the callback, though
    the standard convention carried with it verifies on its own. *)
Lemma stale_convention_rejects :
  Verifier.verifySignature (rt := Ref.runtime) Examples.clock
    Examples.completedBody
    (Webhook.normaliseHeaders (eventHeaders Examples.firstDelivery))
    Examples.sharedSecret
  = inr tt
  /\ Verifier.verifySignature (rt := Ref.runtime) Examples.clock
       Examples.completedBody Deliveries.staleNativeHeaders
       Examples.sharedSecret
     = inl "OpenAI webhook timestamp outside the allowed tolerance.".
Proof. split; vm_compute; reflexivity. Qed.

(** ** The webhook receiver *)

Section ReceiverFacts.
Context {rt : NodeRuntime} {helpers : ResultHelpers} (env : environment).
Import Verifier JobStore Webhook.

(** Reading the secret never throws and touches no job record. *)
Lemma ensureWebhookSecret_run context w :
  exists secret trail,
    ensureWebhookSecret env context w =
      (Returned secret, mkWorld (storage w) (calls w ++ trail))
    /\ (trail = [] \/ trail = [StorageGetSecret "openaiWebhookSecret"]).
Proof.
  unfold ensureWebhookSecret.
  set (fromContext :=
         prop (prop context "environmentVariables") "OPENAI_WEBHOOK_SECRET").
  set (secret :=
         if negb (truthy fromContext) then processEnvSecret env
         else fromContext).
  destruct (negb (truthy secret)).
  - unfold tryCatch, storageGetSecret, record, modify, mbind, handler_bind.
    simpl. destruct (storedSecret env) as [e|stored]; simpl;
      eexists _, [StorageGetSecret "openaiWebhookSecret"]; split; eauto.
  - exists secret, []. rewrite app_nil_r. destruct w. simpl. eauto.
Qed.

Lemma run_unconfigured event context w secret w1 :
  ensureWebhookSecret env context w = (Returned secret, w1) ->
  truthy secret = false ->
  run env event context w =
    (Returned (mkResponse 401 "Webhook secret not configured"), w1).
Proof.
  intros Hsecret Hfalsy. unfold run.
  rewrite (bind_returned _ _ _ _ _ Hsecret). by rewrite Hfalsy.
Qed.

Lemma run_rejected event context w secret w1 reason :
  ensureWebhookSecret env context w = (Returned secret, w1) ->
  truthy secret = true ->
  unwrapWith env secret (rawBodyOf event)
    (normaliseHeaders (eventHeaders event)) = inl reason ->
  run env event context w =
    (Returned (mkResponse 400 "Invalid webhook signature"), w1).
Proof.
  intros Hsecret Htruthy Hunwrap. unfold run.
  rewrite (bind_returned _ _ _ _ _ Hsecret). rewrite Htruthy. simpl.
  by rewrite Hunwrap.
Qed.

Lemma run_verified event context w secret w1 webhookEvent :
  ensureWebhookSecret env context w = (Returned secret, w1) ->
  truthy secret = true ->
  unwrapWith env secret (rawBodyOf event)
    (normaliseHeaders (eventHeaders event)) = inr webhookEvent ->
  run env event context w =
    dispatch env (normaliseHeaders (eventHeaders event)) webhookEvent w1.
Proof.
  intros Hsecret Htruthy Hunwrap. unfold run.
  rewrite (bind_returned _ _ _ _ _ Hsecret). rewrite Htruthy. simpl.
  by rewrite Hunwrap.
Qed.

Lemma retrieve_run jobId w :
  retrieve env jobId w =
    (Returned (retrieveCompletion env jobId),
     mkWorld (storage w) (calls w ++ [RetrieveCompletion jobId])).
Proof.
  unfold retrieve, tryCatch, mbind, handler_bind.
  rewrite providerRetrieve_run.
  by destruct (retrieveCompletion env jobId).
Qed.

(** The dispatcher on a tracked job, up to the idempotency check. *)
Lemma dispatch_tracked headers webhookEvent w record :
  let webhookId := normaliseHeaderValue (get headers "webhook-id") in
  let jobId := prop (prop webhookEvent "data") "id" in
  let key := buildJobKey jobId in
  truthy jobId = true ->
  storageFault env (StorageGet key) = None ->
  storage w !! key = Some record ->
  truthy record = true ->
  dispatch env headers webhookEvent w =
    match alreadyProcessed record webhookId with
    | inl e => (Thrown e, mkWorld (storage w) (calls w ++ [StorageGet key]))
    | inr true =>
        (Returned (mkResponse 200 "Ack: duplicate"),
         mkWorld (storage w) (calls w ++ [StorageGet key]))
    | inr false =>
        settle env jobId record webhookId (prop webhookEvent "type")
          (retrieveCompletion env jobId)
          (mkWorld (storage w)
             (calls w ++ [StorageGet key; RetrieveCompletion jobId]))
    end.
Proof.
  intros webhookId jobId key Hid Hget Hrec Htruthy. unfold dispatch.
  fold jobId. fold webhookId. rewrite Hid. simpl.
  unfold getJobRecord. fold key.
  rewrite (bind_returned _ _ _ _ _ (storageGet_ok _ _ w Hget)).
  rewrite Hrec. simpl. rewrite Htruthy. simpl.
  destruct (alreadyProcessed record webhookId) as [e|[|]]; simpl; try done.
  rewrite ret_bind.
  rewrite (bind_returned _ _ _ _ _ (retrieve_run _ _)). simpl.
  by rewrite <- app_assoc.
Qed.

(** A delivery id already in the ledger is recognised. *)
Lemma alreadyProcessed_listed record deliveryId ledger :
  deliveryId <> "" ->
  prop record "processedWebhookIds" = VArr ledger ->
  VStr deliveryId ∈ ledger ->
  alreadyProcessed record (VStr deliveryId) = inr true.
Proof.
  intros Hne Hledger Hin. unfold alreadyProcessed. simpl.
  unfold Text.nonEmpty.
  destruct (String.eqb_spec deliveryId "") as [->|_]; [done|]. simpl.
  rewrite Hledger. f_equal. apply existsb_exists.
  exists (VStr deliveryId). split; [by apply list_elem_of_In|].
  simpl. apply String.eqb_refl.
Qed.

(** Without a delivery id the ledger is not consulted. *)
Lemma alreadyProcessed_anonymous record webhookId :
  truthy webhookId = false -> alreadyProcessed record webhookId = inr false.
Proof. intros H. unfold alreadyProcessed. by rewrite H. Qed.

Lemma buildProcessedList_anonymous existing webhookId :
  truthy webhookId = false ->
  buildProcessedList existing webhookId
    = inr (withDefault (VArr []) existing).
Proof. intros H. unfold buildProcessedList. by rewrite H. Qed.

Lemma ledger_truthy record ledger :
  prop record "processedWebhookIds" = VArr ledger -> truthy record = true.
Proof. by destruct record. Qed.

End ReceiverFacts.

Section DuplicateTheorem.
Context {rt : NodeRuntime} {helpers : ResultHelpers} (env : environment).
Import Verifier JobStore Webhook.

(** The dispatcher on a delivery whose id the tracked job has applied. *)
Lemma dispatch_duplicate headers webhookEvent w record deliveryId ledger :
  let jobId := prop (prop webhookEvent "data") "id" in
  let key := buildJobKey jobId in
  truthy jobId = true ->
  storageFault env (StorageGet key) = None ->
  storage w !! key = Some record ->
  normaliseHeaderValue (get headers "webhook-id") = VStr deliveryId ->
  deliveryId <> "" ->
  prop record "processedWebhookIds" = VArr ledger ->
  VStr deliveryId ∈ ledger ->
  dispatch env headers webhookEvent w =
    (Returned (mkResponse 200 "Ack: duplicate"),
     mkWorld (storage w) (calls w ++ [StorageGet key])).
Proof.
  intros jobId key Hid Hget Hrec Hwid Hne Hledger Hin.
  rewrite (dispatch_tracked env headers webhookEvent w record Hid Hget Hrec
             (ledger_truthy _ _ Hledger)).
  rewrite Hwid.
  by rewrite (alreadyProcessed_listed record deliveryId ledger Hne Hledger Hin).
Qed.

Lemma ensureWebhookSecret_storage context w secret w1 :
  ensureWebhookSecret env context w = (Returned secret, w1) ->
  storage w1 = storage w.
Proof.
  intros H. destruct (ensureWebhookSecret_run env context w)
    as (secret' & trail & Hrun & _).
  rewrite Hrun in H. by injection H as _ <-.
Qed.

(** C3. For every tracked job and every delivery id in its
    [processedWebhookIds], a callback that is accepted (the secret is
    configured, the signature verifies and the body parses), names that
    job and carries that delivery id is acknowledged with status 200, and
    the dispatcher does nothing but read the record: the storage, and
    with it the job's status, result, error and ledger, is left as it
    was. *)
Theorem duplicate_delivery_ignored (event : inboundEvent) (context : jsval)
  (w w1 : world) (secret webhookEvent record : jsval) (deliveryId : string)
  (ledger : list jsval) :
  let headers := normaliseHeaders (eventHeaders event) in
  let jobId := prop (prop webhookEvent "data") "id" in
  let key := buildJobKey jobId in
  ensureWebhookSecret env context w = (Returned secret, w1) ->
  truthy secret = true ->
  unwrapWith env secret (rawBodyOf event) headers = inr webhookEvent ->
  truthy jobId = true ->
  storageFault env (StorageGet key) = None ->
  storage w !! key = Some record ->
  normaliseHeaderValue (get headers "webhook-id") = VStr deliveryId ->
  deliveryId <> "" ->
  prop record "processedWebhookIds" = VArr ledger ->
  VStr deliveryId ∈ ledger ->
  run env event context w =
    (Returned (mkResponse 200 "Ack: duplicate"),
     mkWorld (storage w) (calls w1 ++ [StorageGet key])).
Proof.
  intros headers jobId key Hsecret Htruthy Hunwrap Hid Hget Hrec Hwid Hne
    Hledger Hin. subst headers jobId key.
  rewrite (run_verified env event context w secret w1 webhookEvent
             Hsecret Htruthy Hunwrap).
  pose proof (ensureWebhookSecret_storage context w secret w1 Hsecret)
    as Hstore.
  rewrite <- Hstore in Hrec.
  rewrite (dispatch_duplicate _ webhookEvent w1 record deliveryId ledger
             Hid Hget Hrec Hwid Hne Hledger Hin).
  by rewrite Hstore.
Qed.

End DuplicateTheorem.

Lemma duplicate_delivery_ignored_witness :
  Webhook.run (rt := Ref.runtime) (helpers := Ref.helpers) Examples.quiet
    Examples.firstDelivery Examples.withSecret Examples.settledWorld
  = (Returned (mkResponse 200 "Ack: duplicate"),
     mkWorld (storage Examples.settledWorld)
       (calls Examples.settledWorld
          ++ [StorageGet
                (JobStore.buildJobKey (rt := Ref.runtime)
                   (prop (prop Examples.completedEvent "data") "id"))])).
Proof.
  apply (duplicate_delivery_ignored (rt := Ref.runtime)
           (helpers := Ref.helpers) Examples.quiet Examples.firstDelivery
           Examples.withSecret Examples.settledWorld Examples.settledWorld
           (VStr Examples.sharedSecret) Examples.completedEvent
           Examples.settledRecord "wh_1" [VStr "wh_1"]).
  - reflexivity.
  - reflexivity.
  - by vm_compute.
  - reflexivity.
  - reflexivity.
  - reflexivity.
  - reflexivity.
  - discriminate.
  - reflexivity.
  - left.
Defined.

Section LedgerFacts.
Context {rt : NodeRuntime} {helpers : ResultHelpers} (env : environment).
Import Verifier JobStore Webhook.

Lemma statusUpdate_ledger status fields processed :
  (list_to_map fields : jsobj) !! "processedWebhookIds" = Some processed ->
  statusUpdate status fields !! "processedWebhookIds" = Some processed.
Proof.
  intros H. unfold statusUpdate. simpl. by rewrite lookup_insert_ne.
Qed.

Lemma publish_then_ack key body w :
  (publishAppEvent key ;; ack body) w =
    (Returned (mkResponse 200 body),
     mkWorld (storage w) (calls w ++ [PublishAppEvent key])).
Proof. reflexivity. Qed.

End LedgerFacts.

Section SettledTheorem.
Context {rt : NodeRuntime} {helpers : ResultHelpers} (env : environment).
Import Verifier JobStore Webhook Handlers.

Lemma getJobStatus_reads payload w :
  let key := buildJobKey (prop payload "jobId") in
  exists out trail,
    getJobStatus env payload w =
      (out, mkWorld (storage w) (calls w ++ trail)).
Proof.
  intros key. unfold getJobStatus.
  destruct (truthy (prop payload "jobId")); simpl.
  2:{ eexists _, []. rewrite app_nil_r. by destruct w. }
  unfold getJobRecord, mbind, handler_bind. rewrite storageGet_cases.
  destruct (storageFault env _); [by eexists _, _|].
  destruct (truthy (default VUndef _)); simpl; by eexists _, _.
Qed.

(** C2, as the code has it. Once a job record is settled ([completed],
    [failed] or [cancelled]), a cancellation request, a status query and
    the dispatch of an accepted callback whose delivery id is already in
    [processedWebhookIds] leave the storage, and so the record, exactly as
    it was. *)
Theorem settled_record_kept (jobId record : jsval) (w : world) :
  let key := buildJobKey jobId in
  truthy jobId = true ->
  storageFault env (StorageGet key) = None ->
  storage w !! key = Some record ->
  prop record "status" ∈ [VStr "completed"; VStr "failed"; VStr "cancelled"] ->
  (forall payload,
     prop payload "jobId" = jobId ->
     exists reply w',
       cancelJob env payload w = (Returned reply, w')
       /\ storage w' = storage w)
  /\ (forall payload,
        prop payload "jobId" = jobId ->
        exists out w',
          getJobStatus env payload w = (out, w') /\ storage w' = storage w)
  /\ (forall event context w1 secret webhookEvent deliveryId ledger,
        let headers := normaliseHeaders (eventHeaders event) in
        ensureWebhookSecret env context w = (Returned secret, w1) ->
        truthy secret = true ->
        unwrapWith env secret (rawBodyOf event) headers = inr webhookEvent ->
        prop (prop webhookEvent "data") "id" = jobId ->
        normaliseHeaderValue (get headers "webhook-id") = VStr deliveryId ->
        deliveryId <> "" ->
        prop record "processedWebhookIds" = VArr ledger ->
        VStr deliveryId ∈ ledger ->
        exists response w',
          run env event context w = (Returned response, w')
          /\ storage w' = storage w).
Proof.
  intros key Hid Hget Hrec Hfinal. split; [|split].
  - intros payload <-. eexists _, _. split.
    + apply cancelJob_final; try done. by apply isFinal_spec.
    + done.
  - intros payload <-.
    destruct (getJobStatus_reads payload w) as (out & trail & Hrun).
    eexists _, _. split; [exact Hrun|done].
  - intros event context w1 secret webhookEvent deliveryId ledger headers
      Hsecret Htruthy Hunwrap <- Hwid Hne Hledger Hin. subst headers.
    rewrite (run_verified env event context w secret w1 webhookEvent
               Hsecret Htruthy Hunwrap).
    pose proof (ensureWebhookSecret_storage env context w secret w1 Hsecret)
      as Hstore.
    rewrite <- Hstore in Hrec.
    rewrite (dispatch_duplicate env _ webhookEvent w1 record deliveryId
               ledger Hid Hget Hrec Hwid Hne Hledger Hin).
    eexists _, _. split; [done|]. done.
Qed.

End SettledTheorem.

Lemma settled_record_kept_witness :
  storage Examples.settledWorld
    !! JobStore.buildJobKey (rt := Ref.runtime) (VStr "resp_1")
    = Some Examples.settledRecord
  /\ exists reply w',
       Handlers.cancelJob (rt := Ref.runtime) Examples.quiet
         Examples.cancelPayload Examples.settledWorld = (Returned reply, w')
       /\ storage w' = storage Examples.settledWorld.
Proof.
  split; [reflexivity|].
  apply (proj1 (settled_record_kept (rt := Ref.runtime)
                  (helpers := Ref.helpers) Examples.quiet (VStr "resp_1")
                  Examples.settledRecord Examples.settledWorld
                  eq_refl eq_refl eq_refl (list_elem_of_here _ _))).
  reflexivity.
Defined.

(** C2 as stated fails: a completed job is made [failed] by a callback
    with a delivery id not yet in its ledger, and is made [queued] again
    by a store update. *)
Lemma settled_record_overwritten :
  prop Examples.settledRecord "status" = VStr "completed"
  /\ prop
       (default VUndef
          (storage
             (snd (Webhook.run (rt := Ref.runtime) (helpers := Ref.helpers)
                     (Examples.answering Examples.failedArtifact)
                     Examples.secondDelivery Examples.withSecret
                     Examples.settledWorld))
           !! "async-job:resp_1"))
       "status"
     = VStr "failed"
  /\ prop
       (default VUndef
          (storage
             (snd (JobStore.updateJobRecord (rt := Ref.runtime)
                     Examples.quiet (VStr "resp_1")
                     {[ "status" := VStr "queued" ]}
                     Examples.settledWorld))
           !! "async-job:resp_1"))
       "status"
     = VStr "queued".
Proof. split; [reflexivity|]. split; by vm_compute. Qed.

Section ReplayFacts.
Context {rt : NodeRuntime} {helpers : ResultHelpers} (env : environment).
Import Verifier JobStore Webhook.

Lemma strictEq_string d v : strictEq (VStr d) v = true <-> v = VStr d.
Proof.
  destruct v; simpl; try (split; [discriminate|done]).
  rewrite String.eqb_eq. split; [by intros ->|by intros [= ->]].
Qed.

(** The last element of a list survives the removal of duplicates, under
    its first occurrence. *)
Lemma distinct_last seen l d :
  existsb (strictEq (VStr d)) seen = false ->
  VStr d ∈ distinct seen (l ++ [VStr d]).
Proof.
  revert seen. induction l as [|y l IH]; intros seen Hseen; simpl.
  - rewrite Hseen. left.
  - destruct (existsb (strictEq y) seen) eqn:Hy; [by apply IH|].
    destruct (strictEq (VStr d) y) eqn:Hd.
    + apply strictEq_string in Hd as ->. left.
    + right. apply IH. rewrite existsb_app, Hseen.
      cbn [existsb orb]. by rewrite Hd.
Qed.

(** A fresh delivery id is entered in the ledger that is written. *)
Lemma buildProcessedList_enters ledger d :
  d <> "" ->
  exists ledger',
    buildProcessedList (VArr ledger) (VStr d) = inr (VArr ledger')
    /\ VStr d ∈ ledger'.
Proof.
  intros Hne. unfold buildProcessedList. simpl. unfold Text.nonEmpty.
  destruct (String.eqb_spec d "") as [->|_]; [done|]. simpl.
  eexists. split; [reflexivity|]. by apply distinct_last.
Qed.

(** When settling returns, the record holds the ledger that was built. *)
Lemma settle_records jobId trackedJob webhookId eventType retrieved
  processed w response w' :
  buildProcessedList (prop trackedJob "processedWebhookIds") webhookId
    = inr processed ->
  settle env jobId trackedJob webhookId eventType retrieved w
    = (Returned response, w') ->
  holdsLedger w' jobId processed.
Proof.
  intros Hbuild. unfold settle.
  assert (Hwritten : forall updates w0 updated w2,
    updates !! "processedWebhookIds" = Some processed ->
    updateJobRecord env jobId updates w0 = (Returned updated, w2) ->
    holdsLedger w2 jobId processed).
  { intros updates w0 updated w2 Hup Hrun.
    destruct (updateJobRecord_cases env jobId updates w0)
      as [Hok|(e & trail & Hfail)]; rewrite Hrun in *; [|done].
    injection Hok as -> ->. unfold holdsLedger. cbn [storage].
    eexists. split; [by rewrite lookup_insert_eq|].
    unfold prop, get. rewrite mergedRecord_plain.
    - by rewrite (lookup_union_Some_l _ _ _ _ Hup).
    - rewrite !not_elem_of_cons. repeat split; try done.
      apply not_elem_of_nil. }
  destruct retrieved as [error|responsePayload].
  - unfold settleRetrieveFailed. rewrite Hbuild. simpl. rewrite ret_bind.
    unfold mbind at 1, handler_bind at 1.
    destruct (updateJobRecord env jobId _ w) as [[updated|e] w2] eqn:Hup;
      [|done].
    rewrite publish_then_ack. intros [= <- <-].
    eapply Hwritten in Hup; [exact Hup|by apply statusUpdate_ledger].
  - rewrite Hbuild. simpl. rewrite ret_bind.
    destruct (negb (isDefined responsePayload) || isNull responsePayload);
      [done|].
    destruct (strictEq _ _ && truthy _).
    + unfold settleCompleted.
      destruct (shapeResult trackedJob _) as [e|result]; simpl; [done|].
      rewrite ret_bind. unfold mbind at 1, handler_bind at 1.
      destruct (updateJobRecord env jobId _ w) as [[updated|e] w2] eqn:Hup;
        [|done].
      rewrite publish_then_ack. intros [= <- <-].
      eapply Hwritten in Hup; [exact Hup|by apply statusUpdate_ledger].
    + unfold settleFailure. unfold mbind at 1, handler_bind at 1.
      destruct (updateJobRecord env jobId _ w) as [[updated|e] w2] eqn:Hup;
        [|done].
      rewrite publish_then_ack. intros [= <- <-].
      eapply Hwritten in Hup; [exact Hup|by apply statusUpdate_ledger].
Qed.

Lemma ensureWebhookSecret_again context w secret w1 w2 :
  ensureWebhookSecret env context w = (Returned secret, w1) ->
  exists w3, ensureWebhookSecret env context w2 = (Returned secret, w3)
             /\ storage w3 = storage w2.
Proof.
  unfold ensureWebhookSecret.
  destruct (negb (truthy _)).
  - unfold tryCatch, storageGetSecret, record, modify, mbind, handler_bind.
    simpl. destruct (storedSecret env); simpl; intros [= <- _]; eauto.
  - intros [= <- _]. eauto.
Qed.

(** Replaying an accepted delivery after it was applied: the first
    application, when it returns, has entered the delivery id in the
    ledger, so the second is acknowledged as a duplicate and changes
    nothing. *)
Lemma replayed_delivery_ignored event context w w1 secret webhookEvent
  record deliveryId ledger response w' :
  let headers := normaliseHeaders (eventHeaders event) in
  let jobId := prop (prop webhookEvent "data") "id" in
  let key := buildJobKey jobId in
  ensureWebhookSecret env context w = (Returned secret, w1) ->
  truthy secret = true ->
  unwrapWith env secret (rawBodyOf event) headers = inr webhookEvent ->
  truthy jobId = true ->
  storageFault env (StorageGet key) = None ->
  storage w !! key = Some record ->
  normaliseHeaderValue (get headers "webhook-id") = VStr deliveryId ->
  deliveryId <> "" ->
  prop record "processedWebhookIds" = VArr ledger ->
  run env event context w = (Returned response, w') ->
  exists w2,
    run env event context w' =
      (Returned (mkResponse 200 "Ack: duplicate"), w2)
    /\ storage w2 = storage w'.
Proof.
  intros headers jobId key Hsecret Htruthy Hunwrap Hid Hget Hrec Hwid Hne
    Hledger Hrun. subst headers jobId key.
  destruct (ensureWebhookSecret_again context w secret w1 w' Hsecret)
    as (w3 & Hsecret' & Hstore3).
  rewrite (run_verified env event context w' secret w3 webhookEvent
             Hsecret' Htruthy Hunwrap).
  assert (Hheld : exists ledger',
            holdsLedger w' (prop (prop webhookEvent "data") "id")
              (VArr ledger')
            /\ VStr deliveryId ∈ ledger').
  { rewrite (run_verified env event context w secret w1 webhookEvent
               Hsecret Htruthy Hunwrap) in Hrun.
    pose proof (ensureWebhookSecret_storage env context w secret w1 Hsecret)
      as Hstore.
    rewrite <- Hstore in Hrec.
    rewrite (dispatch_tracked env _ webhookEvent w1 record Hid Hget Hrec
               (ledger_truthy _ _ Hledger)) in Hrun.
    rewrite Hwid in Hrun.
    destruct (alreadyProcessed record (VStr deliveryId)) as [e|[|]] eqn:Hdup;
      [done| |].
    - injection Hrun as _ <-. exists ledger. split.
      + exists record. by split.
      + unfold alreadyProcessed in Hdup. rewrite Hledger in Hdup.
        destruct (negb (truthy (VStr deliveryId))); [done|].
        injection Hdup as Hdup. apply existsb_exists in Hdup
          as (v & Hin & Heq). apply strictEq_string in Heq as ->.
        by apply list_elem_of_In.
    - destruct (buildProcessedList_enters ledger deliveryId Hne)
        as (ledger' & Hbuild & Hin).
      exists ledger'. split; [|done].
      eapply settle_records; [|exact Hrun]. by rewrite Hledger. }
  destruct Hheld as (ledger' & (record' & Hrec' & Hledger') & Hin).
  rewrite <- Hstore3 in Hrec'.
  rewrite (dispatch_duplicate env _ webhookEvent w3 record' deliveryId
             ledger' Hid Hget Hrec' Hwid Hne Hledger' Hin).
  eexists. split; [reflexivity|]. done.
Qed.

End ReplayFacts.

Section AcknowledgementFacts.
Context {rt : NodeRuntime} {helpers : ResultHelpers} (env : environment).
Import Verifier JobStore Webhook.

(** A callback that fails verification is answered 400 after the secret
    lookup alone: no job record is read or written. *)
Lemma run_rejected_untouched event context w secret w1 reason :
  ensureWebhookSecret env context w = (Returned secret, w1) ->
  truthy secret = true ->
  unwrapWith env secret (rawBodyOf event)
    (normaliseHeaders (eventHeaders event)) = inl reason ->
  exists trail,
    run env event context w =
      (Returned (mkResponse 400 "Invalid webhook signature"),
       mkWorld (storage w) (calls w ++ trail))
    /\ (trail = [] \/ trail = [StorageGetSecret "openaiWebhookSecret"]).
Proof.
  intros Hsecret Htruthy Hunwrap.
  rewrite (run_rejected env event context w secret w1 reason
             Hsecret Htruthy Hunwrap).
  destruct (ensureWebhookSecret_run env context w)
    as (secret' & trail & Hrun & Htrail).
  rewrite Hrun in Hsecret. injection Hsecret as _ <-. by exists trail.
Qed.

Lemma dispatch_missing_id headers webhookEvent w :
  truthy (prop (prop webhookEvent "data") "id") = false ->
  dispatch env headers webhookEvent w =
    (Returned (mkResponse 200 "Ack: missing job id"), w).
Proof. intros H. unfold dispatch. by rewrite H. Qed.

Lemma dispatch_untracked headers webhookEvent w :
  let jobId := prop (prop webhookEvent "data") "id" in
  let key := buildJobKey jobId in
  truthy jobId = true ->
  storageFault env (StorageGet key) = None ->
  storage w !! key = None ->
  dispatch env headers webhookEvent w =
    (Returned (mkResponse 200 "Ack: job not tracked"),
     mkWorld (storage w) (calls w ++ [StorageGet key])).
Proof.
  intros jobId key Hid Hget Hnone. unfold dispatch. fold jobId.
  rewrite Hid. simpl. unfold getJobRecord. fold key.
  rewrite (bind_returned _ _ _ _ _ (storageGet_ok _ _ w Hget)).
  by rewrite Hnone.
Qed.

(** With a storage that answers, a failed retrieval and an artifact that
    is not a completed one with output text are both acknowledged. *)
Lemma settle_acknowledged jobId trackedJob webhookId eventType retrieved
  processed w :
  (forall c, storageFault env c = None) ->
  buildProcessedList (prop trackedJob "processedWebhookIds") webhookId
    = inr processed ->
  match retrieved with
  | inl _ => True
  | inr responsePayload =>
      isDefined responsePayload = true /\ isNull responsePayload = false
      /\ strictEq (prop responsePayload "status") (VStr "completed")
         && truthy (extractOutputText responsePayload) = false
  end ->
  exists body w',
    settle env jobId trackedJob webhookId eventType retrieved w
      = (Returned (mkResponse 200 body), w').
Proof.
  intros Hok Hbuild Hcase. unfold settle.
  destruct retrieved as [error|responsePayload].
  - unfold settleRetrieveFailed. rewrite Hbuild. simpl. rewrite ret_bind.
    erewrite bind_returned; [|by apply updateJobRecord_run].
    rewrite publish_then_ack. by eexists _, _.
  - destruct Hcase as (Hdef & Hnull & Hnot).
    rewrite Hbuild. simpl. rewrite ret_bind. rewrite Hdef, Hnull, Hnot.
    simpl. unfold settleFailure.
    erewrite bind_returned; [|by apply updateJobRecord_run].
    rewrite publish_then_ack. by eexists _, _.
Qed.

End AcknowledgementFacts.

(** C4 fails on a completed artifact whose output text is not JSON: the
    callback is accepted, the artifact is retrieved, and then the handler
    throws instead of answering 200; the job record is not updated. *)
Lemma run_unparsable_output_throws :
  Webhook.run (rt := Ref.runtime) (helpers := Ref.helpers)
    (Examples.answering Examples.proseArtifact)
    Examples.nativeDelivery Examples.withSecret
    (Examples.oneJob "resp_1" "queued" [])
  = (Thrown
       (Error "Failed to parse final response: Unexpected token in JSON"),
     mkWorld (storage (Examples.oneJob "resp_1" "queued" []))
       [StorageGet "async-job:resp_1"; RetrieveCompletion (VStr "resp_1")]).
Proof. by vm_compute. Qed.

(** * Further properties of the job store *)

Lemma bind_liftE {A B} (r : jsError + A) (f : A -> handler B) w :
  (liftE r ≫= f) w
    = match r with inl e => (Thrown e, w) | inr a => f a w end.
Proof. by destruct r. Qed.

Section CreationCases.
Context {rt : NodeRuntime} (env : environment).
Import JobStore.

Lemma createJobRecord_cases fields w :
  let key := buildJobKey (get fields "jobId") in
  (exists e, createJobRecord env fields w = (Thrown e, w))
  \/ (exists (record : jsobj) days,
        createJobRecord env fields w
        = (match storageFault env (StorageSet key (VObj record)) with
           | Some e => Thrown e
           | None => Returned (VObj record)
           end,
           mkWorld
             (match storageFault env (StorageSet key (VObj record)) with
              | Some _ => storage w
              | None => <[key := VObj record]> (storage w)
              end)
             (calls w ++ [StorageSet key (VObj record)]))
        /\ toNumber (withDefault (VNum DEFAULT_RETENTION_DAYS)
                       (get fields "retentionDays")) = Fin days
        /\ record !! "expiresAt"
           = Some (VStr (toISOString (dateNow env + days * MILLIS_PER_DAY)))
        /\ record !! "jobId" = Some (get fields "jobId")
        /\ record !! "jobType" = Some (get fields "jobType")
        /\ record !! "status" = Some (get fields "status")
        /\ record !! "createdAt" = Some (VStr (nowIso env))
        /\ record !! "updatedAt" = Some (VStr (nowIso env))
        /\ record !! "result" = Some VNull
        /\ record !! "error" = Some VNull
        /\ record !! "processedWebhookIds" = Some (VArr [])).
Proof.
  intros key. unfold createJobRecord. rewrite bind_liftE.
  unfold computeExpiryTimestamp.
  destruct (toNumber _) as [| | |days] eqn:Hdays; eauto.
  destruct (Z.abs _ <=? MAX_TIME_VALUE); [|eauto].
  rewrite bind_liftE.
  destruct (cloneOrNull_ok (get fields "invoker")) as [invoker ->].
  rewrite bind_liftE.
  destruct (cloneOrNull_ok (get fields "llmCharacters")) as [chars ->].
  rewrite bind_liftE.
  destruct (cloneOrNull_ok (get fields "vectorStats")) as [stats ->].
  rewrite bind_liftE.
  destruct (auxiliaryDataOf _) as [e|auxiliary]; eauto.
  right. fold key.
  match goal with
  | |- context [storageSet env key (VObj ?r)] => exists r, days
  end.
  split.
  { unfold mbind, handler_bind. rewrite storageSet_cases.
    by destruct (storageFault env _). }
  split; [done|]. by repeat split.
Qed.

End CreationCases.

Section CreationTheorems.
Context {rt : NodeRuntime} (env : environment).
Import JobStore.

(** X1. A job record that [createJobRecord] returns is the value stored
    under the job's key by one write, and [getJobRecord] reads it back;
    it carries the identifier, type and status given, the current time as
    its creation and update time, an expiry the retention (14 days when
    none is given) after now, no result, no error and an empty ledger of
    delivery ids. *)
Theorem created_record_read_back (fields : jsobj) (w w1 : world)
  (record : jsval) :
  let jobId := get fields "jobId" in
  let key := buildJobKey jobId in
  createJobRecord env fields w = (Returned record, w1) ->
  storage w1 = <[key := record]> (storage w)
  /\ calls w1 = (calls w ++ [StorageSet key record])%list
  /\ prop record "jobId" = jobId
  /\ prop record "jobType" = get fields "jobType"
  /\ prop record "status" = get fields "status"
  /\ prop record "createdAt" = VStr (nowIso env)
  /\ prop record "updatedAt" = VStr (nowIso env)
  /\ (exists days,
        toNumber (withDefault (VNum 14) (get fields "retentionDays"))
          = Fin days
        /\ prop record "expiresAt"
           = VStr (toISOString (dateNow env + days * 86400000)))
  /\ prop record "result" = VNull
  /\ prop record "error" = VNull
  /\ prop record "processedWebhookIds" = VArr []
  /\ (storageFault env (StorageGet key) = None ->
      getJobRecord env jobId w1
        = (Returned record,
           mkWorld (storage w1) (calls w1 ++ [StorageGet key]))).
Proof.
  intros jobId key Hrun.
  destruct (createJobRecord_cases env fields w)
    as [[e He]|(r & days & Hr & Hdays & Hexp & Hid & Hty & Hst & Hc & Hu
                  & Hres & Herr & Hled)];
    rewrite Hrun in *; [done|].
  fold jobId key in Hr.
  destruct (storageFault env (StorageSet key (VObj r))); [done|].
  injection Hr as -> ->. cbn [storage calls].
  unfold prop, get. rewrite Hid, Hty, Hst, Hc, Hu, Hexp, Hres, Herr, Hled.
  repeat split; try done.
  - by exists days.
  - intros Hget. unfold getJobRecord. fold key.
    rewrite storageGet_cases, Hget. cbn [storage calls].
    by rewrite lookup_insert_eq.
Qed.

(** X2. A creation that throws has stored nothing: either it failed
    before any call was made, or its one write was refused by the
    storage. *)
Theorem failed_creation_stores_nothing (fields : jsobj) (w w1 : world)
  (e : jsError) :
  let key := buildJobKey (get fields "jobId") in
  createJobRecord env fields w = (Thrown e, w1) ->
  storage w1 = storage w
  /\ (calls w1 = calls w
      \/ exists record,
           calls w1 = (calls w ++ [StorageSet key record])%list
           /\ storageFault env (StorageSet key record) = Some e).
Proof.
  intros key Hrun.
  destruct (createJobRecord_cases env fields w)
    as [[e' He]|(r & days & Hr & _)]; rewrite Hrun in *.
  - injection He as _ ->. by split; [|left].
  - fold key in Hr.
    destruct (storageFault env (StorageSet key (VObj r))) eqn:Hf; [|done].
    injection Hr as -> ->. split; [done|]. right. by exists (VObj r).
Qed.

End CreationTheorems.

Lemma created_record_read_back_witness :
  exists record w1,
    JobStore.createJobRecord (rt := Ref.runtime) Examples.quiet
      Samples.newJob Examples.emptyWorld = (Returned record, w1)
    /\ prop record "expiresAt" = VStr "2023-11-28T22:13:20.000Z"
    /\ JobStore.getJobRecord (rt := Ref.runtime) Examples.quiet
         (VStr "resp_7") w1
       = (Returned record,
          mkWorld (storage w1) (calls w1 ++ [StorageGet "async-job:resp_7"])).
Proof.
  destruct (JobStore.createJobRecord (rt := Ref.runtime) Examples.quiet
              Samples.newJob Examples.emptyWorld)
    as [[record|e] w1] eqn:Hrun; [|by vm_compute in Hrun].
  exists record, w1. split; [done|].
  destruct (created_record_read_back (rt := Ref.runtime) Examples.quiet
              _ _ _ _ Hrun)
    as (_ & _ & _ & _ & _ & _ & _ & (days & Hdays & Hexp) & _ & _ & _ & Hget).
  split.
  - rewrite Hexp. vm_compute in Hdays. injection Hdays as <-.
    by vm_compute.
  - by apply Hget.
Defined.

Lemma failed_creation_stores_nothing_witness :
  exists w1,
    JobStore.createJobRecord (rt := Ref.runtime) Examples.quiet
      Samples.undatedJob Examples.emptyWorld
      = (Thrown (RangeError "Invalid time value"), w1)
    /\ storage w1 = storage Examples.emptyWorld.
Proof.
  destruct (JobStore.createJobRecord (rt := Ref.runtime) Examples.quiet
              Samples.undatedJob Examples.emptyWorld)
    as [[record|e] w1] eqn:Hrun; [by vm_compute in Hrun|].
  exists w1. split.
  - vm_compute in Hrun. by injection Hrun as <- <-.
  - exact (proj1 (failed_creation_stores_nothing (rt := Ref.runtime)
                    Examples.quiet _ _ _ _ Hrun)).
Defined.

(** * Further properties of the resolvers *)

Section ResolverTheorems.
Context {rt : NodeRuntime} (env : environment).
Import JobStore Handlers.

(** X3. Once [deleteJobRecord] has returned, the job's key holds nothing
    and every other key holds what it held; a status query and a
    cancellation request for the job are then both answered "No
    background job found", after one read and with no call to the
    provider and no write. *)
Theorem deleted_job_is_not_found (jobId payload : jsval) (w w1 : world) :
  let key := buildJobKey jobId in
  let notFound :=
    failureReply ("No background job found for id " ++ toStr jobId ++ ".") in
  deleteJobRecord env jobId w = (Returned tt, w1) ->
  prop payload "jobId" = jobId ->
  truthy jobId = true ->
  storageFault env (StorageGet key) = None ->
  storage w1 = delete key (storage w)
  /\ getJobStatus env payload w1
     = (Returned notFound, mkWorld (storage w1) (calls w1 ++ [StorageGet key]))
  /\ cancelJob env payload w1
     = (Returned notFound, mkWorld (storage w1) (calls w1 ++ [StorageGet key])).
Proof.
  intros key notFound Hdel Hpayload Hid Hget.
  unfold deleteJobRecord in Hdel. fold key in Hdel.
  assert (Hst : storage w1 = delete key (storage w)).
  { destruct (storageFault env (StorageDelete key)) as [e|] eqn:Hf.
    - by rewrite (storageDelete_fault _ _ _ _ Hf) in Hdel.
    - rewrite (storageDelete_ok _ _ _ Hf) in Hdel. by injection Hdel as <-. }
  split; [done|].
  assert (Hnone : storage w1 !! key = None)
    by (rewrite Hst; apply lookup_delete_eq).
  split.
  - unfold getJobStatus. rewrite Hpayload, Hid. simpl.
    unfold getJobRecord. fold key.
    rewrite (bind_returned _ _ _ _ _ (storageGet_ok _ _ w1 Hget)).
    by rewrite Hnone.
  - unfold cancelJob. rewrite Hpayload, Hid. simpl.
    unfold getJobRecord. fold key.
    rewrite (bind_returned _ _ _ _ _ (storageGet_ok _ _ w1 Hget)).
    by rewrite Hnone.
Qed.

(** X4. For a tracked job, the status query reads the record once and
    answers with every property of the record except the ledger of
    delivery ids; it writes nothing and calls nobody else. *)
Theorem status_query_reports_record (payload record : jsval) (w : world) :
  let jobId := prop payload "jobId" in
  let key := buildJobKey jobId in
  truthy jobId = true ->
  storageFault env (StorageGet key) = None ->
  storage w !! key = Some record ->
  truthy record = true ->
  exists job : jsobj,
    getJobStatus env payload w
      = (Returned (VObj (list_to_map
                           [("success", VBool true); ("job", VObj job)])),
         mkWorld (storage w) (calls w ++ [StorageGet key]))
    /\ job !! "processedWebhookIds" = None
    /\ forall k, k <> "processedWebhookIds" -> job !! k = spread record !! k.
Proof.
  intros jobId key Hid Hget Hrec Htruthy.
  exists (delete "processedWebhookIds" (spread record)). split.
  - unfold getJobStatus. fold jobId. rewrite Hid. simpl.
    unfold getJobRecord. fold key.
    rewrite (bind_returned _ _ _ _ _ (storageGet_ok _ _ w Hget)).
    by rewrite Hrec; simpl; rewrite Htruthy.
  - split; [apply lookup_delete_eq|].
    intros k Hk. by rewrite lookup_delete_ne.
Qed.

(** X5. Cancelling a tracked job that is not settled, when the provider
    accepts and the storage answers: the provider is asked once, the
    record is rewritten with status [cancelled], no result and the error
    [cancelled_by_user] carrying the provider's status, every other
    property of the record (the ledger included) is kept, the event
    [job-analysis-cancelled] or [job-response-cancelled] is published by
    job type, and the reply carries the new record without its ledger. *)
Theorem cancellation_settles_job (payload cancelResponse : jsval)
  (record : jsobj) (w : world) :
  let jobId := prop payload "jobId" in
  let key := buildJobKey jobId in
  truthy jobId = true ->
  (forall c, storageFault env c = None) ->
  storage w !! key = Some (VObj record) ->
  isFinal (get record "status") = false ->
  cancelCompletion env jobId = inr cancelResponse ->
  exists (updated failure : jsobj) (eventKey : string),
    cancelJob env payload w
      = (Returned (VObj (list_to_map
                           [("success", VBool true);
                            ("job",
                             VObj (delete "processedWebhookIds" updated))])),
         mkWorld (<[key := VObj updated]> (storage w))
           (calls w ++ [StorageGet key; CancelCompletion jobId;
                        StorageGet key; StorageSet key (VObj updated);
                        PublishAppEvent eventKey]))
    /\ updated !! "status" = Some (VStr "cancelled")
    /\ updated !! "result" = Some VNull
    /\ updated !! "error" = Some (VObj failure)
    /\ failure !! "reason" = Some (VStr "cancelled_by_user")
    /\ failure !! "openaiStatus" = safeClone (prop cancelResponse "status")
    /\ updated !! "updatedAt" = Some (VStr (nowIso env))
    /\ (forall k,
          k ∉ ["status"; "result"; "error"; "updatedAt"] ->
          updated !! k = record !! k)
    /\ eventKey
       = (if strictEq (get record "jobType") (VStr "analysis")
          then "job-analysis-cancelled" else "job-response-cancelled").
Proof.
  intros jobId key Hid Hok Hrec Hfinal Hcancel.
  set (updated := mergedRecord env (VObj record) (cancellation cancelResponse)).
  assert (Hother : forall k,
    k ∉ ["status"; "result"; "error"; "updatedAt"] ->
    updated !! k = record !! k).
  { intros k Hk. rewrite !not_elem_of_cons in Hk.
    destruct Hk as (? & ? & ? & ? & _).
    unfold updated. rewrite mergedRecord_kept; [done| |].
    - unfold cancellation. simpl.
      rewrite !lookup_insert_ne by done. apply lookup_empty.
    - rewrite !not_elem_of_cons. repeat split; try done.
      apply not_elem_of_nil. }
  destruct (mergedRecord_deep env (VObj record) (cancellation cancelResponse)
              "error"
              (VObj (list_to_map
                       [("reason", VStr "cancelled_by_user");
                        ("message",
                         VStr "Job cancelled at the request of the agent.");
                        ("openaiStatus", prop cancelResponse "status")])))
    as (copy & Hcopy & Herror); try done.
  { rewrite !elem_of_cons. right. by left. }
  simpl in Hcopy. injection Hcopy as <-. fold updated in Herror.
  eexists updated, _,
    (if strictEq (get record "jobType") (VStr "analysis")
     then "job-analysis-cancelled" else "job-response-cancelled").
  split.
  { unfold cancelJob. fold jobId. rewrite Hid. simpl.
    unfold getJobRecord. fold key.
    rewrite (bind_returned _ _ _ _ _ (storageGet_ok _ _ w (Hok _))).
    rewrite Hrec. simpl. rewrite Hfinal.
    unfold mbind at 1, handler_bind at 1. rewrite providerCancel_run, Hcancel.
    cbn [storage calls].
    unfold mbind at 1, handler_bind at 1.
    pose proof (updateJobRecord_run env jobId (cancellation cancelResponse)
                  (mkWorld (storage w)
                     ((calls w ++ [StorageGet key])
                        ++ [CancelCompletion jobId]))) as Hup.
    cbn [storage calls] in Hup. fold key in Hup. rewrite Hrec in Hup.
    simpl in Hup. unfold Js.or in Hup. simpl in Hup.
    rewrite (Hup (Hok _) (Hok _)). fold updated.
    rewrite (bind_returned _ _ _ _ _ (publishAppEvent_run _ _)).
    cbn [storage calls prop].
    assert (Hty : get updated "jobType" = get record "jobType").
    { unfold get. rewrite Hother; [done|].
      rewrite !not_elem_of_cons. repeat split; try done.
      apply not_elem_of_nil. }
    rewrite Hty. unfold mret, handler_ret, sanitise. simpl.
    by rewrite <- !app_assoc. }
  split.
  { unfold updated. rewrite mergedRecord_status. reflexivity. }
  split.
  { destruct (mergedRecord_deep env (VObj record)
                (cancellation cancelResponse) "result" VNull)
      as (copy & Hcopy & Hl); try done.
    - rewrite !elem_of_cons. by left.
    - simpl in Hcopy. injection Hcopy as <-. exact Hl. }
  split; [exact Herror|].
  split; [by rewrite lookup_omap|].
  split.
  { rewrite lookup_omap, !lookup_insert_ne by done.
    by rewrite lookup_insert_eq. }
  split; [apply mergedRecord_updatedAt|].
  by split.
Qed.

(** X6. When the provider refuses the cancellation of a tracked,
    unsettled job, the resolver fails with the provider's error after the
    one read and the one provider call: the record is not rewritten and
    no event is published. *)
Theorem refused_cancellation_changes_nothing (payload record : jsval)
  (w : world) (e : jsError) :
  let jobId := prop payload "jobId" in
  let key := buildJobKey jobId in
  truthy jobId = true ->
  storageFault env (StorageGet key) = None ->
  storage w !! key = Some record ->
  truthy record = true ->
  isFinal (prop record "status") = false ->
  cancelCompletion env jobId = inl e ->
  cancelJob env payload w
    = (Thrown e,
       mkWorld (storage w)
         (calls w ++ [StorageGet key; CancelCompletion jobId])).
Proof.
  intros jobId key Hid Hget Hrec Htruthy Hfinal Hcancel.
  unfold cancelJob. fold jobId. rewrite Hid. simpl.
  unfold getJobRecord. fold key.
  rewrite (bind_returned _ _ _ _ _ (storageGet_ok _ _ w Hget)).
  rewrite Hrec. simpl. rewrite Htruthy, Hfinal. simpl.
  unfold mbind at 1, handler_bind at 1. rewrite providerCancel_run, Hcancel.
  cbn [storage calls]. by rewrite <- app_assoc.
Qed.

End ResolverTheorems.

Lemma deleted_job_is_not_found_witness :
  exists w1,
    JobStore.deleteJobRecord (rt := Ref.runtime) Examples.quiet
      (VStr "resp_1") Examples.settledWorld = (Returned tt, w1)
    /\ storage w1 = ∅
    /\ Handlers.getJobStatus (rt := Ref.runtime) Examples.quiet
         (Requests.about "resp_1") w1
       = (Returned (Handlers.failureReply
                      "No background job found for id resp_1."),
          mkWorld (storage w1) (calls w1 ++ [StorageGet "async-job:resp_1"])).
Proof.
  destruct (JobStore.deleteJobRecord (rt := Ref.runtime) Examples.quiet
              (VStr "resp_1") Examples.settledWorld)
    as [[[]|e] w1] eqn:Hrun; [|by vm_compute in Hrun].
  exists w1. split; [done|].
  destruct (deleted_job_is_not_found (rt := Ref.runtime) Examples.quiet
              (VStr "resp_1") (Requests.about "resp_1") _ _ Hrun
              eq_refl eq_refl eq_refl) as (Hst & Hstatus & _).
  split; [|exact Hstatus].
  rewrite Hst. by vm_compute.
Defined.

Lemma status_query_reports_record_witness :
  exists job : jsobj,
    Handlers.getJobStatus (rt := Ref.runtime) Examples.quiet
      Examples.cancelPayload Examples.settledWorld
    = (Returned (VObj (list_to_map
                         [("success", VBool true); ("job", VObj job)])),
       mkWorld (storage Examples.settledWorld)
         (calls Examples.settledWorld
            ++ [StorageGet
                  (JobStore.buildJobKey (rt := Ref.runtime)
                     (prop Examples.cancelPayload "jobId"))]))
    /\ job !! "processedWebhookIds" = None
    /\ forall k,
         k <> "processedWebhookIds" ->
         job !! k = spread Examples.settledRecord !! k.
Proof.
  apply (status_query_reports_record (rt := Ref.runtime) Examples.quiet
           Examples.cancelPayload Examples.settledRecord
           Examples.settledWorld); reflexivity.
Defined.

Lemma cancellation_settles_job_witness :
  exists (updated failure : jsobj) (eventKey : string),
    Handlers.cancelJob (rt := Ref.runtime)
      (Requests.cancelling Requests.cancelledArtifact)
      Examples.cancelPayload (Examples.oneJob "resp_1" "queued" [VStr "wh_0"])
    = (Returned (VObj (list_to_map
                         [("success", VBool true);
                          ("job",
                           VObj (delete "processedWebhookIds" updated))])),
       mkWorld
         (<[JobStore.buildJobKey (rt := Ref.runtime)
              (prop Examples.cancelPayload "jobId") := VObj updated]>
            (storage (Examples.oneJob "resp_1" "queued" [VStr "wh_0"])))
         (calls (Examples.oneJob "resp_1" "queued" [VStr "wh_0"])
            ++ [StorageGet
                  (JobStore.buildJobKey (rt := Ref.runtime)
                     (prop Examples.cancelPayload "jobId"));
                CancelCompletion (prop Examples.cancelPayload "jobId");
                StorageGet
                  (JobStore.buildJobKey (rt := Ref.runtime)
                     (prop Examples.cancelPayload "jobId"));
                StorageSet
                  (JobStore.buildJobKey (rt := Ref.runtime)
                     (prop Examples.cancelPayload "jobId"))
                  (VObj updated);
                PublishAppEvent eventKey]))
    /\ updated !! "status" = Some (VStr "cancelled")
    /\ failure !! "openaiStatus" = Some (VStr "cancelled")
    /\ updated !! "processedWebhookIds" = Some (VArr [VStr "wh_0"])
    /\ eventKey = "job-response-cancelled".
Proof.
  destruct (cancellation_settles_job (rt := Ref.runtime)
              (Requests.cancelling Requests.cancelledArtifact)
              Examples.cancelPayload Requests.cancelledArtifact
              (spread (Examples.jobRecord "resp_1" "queued" [VStr "wh_0"]))
              (Examples.oneJob "resp_1" "queued" [VStr "wh_0"])
              eq_refl (fun _ => eq_refl) eq_refl eq_refl eq_refl)
    as (updated & failure & eventKey & Hrun & Hst & _ & _ & _ & Hopen & _
        & Hother & Hkey).
  exists updated, failure, eventKey.
  split; [exact Hrun|]. split; [exact Hst|]. split; [exact Hopen|].
  split; [|exact Hkey].
  rewrite Hother; [reflexivity|].
  rewrite !not_elem_of_cons. repeat split; try done. apply not_elem_of_nil.
Defined.

Lemma refused_cancellation_changes_nothing_witness :
  Handlers.cancelJob (rt := Ref.runtime) Examples.quiet
    Examples.cancelPayload (Examples.oneJob "resp_1" "queued" [])
  = (Thrown Examples.unavailable,
     mkWorld (storage (Examples.oneJob "resp_1" "queued" []))
       (calls (Examples.oneJob "resp_1" "queued" [])
          ++ [StorageGet
                (JobStore.buildJobKey (rt := Ref.runtime)
                   (prop Examples.cancelPayload "jobId"));
              CancelCompletion (prop Examples.cancelPayload "jobId")])).
Proof.
  apply (refused_cancellation_changes_nothing (rt := Ref.runtime)
           Examples.quiet Examples.cancelPayload
           (Examples.jobRecord "resp_1" "queued" [])
           (Examples.oneJob "resp_1" "queued" []) Examples.unavailable);
    reflexivity.
Defined.

(** * Further properties of the retention sweep *)

Section ListingFacts.
Context {rt : NodeRuntime} (env : environment).
Import JobStore CleanupJobs.

Lemma pagesOf_concat size entries : concat (pagesOf size entries) = entries.
Proof.
  unfold pagesOf. destruct entries as [|entry entries]; [done|].
  generalize (entry :: entries). intros l.
  assert (Hcut : forall fuel (l : list (string * jsval)),
    (length l <= fuel)%nat ->
    concat
      ((fix cut (fuel : nat) (l : list (string * jsval)) :=
          match fuel, l with
          | O, _ | _, [] => []
          | S fuel', _ => take (S (pred size)) l
                          :: cut fuel' (drop (S (pred size)) l)
          end) fuel l) = l).
  { induction fuel as [|fuel IH]; intros [|x l'] Hlen; try done.
    - simpl in Hlen. lia.
    - cbn [concat]. rewrite IH.
      + apply take_drop.
      + rewrite length_drop. simpl in *. lia. }
  by apply Hcut.
Qed.

Lemma scanPages_ok pages page expired w :
  (forall p, storageFault env (StorageQuery JOB_KEY_PREFIX p) = None) ->
  scanPages env pages page expired w
    = (Returned
         (expired ++ filter (fun v => Is_true (isExpired env v))
                       (map snd (concat pages)))%list,
       mkWorld (storage w)
         (calls w ++ map (StorageQuery JOB_KEY_PREFIX)
                       (seq page (length pages)))).
Proof.
  intros Hok. revert page expired w.
  induction pages as [|results rest IH]; intros page expired w; simpl.
  - rewrite !app_nil_r. by destruct w.
  - unfold mbind at 1, handler_bind at 1.
    unfold storageCall, record, modify, mbind, handler_bind. simpl.
    rewrite Hok. simpl. rewrite IH. cbn [storage calls].
    rewrite map_app, filter_app, <- !app_assoc. reflexivity.
Qed.

Lemma pruned_lookup jobs store key :
  pruned jobs store !! key
    = if bool_decide (key ∈ map sweptKey jobs) then None else store !! key.
Proof.
  unfold pruned. revert store.
  induction jobs as [|job jobs IH]; intros store; simpl; [done|].
  rewrite IH. destruct (decide (key = sweptKey job)) as [->|Hne].
  - rewrite lookup_delete_eq, (bool_decide_eq_true_2 (_ ∈ _ :: _)).
    + by destruct (bool_decide _).
    + by left.
  - rewrite lookup_delete_ne by done.
    destruct (bool_decide (key ∈ map sweptKey jobs)) eqn:Hin.
    + apply bool_decide_eq_true_1 in Hin.
      rewrite bool_decide_eq_true_2; [done|]. by right.
    + apply bool_decide_eq_false_1 in Hin.
      rewrite bool_decide_eq_false_2; [done|].
      rewrite elem_of_cons. intros [?|?]; congruence.
Qed.

(** The values that a listing returns. *)
Lemma listExpiredJobs_run w :
  (forall page, storageFault env (StorageQuery JOB_KEY_PREFIX page) = None) ->
  exists pages,
    listExpiredJobs env w
      = (Returned
           (filter (fun v => Is_true (isExpired env v))
              (map snd
                 (filter (fun kv =>
                            Is_true
                              (Text.startsWith JOB_KEY_PREFIX (fst kv)))
                    (map_to_list (storage w))))),
         mkWorld (storage w)
           (calls w ++ map (StorageQuery JOB_KEY_PREFIX) (seq 0 (S pages)))).
Proof.
  intros Hok. unfold listExpiredJobs, gets, mbind at 1, handler_bind at 1.
  rewrite scanPages_ok by done. rewrite pagesOf_concat. cbn [storage calls].
  set (entries := filter _ (map_to_list (storage w))).
  assert (Hpages : exists pages,
    length (pagesOf (pageSize env) entries) = S pages).
  { unfold pagesOf. destruct entries as [|entry rest]; [by exists 0%nat|].
    simpl. eauto. }
  destruct Hpages as [pages Hpages]. rewrite Hpages. by exists pages.
Qed.

Lemma expired_member (store : gmap string jsval) job :
  job ∈ filter (fun v => Is_true (isExpired env v))
          (map snd
             (filter (fun kv =>
                        Is_true (Text.startsWith JOB_KEY_PREFIX (fst kv)))
                (map_to_list store)))
  <-> isExpired env job = true
      /\ exists key,
           Text.startsWith JOB_KEY_PREFIX key = true
           /\ store !! key = Some job.
Proof.
  rewrite list_elem_of_filter, list_elem_of_fmap, Is_true_true. split.
  - intros (Hexp & [key v] & -> & Hin). split; [done|].
    rewrite list_elem_of_filter in Hin.
    destruct Hin as (Hpre & Hin). exists key. split.
    + by apply Is_true_true.
    + by apply elem_of_map_to_list.
  - intros (Hexp & key & Hpre & Hin). split; [done|].
    exists (key, job). split; [done|].
    rewrite list_elem_of_filter. split.
    + by apply Is_true_true.
    + by apply elem_of_map_to_list.
Qed.

End ListingFacts.

Section SweepExactness.
Context {rt : NodeRuntime} (env : environment).
Import JobStore CleanupJobs.

(** X7. When the storage answers its queries, [listExpiredJobs] returns
    the values held under the job prefix whose [expiresAt] is set and not
    later than now, each once and no other; it only queries, page after
    page from the first, and leaves the storage as it was. *)
Theorem expired_jobs_listed (w : world) :
  (forall page, storageFault env (StorageQuery JOB_KEY_PREFIX page) = None) ->
  exists jobs pages,
    listExpiredJobs env w
      = (Returned jobs,
         mkWorld (storage w)
           (calls w ++ map (StorageQuery JOB_KEY_PREFIX) (seq 0 (S pages))))
    /\ jobs
       = filter (fun v => Is_true (isExpired env v))
           (map snd
              (filter (fun kv =>
                         Is_true (Text.startsWith JOB_KEY_PREFIX (fst kv)))
                 (map_to_list (storage w))))
    /\ forall job,
         job ∈ jobs
         <-> isExpired env job = true
             /\ exists key,
                  Text.startsWith JOB_KEY_PREFIX key = true
                  /\ storage w !! key = Some job.
Proof.
  intros Hok. destruct (listExpiredJobs_run env w Hok) as [pages Hrun].
  eexists _, pages. split; [exact Hrun|]. split; [reflexivity|].
  apply expired_member.
Qed.

(** X8. The sweep removes the expired job records and nothing else. When
    the storage answers and every expired record under the job prefix is
    stored under the key of its own [jobId], the sweep succeeds, reports
    the number of expired records, and leaves under each key what it
    held, except that the expired records under the job prefix are gone. *)
Theorem sweep_removes_the_expired (w : world) :
  (forall c, storageFault env c = None) ->
  Sweep.keyedByOwnId env (storage w) = true ->
  exists message w',
    run env w
      = (Returned
           (sweepReply
              (length
                 (filter (fun kv =>
                            Is_true
                              (Text.startsWith JOB_KEY_PREFIX (fst kv)
                               && isExpired env (snd kv)))
                    (map_to_list (storage w))))
              message),
         w')
    /\ forall key,
         storage w' !! key
         = match storage w !! key with
           | Some job =>
               if Text.startsWith JOB_KEY_PREFIX key && isExpired env job
               then None else Some job
           | None => None
           end.
Proof.
  intros Hok Hbool.
  assert (Hkeyed : forall key job,
    Text.startsWith JOB_KEY_PREFIX key = true ->
    storage w !! key = Some job ->
    isExpired env job = true ->
    sweptKey job = key).
  { intros key job Hpre Hstored Hexp.
    unfold Sweep.keyedByOwnId in Hbool. rewrite forallb_forall in Hbool.
    specialize (Hbool (key, job)). cbn [fst snd] in Hbool.
    rewrite Hpre, Hexp in Hbool. apply String.eqb_eq, Hbool.
    apply list_elem_of_In. by apply elem_of_map_to_list. }
  destruct (listExpiredJobs_run env w (fun _ => Hok _)) as [pages Hrun].
  set (jobs := filter _ (map snd _)) in Hrun.
  assert (Hcount :
    length jobs
    = length
        (filter (fun kv =>
                   Is_true
                     (Text.startsWith JOB_KEY_PREFIX (fst kv)
                      && isExpired env (snd kv)))
           (map_to_list (storage w)))).
  { unfold jobs. generalize (map_to_list (storage w)).
    induction l as [|[key v] l IH]; [done|].
    rewrite !filter_cons. cbn [fst snd].
    destruct (Text.startsWith JOB_KEY_PREFIX key); simpl; [|exact IH].
    rewrite filter_cons.
    destruct (isExpired env v); simpl; [by rewrite IH|exact IH]. }
  assert (Hlookup : forall key,
    pruned jobs (storage w) !! key
    = match storage w !! key with
      | Some job =>
          if Text.startsWith JOB_KEY_PREFIX key && isExpired env job
          then None else Some job
      | None => None
      end).
  { intros key. rewrite pruned_lookup.
    destruct (bool_decide (key ∈ map sweptKey jobs)) eqn:Hin.
    - apply bool_decide_eq_true_1, list_elem_of_fmap in Hin.
      destruct Hin as (job & -> & Hjob).
      apply expired_member in Hjob.
      destruct Hjob as (Hexp & key' & Hpre & Hstored).
      rewrite (Hkeyed _ _ Hpre Hstored Hexp), Hstored, Hpre, Hexp.
      reflexivity.
    - apply bool_decide_eq_false_1 in Hin.
      destruct (storage w !! key) as [job|] eqn:Hstored; [|done].
      destruct (Text.startsWith JOB_KEY_PREFIX key) eqn:Hpre; [|done].
      destruct (isExpired env job) eqn:Hexp; [|done].
      exfalso. apply Hin. apply list_elem_of_fmap. exists job. split.
      + symmetry. by apply Hkeyed.
      + apply expired_member. eauto. }
  unfold run. rewrite (bind_returned _ _ _ _ _ Hrun). rewrite <- Hcount.
  destruct (length jobs =? 0)%nat eqn:Hlen.
  - apply Nat.eqb_eq in Hlen. rewrite Hlen. eexists _, _.
    split; [reflexivity|]. cbn [storage]. intros key.
    rewrite <- Hlookup. by destruct jobs.
  - assert (Hall : Forall
      (fun job => storageFault env (StorageDelete (sweptKey job)) = None)
      jobs) by (apply Forall_forall; intros; apply Hok).
    rewrite (bind_returned _ _ _ _ _ (deleteAll_ok env jobs 0 _ Hall)).
    eexists _, _. split; [reflexivity|]. exact Hlookup.
Qed.

End SweepExactness.

Lemma expired_jobs_listed_witness :
  exists jobs pages,
    JobStore.listExpiredJobs (rt := Ref.runtime) Examples.quiet
      Examples.staleWorld
    = (Returned jobs,
       mkWorld (storage Examples.staleWorld)
         (calls Examples.staleWorld
            ++ map (StorageQuery JobStore.JOB_KEY_PREFIX) (seq 0 (S pages))))
    /\ Examples.expiredJob "resp_b" ∈ jobs.
Proof.
  destruct (expired_jobs_listed (rt := Ref.runtime) Examples.quiet
              Examples.staleWorld (fun _ => eq_refl))
    as (jobs & pages & Hrun & _ & Hin).
  exists jobs, pages. split; [exact Hrun|].
  apply Hin. split; [by vm_compute|].
  exists "async-job:resp_b". split; by vm_compute.
Defined.

Lemma sweep_removes_the_expired_witness :
  exists count message w',
    CleanupJobs.run (rt := Ref.runtime) Examples.quiet Stores.mixedWorld
      = (Returned (CleanupJobs.sweepReply count message), w')
    /\ count = 1%nat
    /\ storage w' !! "async-job:resp_a" = None
    /\ storage w' !! "async-job:resp_1"
       = Some (Examples.jobRecord "resp_1" "completed" [])
    /\ storage w' !! "usage_daily_2023-11-14"
       = Some (VObj (list_to_map [("calls", VNum 3)])).
Proof.
  assert (Hkeyed : Sweep.keyedByOwnId (rt := Ref.runtime) Examples.quiet
                     (storage Stores.mixedWorld) = true)
    by (vm_compute; reflexivity).
  destruct (sweep_removes_the_expired (rt := Ref.runtime) Examples.quiet
              Stores.mixedWorld (fun _ => eq_refl) Hkeyed)
    as (message & w' & Hrun & Hlookup).
  eexists _, message, w'. split; [exact Hrun|].
  split; [by vm_compute|].
  rewrite !Hlookup. repeat split; vm_compute; reflexivity.
Defined.
(** * Further properties of the webhook receiver *)

Section LedgerTheorem.
Context {rt : NodeRuntime}.
Import JobStore Webhook.

Lemma existsb_strictEq_string (x : string) (seen : list string) :
  existsb (strictEq (VStr x)) (VStr <$> seen) = bool_decide (x ∈ seen).
Proof.
  induction seen as [|y seen IH]; [done|]. cbn [fmap list_fmap existsb].
  rewrite IH. simpl. destruct (String.eqb_spec x y) as [->|Hne]; simpl.
  - symmetry. apply bool_decide_eq_true_2. by left.
  - destruct (bool_decide (x ∈ seen)) eqn:Hin.
    + apply bool_decide_eq_true_1 in Hin. symmetry.
      apply bool_decide_eq_true_2. by right.
    + apply bool_decide_eq_false_1 in Hin. symmetry.
      apply bool_decide_eq_false_2. rewrite elem_of_cons.
      intros [?|?]; congruence.
Qed.

Lemma distinct_strings (seen l : list string) :
  exists l',
    distinct (VStr <$> seen) (VStr <$> l) = VStr <$> l'
    /\ NoDup l'
    /\ (forall x, x ∈ l' <-> x ∈ l /\ x ∉ seen)
    /\ (NoDup l -> (forall x, x ∈ l -> x ∉ seen) -> l' = l).
Proof.
  revert seen. induction l as [|x l IH]; intros seen.
  - exists []. split; [done|]. split; [constructor|]. split; [|done].
    intros x. rewrite elem_of_nil. tauto.
  - cbn [fmap list_fmap distinct]. change (map VStr seen) with (VStr <$> seen).
    change (map VStr l) with (VStr <$> l).
    rewrite existsb_strictEq_string.
    destruct (bool_decide (x ∈ seen)) eqn:Hin.
    + apply bool_decide_eq_true_1 in Hin.
      destruct (IH seen) as (l' & Heq & Hnd & Hmem & Hsame).
      exists l'. split; [done|]. split; [done|]. split.
      * intros y. rewrite Hmem, elem_of_cons. split; [tauto|].
        intros [[->|?] ?]; tauto.
      * intros _ Hfresh. exfalso. apply (Hfresh x); [by left|done].
    + apply bool_decide_eq_false_1 in Hin.
      destruct (IH (seen ++ [x])%list) as (l' & Heq & Hnd & Hmem & Hsame).
      exists (x :: l'). split.
      { cbn [fmap list_fmap]. f_equal.
        change (map VStr l') with (VStr <$> l'). rewrite <- Heq.
        by rewrite fmap_app. }
      split.
      { constructor; [|done]. rewrite Hmem, elem_of_app, list_elem_of_singleton.
        tauto. }
      split.
      { intros y. rewrite !elem_of_cons, Hmem, elem_of_app,
          list_elem_of_singleton.
        split.
        - intros [->|[? ?]]; [tauto|]. split; [tauto|]. tauto.
        - intros [[->|?] ?]; [tauto|].
          destruct (decide (y = x)) as [->|?]; [tauto|]. right. tauto. }
      intros Hnodup Hfresh. apply NoDup_cons in Hnodup as [Hx Hnodup].
      f_equal. apply Hsame; [done|].
      intros y Hy. rewrite elem_of_app, list_elem_of_singleton.
      intros [Hs| ->]; [|done]. apply (Hfresh y); [by right|done].
Qed.

Lemma distinct_listed (seen l : list string) (d : string) :
  d ∈ seen \/ d ∈ l ->
  distinct (VStr <$> seen) (VStr <$> (l ++ [d])%list)
  = distinct (VStr <$> seen) (VStr <$> l).
Proof.
  revert seen. induction l as [|y l IHl]; intros seen Hd.
  - destruct Hd as [Hd|Hd]; [|by apply elem_of_nil in Hd].
    cbn [app fmap list_fmap distinct].
    change (map VStr seen) with (VStr <$> seen).
    rewrite existsb_strictEq_string.
    by rewrite bool_decide_eq_true_2.
  - cbn [app fmap list_fmap distinct].
    change (map VStr seen) with (VStr <$> seen).
    change (map VStr (l ++ [d])%list) with (VStr <$> (l ++ [d])%list).
    change (map VStr l) with (VStr <$> l).
    rewrite existsb_strictEq_string.
    destruct (bool_decide (y ∈ seen)) eqn:Hy.
    + apply IHl. destruct Hd as [?|Hd]; [by left|].
      apply elem_of_cons in Hd as [->|?]; [|by right].
      left. by apply bool_decide_eq_true_1 in Hy.
    + f_equal.
      change ((VStr <$> seen) ++ [VStr y])%list
        with ((VStr <$> seen) ++ (VStr <$> [y]))%list.
      rewrite <- !fmap_app. apply IHl.
      rewrite elem_of_app, list_elem_of_singleton.
      destruct Hd as [?|Hd]; [tauto|].
      apply elem_of_cons in Hd as [->|?]; tauto.
Qed.

Lemma fmap_VStr_inj (l m : list string) : VStr <$> l = VStr <$> m -> l = m.
Proof.
  revert m. induction l as [|x l IH]; intros [|y m]; try done.
  cbn [fmap list_fmap]. intros [= -> H]. f_equal. by apply IH.
Qed.

(** X9. The ledger holds each delivery id once. For a ledger of strings
    and a non-empty delivery id, [buildProcessedList] returns a list
    without repetition that holds exactly the ids of the ledger and the
    new one; when the ledger had no repetition, it is returned unchanged
    if it held the id already, and with the id appended otherwise. *)
Theorem ledger_holds_each_id_once (ids : list string) (deliveryId : string) :
  deliveryId <> "" ->
  exists ids',
    buildProcessedList (VArr (VStr <$> ids)) (VStr deliveryId)
      = inr (VArr (VStr <$> ids'))
    /\ NoDup ids'
    /\ (forall x, x ∈ ids' <-> x ∈ ids \/ x = deliveryId)
    /\ (NoDup ids ->
        ids' = if bool_decide (deliveryId ∈ ids) then ids
               else (ids ++ [deliveryId])%list).
Proof.
  intros Hne.
  destruct (distinct_strings [] (ids ++ [deliveryId])%list)
    as (ids' & Heq & Hnd & Hmem & Hsame).
  exists ids'. split.
  { unfold buildProcessedList. cbn [withDefault truthy]. unfold Text.nonEmpty.
    destruct (String.eqb_spec deliveryId "") as [->|_]; [done|].
    cbn [negb iterate mbind sum_bind]. do 2 f_equal.
    rewrite <- Heq, fmap_app. reflexivity. }
  split; [done|]. split.
  { intros x. rewrite Hmem, elem_of_app, list_elem_of_singleton, elem_of_nil.
    tauto. }
  intros Hnodup. destruct (decide (deliveryId ∈ ids)) as [Hin|Hout].
  - rewrite bool_decide_eq_true_2 by done.
    rewrite (distinct_listed [] ids deliveryId (or_intror Hin)) in Heq.
    destruct (distinct_strings [] ids) as (ids2 & Heq2 & _ & _ & Hsame2).
    rewrite Heq2 in Heq. apply fmap_VStr_inj in Heq. rewrite <- Heq.
    apply Hsame2; [done|]. intros x _. apply not_elem_of_nil.
  - rewrite bool_decide_eq_false_2 by done. apply Hsame.
    + apply NoDup_app. split; [done|]. split; [|apply NoDup_singleton].
      intros x Hx. rewrite list_elem_of_singleton. by intros ->.
    + intros x _. apply not_elem_of_nil.
Qed.

End LedgerTheorem.

Lemma ledger_holds_each_id_once_witness :
  exists ids',
    Webhook.buildProcessedList (VArr (VStr <$> ["wh_1"; "wh_2"])) (VStr "wh_1")
      = inr (VArr (VStr <$> ids'))
    /\ NoDup ids'
    /\ ids' = ["wh_1"; "wh_2"].
Proof.
  destruct (ledger_holds_each_id_once ["wh_1"; "wh_2"] "wh_1")
    as (ids' & Hrun & Hnd & _ & Hsame); [done|].
  exists ids'. split; [exact Hrun|]. split; [exact Hnd|].
  rewrite Hsame; [reflexivity|].
  repeat constructor; rewrite ?elem_of_cons, ?elem_of_nil; intros H;
    repeat destruct H as [H|H]; discriminate || done.
Defined.

Section HeaderTheorem.
Context {rt : NodeRuntime} {helpers : ResultHelpers} (env : environment).
Import Webhook.

Lemma normaliseHeaders_fold headers (acc : jsobj) name :
  fold_left (fun normalised kv =>
               <[Text.toLowerCase (fst kv) := snd kv]> normalised)
            headers acc !! name
  = match last (filter (fun kv => Text.toLowerCase (fst kv) = name) headers)
    with
    | Some kv => Some (snd kv)
    | None => acc !! name
    end.
Proof.
  revert acc. induction headers as [|[key value] headers IH]; intros acc.
  - reflexivity.
  - cbn [fold_left fst snd]. rewrite IH, filter_cons. cbn [fst].
    destruct (decide (Text.toLowerCase key = name)) as [<-|Hne].
    + rewrite last_cons.
      destruct (last (filter _ headers)); [done|].
      by rewrite lookup_insert_eq.
    + destruct (last (filter _ headers)); [done|].
      by rewrite lookup_insert_ne.
Qed.

(** X10. Header names are read without regard to case, the last one
    winning: for every header list, the normalised headers hold under a
    name the value of the last header whose name, put in lower case, is
    that name, and nothing under a name no header lower-cases to. *)
Theorem headers_read_by_lowercase_name (headers : list (string * jsval))
  (name : string) :
  normaliseHeaders headers !! name
  = snd <$> last (filter (fun kv => Text.toLowerCase (fst kv) = name)
                    headers).
Proof.
  unfold normaliseHeaders. rewrite normaliseHeaders_fold.
  by destruct (last _).
Qed.

End HeaderTheorem.

Section StatusFacts.
Context {rt : NodeRuntime} {helpers : ResultHelpers} (env : environment).
Import Verifier JobStore Webhook.

Lemma settle_status jobId trackedJob webhookId eventType retrieved w
  response w' :
  settle env jobId trackedJob webhookId eventType retrieved w
    = (Returned response, w') ->
  statusCode response = 200.
Proof.
  unfold settle. destruct retrieved as [error|responsePayload].
  - unfold settleRetrieveFailed. rewrite bind_liftE.
    destruct (buildProcessedList _ _) as [e|processed]; [done|].
    unfold mbind at 1, handler_bind at 1.
    destruct (updateJobRecord env jobId _ w) as [[updated|e] w2]; [|done].
    rewrite publish_then_ack. by intros [= <- _].
  - rewrite bind_liftE.
    destruct (buildProcessedList _ _) as [e|processed]; [done|].
    destruct (negb (isDefined responsePayload) || isNull responsePayload);
      [done|].
    destruct (strictEq _ _ && truthy _).
    + unfold settleCompleted. rewrite bind_liftE.
      destruct (shapeResult trackedJob _) as [e|result]; [done|].
      unfold mbind at 1, handler_bind at 1.
      destruct (updateJobRecord env jobId _ w) as [[updated|e] w2]; [|done].
      rewrite publish_then_ack. by intros [= <- _].
    + unfold settleFailure. unfold mbind at 1, handler_bind at 1.
      destruct (updateJobRecord env jobId _ w) as [[updated|e] w2]; [|done].
      rewrite publish_then_ack. by intros [= <- _].
Qed.

Lemma dispatch_status headers webhookEvent w response w' :
  dispatch env headers webhookEvent w = (Returned response, w') ->
  statusCode response = 200.
Proof.
  unfold dispatch.
  destruct (negb (truthy (prop (prop webhookEvent "data") "id")));
    [by intros [= <- _]|].
  unfold getJobRecord, mbind at 1, handler_bind at 1.
  rewrite storageGet_cases.
  destruct (storageFault env _); [done|].
  destruct (negb (truthy _)); [by intros [= <- _]|].
  rewrite bind_liftE.
  destruct (alreadyProcessed _ _) as [e|[|]]; [done|by intros [= <- _]|].
  unfold mbind at 1, handler_bind at 1. rewrite retrieve_run.
  apply settle_status.
Qed.

End StatusFacts.

Section StatusTheorems.
Context {rt : NodeRuntime} {helpers : ResultHelpers} (env : environment).
Import Verifier JobStore Webhook.

(** X11. The receiver answers with 200, 400 or 401 only, and a refusal
    has touched nothing: when it answers 400 "Invalid webhook signature"
    or 401 "Webhook secret not configured", the storage is as it was and
    the only call made, if any, is the reading of the secret kept by the
    platform: no job record was read or written, the provider was not
    asked and no event was published. *)
Theorem refusal_touches_nothing (event : inboundEvent) (context : jsval)
  (w w' : world) (response : httpResponse) :
  run env event context w = (Returned response, w') ->
  statusCode response = 200
  \/ ((response = mkResponse 400 "Invalid webhook signature"
       \/ response = mkResponse 401 "Webhook secret not configured")
      /\ storage w' = storage w
      /\ (calls w' = calls w
          \/ calls w'
             = (calls w ++ [StorageGetSecret "openaiWebhookSecret"])%list)).
Proof.
  destruct (ensureWebhookSecret_run env context w)
    as (secret & trail & Hsecret & Htrail).
  assert (Hcalls : (calls w ++ trail)%list = calls w
                   \/ (calls w ++ trail)%list
                      = (calls w ++ [StorageGetSecret "openaiWebhookSecret"])%list).
  { destruct Htrail as [->| ->]; [left; apply app_nil_r|by right]. }
  unfold run. rewrite (bind_returned _ _ _ _ _ Hsecret).
  destruct (negb (truthy secret)).
  - intros [= <- <-]. right. cbn [storage calls]. split; [by right|done].
  - destruct (unwrapWith env secret _ _) as [reason|webhookEvent].
    + intros [= <- <-]. right. cbn [storage calls]. split; [by left|done].
    + intros Hrun. left. by eapply dispatch_status.
Qed.


End StatusTheorems.

Lemma refusal_touches_nothing_witness :
  exists w',
    Webhook.run (rt := Ref.runtime) (helpers := Ref.helpers) Examples.quiet
      Deliveries.forgedDelivery Examples.withSecret
      (Examples.oneJob "resp_1" "queued" [])
    = (Returned (mkResponse 400 "Invalid webhook signature"), w')
    /\ storage w' = storage (Examples.oneJob "resp_1" "queued" []).
Proof.
  destruct (Webhook.run (rt := Ref.runtime) (helpers := Ref.helpers)
              Examples.quiet Deliveries.forgedDelivery Examples.withSecret
              (Examples.oneJob "resp_1" "queued" []))
    as [[response|e] w'] eqn:Hrun; [|by vm_compute in Hrun].
  destruct (refusal_touches_nothing (rt := Ref.runtime)
              (helpers := Ref.helpers) Examples.quiet _ _ _ _ _ Hrun)
    as [H200|(_ & Hstorage & _)].
  - exfalso. vm_compute in Hrun. injection Hrun as <- _. discriminate H200.
  - exists w'. split; [|exact Hstorage].
    vm_compute in Hrun. by injection Hrun as <- _.
Defined.


Section SettlingFacts.
Context {rt : NodeRuntime} {helpers : ResultHelpers} (env : environment).
Import Verifier JobStore Webhook.

(** An accepted callback for a tracked job that is no duplicate reaches
    the retrieval of the artifact. *)
Lemma run_reaches_settle event context w w1 secret webhookEvent record :
  let headers := normaliseHeaders (eventHeaders event) in
  let webhookId := normaliseHeaderValue (get headers "webhook-id") in
  let jobId := prop (prop webhookEvent "data") "id" in
  let key := buildJobKey jobId in
  ensureWebhookSecret env context w = (Returned secret, w1) ->
  truthy secret = true ->
  unwrapWith env secret (rawBodyOf event) headers = inr webhookEvent ->
  truthy jobId = true ->
  storageFault env (StorageGet key) = None ->
  storage w !! key = Some record ->
  truthy record = true ->
  alreadyProcessed record webhookId = inr false ->
  run env event context w
    = settle env jobId record webhookId (prop webhookEvent "type")
        (retrieveCompletion env jobId)
        (mkWorld (storage w)
           (calls w1 ++ [StorageGet key; RetrieveCompletion jobId])).
Proof.
  intros headers webhookId jobId key Hsecret Htruthy Hunwrap Hid Hget Hrec
    Hrecord Hfresh.
  rewrite (run_verified env _ _ _ _ _ _ Hsecret Htruthy Hunwrap).
  assert (Hst : storage w1 = storage w)
    by (by eapply ensureWebhookSecret_storage).
  fold headers.
  pose proof (dispatch_tracked env headers webhookEvent w1 record) as Hd.
  cbn zeta in Hd. fold webhookId jobId key in Hd.
  rewrite Hst in Hd. rewrite (Hd Hid Hget Hrec Hrecord), Hfresh.
  reflexivity.
Qed.

Lemma updateJobRecord_existing jobId (record updates : jsobj) w :
  let key := buildJobKey jobId in
  let updated := mergedRecord env (VObj record) updates in
  (forall c, storageFault env c = None) ->
  storage w !! key = Some (VObj record) ->
  updateJobRecord env jobId updates w
    = (Returned (VObj updated),
       mkWorld (<[key := VObj updated]> (storage w))
         (calls w ++ [StorageGet key; StorageSet key (VObj updated)])).
Proof.
  intros key updated Hok Hrec.
  pose proof (updateJobRecord_run env jobId updates w) as Hup.
  cbn zeta in Hup. fold key in Hup. rewrite Hrec in Hup.
  unfold Js.or in Hup. simpl in Hup. exact (Hup (Hok _) (Hok _)).
Qed.

(** The ledger an object record with an array ledger is given. *)
Lemma buildProcessedList_array ledger webhookId :
  exists processed,
    buildProcessedList (VArr ledger) webhookId = inr (VArr processed)
    /\ (truthy webhookId = false -> processed = ledger)
    /\ (truthy webhookId = true ->
        processed = distinct [] (ledger ++ [webhookId])%list).
Proof.
  unfold buildProcessedList. cbn [withDefault].
  destruct (truthy webhookId); cbn [negb].
  - eexists. split; [reflexivity|]. by split.
  - eexists. split; [reflexivity|]. by split.
Qed.

Lemma not_in_four (k a b c d : string) :
  k ∉ [a; b; c; d] -> k <> a /\ k <> b /\ k <> c /\ k <> d.
Proof. rewrite !not_elem_of_cons. tauto. Qed.


Lemma not_in_five (k a b c d e : string) :
  k ∉ [a; b; c; d; e] -> k <> a /\ k <> b /\ k <> c /\ k <> d /\ k <> e.
Proof. rewrite !not_elem_of_cons. tauto. Qed.

(** With a storage that answers, what settling a tracked job does when
    the retrieval has failed. *)
Lemma settle_retrieve_failed jobId (record : jsobj) webhookId eventType
  (ledger : list jsval) (error : jsError) w :
  let key := buildJobKey jobId in
  (forall c, storageFault env c = None) ->
  storage w !! key = Some (VObj record) ->
  record !! "processedWebhookIds" = Some (VArr ledger) ->
  exists (updated failure : jsobj) (processed : list jsval),
    settle env jobId (VObj record) webhookId eventType (inl error) w
      = (Returned (mkResponse 200 "Ack: retrieve failed"),
         mkWorld (<[key := VObj updated]> (storage w))
           (calls w
              ++ [StorageGet key; StorageSet key (VObj updated);
                  PublishAppEvent
                    (eventKeyFor (get record "jobType") "failed")]))
    /\ updated !! "status" = Some (VStr "failed")
    /\ updated !! "error" = Some (VObj failure)
    /\ failure !! "reason" = Some (VStr "retrieve_failed")
    /\ failure !! "message" = Some (VStr (message error))
    /\ buildProcessedList (VArr ledger) webhookId = inr (VArr processed)
    /\ updated !! "processedWebhookIds" = Some (VArr processed)
    /\ updated !! "updatedAt" = Some (VStr (nowIso env))
    /\ (forall k,
          k ∉ ["status"; "error"; "processedWebhookIds"; "updatedAt"] ->
          updated !! k = record !! k).
Proof.
  intros key Hok Hrec Hledger.
  destruct (buildProcessedList_array ledger webhookId)
    as (processed & Hbuild & _).
  set (updates :=
    statusUpdate JobStatus.FAILED
      [("error",
        VObj (list_to_map
                [("reason", VStr "retrieve_failed");
                 ("message", VStr (message error));
                 ("stack", VStr (stack error))]));
       ("processedWebhookIds", VArr processed)]).
  set (updated := mergedRecord env (VObj record) updates).
  destruct (mergedRecord_deep env (VObj record) updates "error"
              (VObj (list_to_map
                       [("reason", VStr "retrieve_failed");
                        ("message", VStr (message error));
                        ("stack", VStr (stack error))])))
    as (copy & Hcopy & Herror); try done.
  { rewrite !elem_of_cons. right. by left. }
  simpl in Hcopy. injection Hcopy as <-. fold updated in Herror.
  eexists updated, _, processed. split.
  { unfold settle, settleRetrieveFailed. cbn [prop].
    rewrite (get_lookup _ _ _ Hledger), Hbuild, bind_liftE.
    fold updates. unfold mbind at 1, handler_bind at 1.
    pose proof (updateJobRecord_existing jobId record updates w) as Hup.
    cbn zeta in Hup. fold key updated in Hup.
    rewrite (Hup Hok Hrec), publish_then_ack. cbn [storage calls].
    by rewrite <- !app_assoc. }
  split; [unfold updated; by rewrite mergedRecord_status|].
  split; [exact Herror|].
  split; [by rewrite lookup_omap|].
  split; [by rewrite lookup_omap|].
  split; [exact Hbuild|].
  split.
  { unfold updated. rewrite mergedRecord_plain.
    - by apply lookup_union_Some_l.
    - rewrite !not_elem_of_cons. repeat split; try done.
      apply not_elem_of_nil. }
  split; [apply mergedRecord_updatedAt|].
  intros k Hk. apply not_in_four in Hk as (? & ? & ? & ?).
  unfold updated. rewrite mergedRecord_kept; [done| |].
  - unfold updates, statusUpdate. simpl.
    rewrite !lookup_insert_ne by done. apply lookup_empty.
  - rewrite !not_elem_of_cons. repeat split; try done.
    apply not_elem_of_nil.
Qed.

(** ... when the artifact is not a completed one with a text. *)
Lemma settle_failure jobId (record payload : jsobj) webhookId eventType
  (ledger : list jsval) w :
  let key := buildJobKey jobId in
  (forall c, storageFault env c = None) ->
  storage w !! key = Some (VObj record) ->
  record !! "processedWebhookIds" = Some (VArr ledger) ->
  strictEq (get payload "status") (VStr "completed")
    && truthy (extractOutputText (VObj payload)) = false ->
  exists (updated failure : jsobj) (processed : list jsval)
    (settled : string),
    settle env jobId (VObj record) webhookId eventType
      (inr (VObj payload)) w
      = (Returned (mkResponse 200 "Ack: failure"),
         mkWorld (<[key := VObj updated]> (storage w))
           (calls w
              ++ [StorageGet key; StorageSet key (VObj updated);
                  PublishAppEvent
                    (eventKeyFor (get record "jobType") settled)]))
    /\ settled
       = (if strictEq (get payload "status") (VStr "cancelled")
          then "cancelled" else "failed")
    /\ updated !! "status" = Some (VStr settled)
    /\ updated !! "error" = Some (VObj failure)
    /\ failure !! "message"
       = safeClone
           (Js.or (prop (get payload "error") "message")
              (Js.or (get payload "error") (VStr "Unknown failure")))
    /\ failure !! "status"
       = safeClone (Js.or (get payload "status") eventType)
    /\ buildProcessedList (VArr ledger) webhookId = inr (VArr processed)
    /\ updated !! "processedWebhookIds" = Some (VArr processed)
    /\ updated !! "updatedAt" = Some (VStr (nowIso env))
    /\ (forall k,
          k ∉ ["status"; "error"; "processedWebhookIds"; "updatedAt"] ->
          updated !! k = record !! k).
Proof.
  intros key Hok Hrec Hledger Hfailure.
  destruct (buildProcessedList_array ledger webhookId)
    as (processed & Hbuild & _).
  set (settled := if strictEq (get payload "status") (VStr "cancelled")
                  then "cancelled" else "failed").
  set (raw := VObj (list_to_map
    [("message",
      Js.or (prop (get payload "error") "message")
        (Js.or (get payload "error") (VStr "Unknown failure")));
     ("details",
      if truthy (prop (get payload "error") "code")
      then get payload "error" else VUndef);
     ("status", Js.or (get payload "status") eventType)])).
  set (updates :=
    statusUpdate settled
      [("error", raw); ("processedWebhookIds", VArr processed)]).
  set (updated := mergedRecord env (VObj record) updates).
  destruct (mergedRecord_deep env (VObj record) updates "error" raw)
    as (copy & Hcopy & Herror); try done.
  { rewrite !elem_of_cons. right. by left. }
  simpl in Hcopy. injection Hcopy as <-. fold updated in Herror.
  assert (Hkept : forall k,
    k ∉ ["status"; "error"; "processedWebhookIds"; "updatedAt"] ->
    updated !! k = record !! k).
  { intros k Hk. apply not_in_four in Hk as (? & ? & ? & ?).
    unfold updated. rewrite mergedRecord_kept; [done| |].
    - unfold updates, statusUpdate. simpl.
      rewrite !lookup_insert_ne by done. apply lookup_empty.
    - rewrite !not_elem_of_cons. repeat split; try done.
      apply not_elem_of_nil. }
  eexists updated, _, processed, settled. split.
  { unfold settle. cbn [prop isDefined isNull negb orb].
    rewrite (get_lookup _ _ _ Hledger), Hbuild, bind_liftE, Hfailure.
    unfold settleFailure. cbn [prop].
    assert (Hstatus :
      (if strictEq (get payload "status") (VStr "cancelled")
       then JobStatus.CANCELLED else JobStatus.FAILED) = settled)
      by (unfold settled;
          by destruct (strictEq (get payload "status") (VStr "cancelled"))).
    rewrite Hstatus. fold raw updates.
    unfold mbind at 1, handler_bind at 1.
    pose proof (updateJobRecord_existing jobId record updates w) as Hup.
    cbn zeta in Hup. fold key updated in Hup.
    rewrite (Hup Hok Hrec), publish_then_ack. cbn [storage calls prop].
    assert (Hty : get updated "jobType" = get record "jobType").
    { unfold get. rewrite Hkept; [done|].
      rewrite !not_elem_of_cons. repeat split; try done.
      apply not_elem_of_nil. }
    assert (Hsuffix :
      (if String.eqb settled JobStatus.CANCELLED
       then "cancelled" else "failed") = settled)
      by (unfold settled;
          by destruct (strictEq (get payload "status") (VStr "cancelled"))).
    rewrite Hty, Hsuffix. by rewrite <- !app_assoc. }
  split; [reflexivity|].
  split.
  { unfold updated. rewrite mergedRecord_status.
    unfold updates, statusUpdate, settled.
    by destruct (strictEq (get payload "status") (VStr "cancelled")). }
  split; [exact Herror|].
  split; [by rewrite lookup_omap|].
  split.
  { rewrite lookup_omap, !lookup_insert_ne by done.
    by rewrite lookup_insert_eq. }
  split; [exact Hbuild|].
  split.
  { unfold updated. rewrite mergedRecord_plain.
    - by apply lookup_union_Some_l.
    - rewrite !not_elem_of_cons. repeat split; try done.
      apply not_elem_of_nil. }
  split; [apply mergedRecord_updatedAt|exact Hkept].
Qed.

(** ... when the artifact is completed and a result is shaped from its
    text. *)
Lemma settle_completed jobId (record payload result : jsobj) webhookId
  eventType (ledger : list jsval) (text : string) w :
  let key := buildJobKey jobId in
  (forall c, storageFault env c = None) ->
  storage w !! key = Some (VObj record) ->
  record !! "processedWebhookIds" = Some (VArr ledger) ->
  payload !! "status" = Some (VStr "completed") ->
  extractResponseText (VObj payload) = Some text ->
  text <> "" ->
  shapeResult (VObj record) text = inr result ->
  exists (updated : jsobj) (processed : list jsval),
    settle env jobId (VObj record) webhookId eventType
      (inr (VObj payload)) w
      = (Returned (mkResponse 200 "Ack: completed"),
         mkWorld (<[key := VObj updated]> (storage w))
           (calls w
              ++ [StorageGet key; StorageSet key (VObj updated);
                  PublishAppEvent
                    (eventKeyFor (get record "jobType") "completed")]))
    /\ updated !! "status" = Some (VStr "completed")
    /\ updated !! "result" = Some (VObj (omap safeClone result))
    /\ result !! "rawText" = Some (VStr text)
    /\ updated !! "error" = Some VNull
    /\ buildProcessedList (VArr ledger) webhookId = inr (VArr processed)
    /\ updated !! "processedWebhookIds" = Some (VArr processed)
    /\ updated !! "updatedAt" = Some (VStr (nowIso env))
    /\ (forall k,
          k ∉ ["status"; "result"; "error"; "processedWebhookIds";
               "updatedAt"] ->
          updated !! k = record !! k).
Proof.
  intros key Hok Hrec Hledger Hstatus Htext Hne Hshape.
  destruct (buildProcessedList_array ledger webhookId)
    as (processed & Hbuild & _).
  set (updates :=
    statusUpdate JobStatus.COMPLETED
      [("result", VObj result); ("error", VNull);
       ("processedWebhookIds", VArr processed)]).
  set (updated := mergedRecord env (VObj record) updates).
  assert (Hkept : forall k,
    k ∉ ["status"; "result"; "error"; "processedWebhookIds"; "updatedAt"] ->
    updated !! k = record !! k).
  { intros k Hk. apply not_in_five in Hk as (? & ? & ? & ? & ?).
    unfold updated. rewrite mergedRecord_kept; [done| |].
    - unfold updates, statusUpdate. simpl.
      rewrite !lookup_insert_ne by done. apply lookup_empty.
    - rewrite !not_elem_of_cons. repeat split; try done.
      apply not_elem_of_nil. }
  exists updated, processed. split.
  { unfold settle. cbn [prop isDefined isNull negb orb].
    rewrite (get_lookup _ _ _ Hledger), Hbuild, bind_liftE.
    rewrite (get_lookup _ _ _ Hstatus).
    unfold extractOutputText. rewrite Htext.
    assert (Hfilled : truthy (VStr text) = true).
    { simpl. unfold Text.nonEmpty.
      by destruct (String.eqb_spec text "") as [->|_]. }
    rewrite Hfilled. cbn [toStr].
    change (strictEq (VStr "completed") (VStr "completed") && true)
      with true.
    cbn iota. unfold settleCompleted. rewrite Hshape, bind_liftE.
    fold updates. unfold mbind at 1, handler_bind at 1.
    pose proof (updateJobRecord_existing jobId record updates w) as Hup.
    cbn zeta in Hup. fold key updated in Hup.
    rewrite (Hup Hok Hrec), publish_then_ack. cbn [storage calls prop].
    assert (Hty : get updated "jobType" = get record "jobType").
    { unfold get. rewrite Hkept; [done|].
      rewrite !not_elem_of_cons. repeat split; try done.
      apply not_elem_of_nil. }
    rewrite Hty. by rewrite <- !app_assoc. }
  split; [unfold updated; by rewrite mergedRecord_status|].
  split.
  { destruct (mergedRecord_deep env (VObj record) updates "result"
                (VObj result)) as (copy & Hcopy & Hl); try done.
    - rewrite !elem_of_cons. by left.
    - simpl in Hcopy. by injection Hcopy as <-. }
  split.
  { unfold shapeResult in Hshape.
    destruct (strictEq _ _).
    - destruct (PostProcessor.parseAnalysisResponse text) as [e|parsed]; [done|].
      simpl in Hshape.
      destruct (PostProcessor.normaliseRecommendationPlan _) as [e|plan];
        [done|].
      simpl in Hshape.
      destruct (enrichArticles _ _) as [e|articles]; [done|].
      simpl in Hshape. by injection Hshape as <-.
    - destruct (PostProcessor.parseFinalResponse text) as [e|parsed]; [done|].
      simpl in Hshape.
      destruct (prop parsed "emailDraft") as [| | | |draft| |];
        simpl in Hshape; try by injection Hshape as <-.
      destruct (ensureAgentSignature draft _) as [e|signed]; [done|].
      simpl in Hshape. by injection Hshape as <-. }
  split.
  { destruct (mergedRecord_deep env (VObj record) updates "error" VNull)
      as (copy & Hcopy & Hl); try done.
    - rewrite !elem_of_cons. right. by left.
    - simpl in Hcopy. by injection Hcopy as <-. }
  split; [exact Hbuild|].
  split.
  { unfold updated. rewrite mergedRecord_plain.
    - by apply lookup_union_Some_l.
    - rewrite !not_elem_of_cons. repeat split; try done.
      apply not_elem_of_nil. }
  split; [apply mergedRecord_updatedAt|exact Hkept].
Qed.

End SettlingFacts.

Section SettlingTheorems.
Context {rt : NodeRuntime} {helpers : ResultHelpers} (env : environment).
Import Verifier JobStore Webhook.




End SettlingTheorems.




Section AnonymousTheorem.
Context {rt : NodeRuntime} {helpers : ResultHelpers} (env : environment).
Import Verifier JobStore Webhook.

(** C10. A callback that is accepted and names a tracked job but whose
    headers hold no [webhook-id] entry is processed in full, whatever
    [processedWebhookIds] holds: the dispatcher does not consult the
    ledger, reads the record, retrieves the artifact from the provider,
    rewrites the record with the status the artifact calls for (and the
    time of the update), publishes the event of that status and answers
    200. The record is left with the same [processedWebhookIds], so
    that the next such delivery meets the same conditions and is
    processed in full again. (The storage answers, and the artifact, when
    the provider returns one, is an object from whose text, if it is a
    completed one, the result can be shaped.) *)
Theorem anonymous_delivery_reprocessed (event : inboundEvent)
  (context : jsval) (w w1 : world) (secret webhookEvent : jsval)
  (record : jsobj) (ledger : list jsval) :
  let headers := normaliseHeaders (eventHeaders event) in
  let jobId := prop (prop webhookEvent "data") "id" in
  let key := buildJobKey jobId in
  ensureWebhookSecret env context w = (Returned secret, w1) ->
  truthy secret = true ->
  unwrapWith env secret (rawBodyOf event) headers = inr webhookEvent ->
  headers !! "webhook-id" = None ->
  truthy jobId = true ->
  (forall c, storageFault env c = None) ->
  storage w !! key = Some (VObj record) ->
  record !! "processedWebhookIds" = Some (VArr ledger) ->
  (forall artifact,
     retrieveCompletion env jobId = inr artifact ->
     exists payload : jsobj,
       artifact = VObj payload
       /\ forall text,
            payload !! "status" = Some (VStr "completed") ->
            extractResponseText artifact = Some text ->
            text <> "" ->
            exists result, shapeResult (VObj record) text = inr result) ->
  exists (updated : jsobj) (body settled : string),
    run env event context w
      = (Returned (mkResponse 200 body),
         mkWorld (<[key := VObj updated]> (storage w))
           (calls w1
              ++ [StorageGet key; RetrieveCompletion jobId;
                  StorageGet key; StorageSet key (VObj updated);
                  PublishAppEvent
                    (eventKeyFor (get record "jobType") settled)]))
    /\ (forall error,
          retrieveCompletion env jobId = inl error ->
          body = "Ack: retrieve failed" /\ settled = "failed")
    /\ (forall artifact,
          retrieveCompletion env jobId = inr artifact ->
          if strictEq (prop artifact "status") (VStr "completed")
             && truthy (extractOutputText artifact)
          then body = "Ack: completed" /\ settled = "completed"
          else body = "Ack: failure"
               /\ settled
                  = (if strictEq (prop artifact "status") (VStr "cancelled")
                     then "cancelled" else "failed"))
    /\ updated !! "status" = Some (VStr settled)
    /\ updated !! "updatedAt" = Some (VStr (nowIso env))
    /\ updated !! "processedWebhookIds" = Some (VArr ledger)
    /\ (forall k,
          k ∉ ["status"; "result"; "error"; "processedWebhookIds";
               "updatedAt"] ->
          updated !! k = record !! k).
Proof.
  intros headers jobId key Hsecret Htruthy Hunwrap Hnoid Hid Hok Hrec
    Hledger Hshaped.
  set (webhookId := normaliseHeaderValue (get headers "webhook-id")).
  assert (Hanon : truthy webhookId = false).
  { unfold webhookId, get. by rewrite Hnoid. }
  assert (Hfresh : alreadyProcessed (VObj record) webhookId = inr false)
    by (by apply alreadyProcessed_anonymous).
  assert (Hsame : forall processed,
    buildProcessedList (VArr ledger) webhookId = inr (VArr processed) ->
    processed = ledger).
  { intros processed. rewrite (buildProcessedList_anonymous _ _ Hanon).
    by intros [= <-]. }
  assert (Hfewer : forall k,
    k ∉ ["status"; "result"; "error"; "processedWebhookIds"; "updatedAt"] ->
    k ∉ ["status"; "error"; "processedWebhookIds"; "updatedAt"]).
  { intros k. rewrite !not_elem_of_cons. tauto. }
  rewrite (run_reaches_settle env event context w w1 secret webhookEvent
             (VObj record) Hsecret Htruthy Hunwrap Hid (Hok _) Hrec
             eq_refl Hfresh).
  fold headers webhookId jobId key.
  set (w0 := mkWorld (storage w)
               (calls w1 ++ [StorageGet key; RetrieveCompletion jobId])).
  destruct (retrieveCompletion env jobId) as [error|artifact] eqn:Hretrieve.
  - destruct (settle_retrieve_failed env jobId record webhookId
                (prop webhookEvent "type") ledger error w0 Hok Hrec Hledger)
      as (updated & failure & processed & Hsettle & Hstatus & _ & _ & _
          & Hbuild & Hprocessed & Hat & Hkept).
    rewrite (Hsame _ Hbuild) in Hprocessed.
    exists updated, "Ack: retrieve failed", "failed".
    split.
    { rewrite Hsettle. unfold w0. cbn [storage calls].
      by rewrite <- !app_assoc. }
    split; [done|]. split; [done|].
    split; [done|]. split; [done|]. split; [done|].
    intros k Hk. by apply Hkept, Hfewer.
  - destruct (Hshaped artifact eq_refl) as (payload & -> & Hshape).
    destruct (strictEq (prop (VObj payload) "status") (VStr "completed")
              && truthy (extractOutputText (VObj payload))) eqn:Hkind.
    + apply andb_true_iff in Hkind as [Hcompleted Htext].
      assert (Hstatus : payload !! "status" = Some (VStr "completed")).
      { cbn [prop] in Hcompleted. unfold get in Hcompleted.
        destruct (payload !! "status") as [[| | | |status| |]|];
          try discriminate.
        simpl in Hcompleted. apply String.eqb_eq in Hcompleted.
        by subst. }
      unfold extractOutputText in Htext.
      destruct (extractResponseText (VObj payload)) as [text|] eqn:Hread;
        [|discriminate].
      assert (Hne : text <> "") by (by apply nonEmpty_filled).
      destruct (Hshape text Hstatus eq_refl Hne) as (result & Hresult).
      destruct (settle_completed env jobId record payload result webhookId
                  (prop webhookEvent "type") ledger text w0 Hok Hrec
                  Hledger Hstatus Hread Hne Hresult)
        as (updated & processed & Hsettle & Hdone & _ & _ & _ & Hbuild
            & Hprocessed & Hat & Hkept).
      rewrite (Hsame _ Hbuild) in Hprocessed.
      exists updated, "Ack: completed", "completed".
      split.
      { rewrite Hsettle. unfold w0. cbn [storage calls].
        by rewrite <- !app_assoc. }
      split; [done|]. split.
      { intros ? [= <-]. unfold extractOutputText.
        rewrite Hread, Hcompleted, Htext. by split. }
      split; [done|]. split; [done|]. by split.
    + destruct (settle_failure env jobId record payload webhookId
                  (prop webhookEvent "type") ledger w0 Hok Hrec Hledger
                  Hkind)
        as (updated & failure & processed & settled & Hsettle & Hsettled
            & Hstatus & _ & _ & _ & Hbuild & Hprocessed & Hat & Hkept).
      rewrite (Hsame _ Hbuild) in Hprocessed.
      exists updated, "Ack: failure", settled.
      split.
      { rewrite Hsettle. unfold w0. cbn [storage calls].
        by rewrite <- !app_assoc. }
      split; [done|]. split.
      { intros ? [= <-]. rewrite Hkind. by split. }
      split; [done|]. split; [done|]. split; [done|].
      intros k Hk. by apply Hkept, Hfewer.
Qed.

End AnonymousTheorem.

Lemma anonymous_delivery_reprocessed_witness :
  Webhook.normaliseHeaders (eventHeaders Examples.nativeDelivery)
    !! "webhook-id"
    = None
  /\ exists (updated : jsobj),
       Webhook.run (rt := Ref.runtime) (helpers := Ref.helpers)
         (Examples.answering Examples.failedArtifact)
         Examples.nativeDelivery Examples.withSecret Examples.settledWorld
       = (Returned (mkResponse 200 "Ack: failure"),
          mkWorld
            (<[JobStore.buildJobKey (rt := Ref.runtime)
                 (prop (prop Examples.completedEvent "data") "id")
               := VObj updated]> (storage Examples.settledWorld))
            (calls Examples.settledWorld
               ++ [StorageGet
                     (JobStore.buildJobKey (rt := Ref.runtime)
                        (prop (prop Examples.completedEvent "data") "id"));
                   RetrieveCompletion
                     (prop (prop Examples.completedEvent "data") "id");
                   StorageGet
                     (JobStore.buildJobKey (rt := Ref.runtime)
                        (prop (prop Examples.completedEvent "data") "id"));
                   StorageSet
                     (JobStore.buildJobKey (rt := Ref.runtime)
                        (prop (prop Examples.completedEvent "data") "id"))
                     (VObj updated);
                   PublishAppEvent
                     (Webhook.eventKeyFor
                        (get (spread Examples.settledRecord) "jobType")
                        "failed")]))
       /\ updated !! "status" = Some (VStr "failed")
       /\ updated !! "processedWebhookIds" = Some (VArr [VStr "wh_1"]).
Proof.
  split; [reflexivity|].
  assert (Hunwrap :
    Webhook.unwrapWith (rt := Ref.runtime)
      (Examples.answering Examples.failedArtifact)
      (VStr Examples.sharedSecret)
      (Webhook.rawBodyOf (rt := Ref.runtime) Examples.nativeDelivery)
      (Webhook.normaliseHeaders (eventHeaders Examples.nativeDelivery))
    = inr Examples.completedEvent) by (vm_compute; reflexivity).
  assert (Hshaped : forall artifact,
    retrieveCompletion (Examples.answering Examples.failedArtifact)
      (prop (prop Examples.completedEvent "data") "id") = inr artifact ->
    exists payload : jsobj,
      artifact = VObj payload
      /\ forall text,
           payload !! "status" = Some (VStr "completed") ->
           Webhook.extractResponseText (rt := Ref.runtime) artifact
             = Some text ->
           text <> "" ->
           exists result,
             Webhook.shapeResult (rt := Ref.runtime) (helpers := Ref.helpers)
               (VObj (spread Examples.settledRecord)) text = inr result).
  { intros artifact [= <-]. eexists. split; [reflexivity|].
    intros text Hstatus. vm_compute in Hstatus. discriminate. }
  destruct (anonymous_delivery_reprocessed (rt := Ref.runtime)
              (helpers := Ref.helpers)
              (Examples.answering Examples.failedArtifact)
              Examples.nativeDelivery Examples.withSecret
              Examples.settledWorld Examples.settledWorld
              (VStr Examples.sharedSecret) Examples.completedEvent
              (spread Examples.settledRecord) [VStr "wh_1"]
              eq_refl eq_refl Hunwrap eq_refl eq_refl (fun _ => eq_refl)
              eq_refl eq_refl Hshaped)
    as (updated & body & settled & Hrun & _ & Hanswered & Hstatus & _
        & Hledger & _).
  destruct (Hanswered _ eq_refl) as [-> ->].
  exists updated. split; [exact Hrun|]. by split.
Defined.

(** * Properties of the error replies and of the result helpers *)

Section ErrorReplies.
Import ErrorHandler.

Lemma includes_filled sub s :
  sub <> "" -> Text.includes sub s = true -> Text.nonEmpty s = true.
Proof.
  intros Hsub. destruct s; [|done]. unfold Text.includes.
  destruct sub; [done|]. discriminate.
Qed.

(** X16. Every reply made of an error by [ErrorHandler] reports failure,
    carries a non-empty message for the user, and says how long to wait
    exactly when it says that a retry makes sense. An error of the
    provider can be retried unless its message mentions a reached limit,
    401 or authentication, whatever else it mentions. *)
Theorem error_replies_are_well_formed (error : jsError) (context : string) :
  Forall (fun reply =>
            prop reply "success" = VBool false
            /\ truthy (prop reply "userMessage") = true
            /\ ((prop reply "retryable" = VBool true
                 /\ exists wait, prop reply "retryAfter" = VNum wait
                                 /\ 0 < wait)
                \/ (prop reply "retryable" = VBool false
                    /\ prop reply "retryAfter" = VUndef)))
    [handleOpenAIError error; handleVectorSearchError error;
     handleStorageError error; handle error context]
  /\ prop (handleOpenAIError error) "retryable"
     = VBool (negb (Text.includes "limit reached" (message error)
                    || Text.includes "401" (message error)
                    || Text.includes "authentication" (message error))).
Proof.
  assert (Hlater : forall reply wait,
    prop reply "retryable" = VBool true ->
    prop reply "retryAfter" = VNum wait -> 0 < wait ->
    (prop reply "retryable" = VBool true
     /\ exists wait, prop reply "retryAfter" = VNum wait /\ 0 < wait)
    \/ (prop reply "retryable" = VBool false
        /\ prop reply "retryAfter" = VUndef)) by (left; eauto).
  split.
  - repeat (apply Forall_cons; split); [| | | |constructor].
    + unfold handleOpenAIError.
      destruct (Text.includes "limit reached" _) eqn:Hlimit.
      { split; [reflexivity|]. split; [|by right].
        by apply (includes_filled "limit reached"). }
      destruct (Text.includes "401" _ || Text.includes "authentication" _).
      { split; [reflexivity|]. split; [reflexivity|by right]. }
      repeat (destruct (Text.includes _ _); cbn [orb]);
        (split; [reflexivity|]; split; [reflexivity|]);
        eapply Hlater; reflexivity.
    + unfold handleVectorSearchError. destruct (Text.includes _ _).
      * split; [reflexivity|]. split; [reflexivity|by right].
      * split; [reflexivity|]. split; [reflexivity|].
        eapply Hlater; reflexivity.
    + split; [reflexivity|]. split; [reflexivity|].
      eapply Hlater; reflexivity.
    + split; [reflexivity|]. split; [by destruct context|].
      eapply Hlater; reflexivity.
  - unfold handleOpenAIError.
    destruct (Text.includes "limit reached" _); [reflexivity|].
    destruct (Text.includes "401" _); [reflexivity|].
    destruct (Text.includes "authentication" _); [reflexivity|].
    cbn [orb negb].
    by repeat (destruct (Text.includes _ _); cbn [orb]).
Qed.

End ErrorReplies.

Section PlanTheorem.
Context {rt : NodeRuntime} {helpers : ResultHelpers}.
Import PostProcessor.





End PlanTheorem.

Section ArticleTheorem.
Context {rt : NodeRuntime}.
Import JobStore Articles.

(** What every entry of an enriched list has. *)
Lemma or_truthy a b : truthy b = true -> truthy (Js.or a b) = true.
Proof. unfold Js.or. by destruct (truthy a) eqn:E. Qed.

Lemma or_defined a b : isDefined b = true -> isDefined (Js.or a b) = true.
Proof.
  unfold Js.or. destruct (truthy a) eqn:E; [|done].
  intros _. by apply truthy_defined.
Qed.

Lemma slice480_defined v sliced :
  slice480 v = inr sliced -> isDefined sliced = true.
Proof. destruct v; simpl; try done; by intros [= <-]. Qed.

Lemma fromSearchResult_entry result entry :
  fromSearchResult result = inr entry ->
  truthy (prop entry "title") = true
  /\ isDefined (prop entry "link") = true
  /\ isDefined (prop entry "contentSnippet") = true.
Proof.
  unfold fromSearchResult.
  destruct result; try done;
    (destruct (slice480 _) as [e|snippet] eqn:Hslice; [done|];
     intros [= <-]; split; [by apply or_truthy|];
     split; [by apply or_defined|]; by eapply slice480_defined).
Qed.

Lemma fromArticle_entry searchResults index article entry :
  fromArticle searchResults index article = inr entry ->
  truthy (prop entry "title") = true
  /\ isDefined (prop entry "link") = true
  /\ isDefined (prop entry "contentSnippet") = true.
Proof.
  unfold fromArticle.
  destruct (element searchResults index) as [e|found]; [done|].
  cbn [mbind sum_bind].
  set (fallback := Js.or (prop found "metadata") (VObj ∅)).
  assert (Hsnippet : forall a snippet,
    (if truthy (prop a "contentSnippet") then inr (prop a "contentSnippet")
     else if truthy (prop a "content") then inr (prop a "content")
     else if truthy (prop fallback "content")
     then slice480 (prop fallback "content")
     else inr (VStr "")) = inr snippet ->
    isDefined snippet = true).
  { intros a snippet.
    destruct (truthy (prop a "contentSnippet")) eqn:E1.
    { intros [= <-]. by apply truthy_defined. }
    destruct (truthy (prop a "content")) eqn:E2.
    { intros [= <-]. by apply truthy_defined. }
    destruct (truthy (prop fallback "content")).
    - apply slice480_defined.
    - by intros [= <-]. }
  destruct article; try done;
    (match goal with
     | |- context [mbind _ ?m] => destruct m as [e|snippet] eqn:Hs
     end; [done|];
     intros [= <-]; split;
     [apply or_truthy, or_truthy; reflexivity|];
     split; [by apply or_defined, or_defined|]; by eapply Hsnippet).
Qed.

Lemma fromArticles_entries searchResults index articles entries :
  fromArticles searchResults index articles = inr entries ->
  length entries = length articles
  /\ Forall (fun entry =>
               truthy (prop entry "title") = true
               /\ isDefined (prop entry "link") = true
               /\ isDefined (prop entry "contentSnippet") = true) entries.
Proof.
  revert index entries.
  induction articles as [|article articles IH]; intros index entries; simpl.
  - intros [= <-]. by split.
  - destruct (fromArticle searchResults index article) as [e|entry] eqn:He;
      [done|]. simpl.
    destruct (fromArticles searchResults (S index) articles)
      as [e|rest] eqn:Hrest; [done|]. simpl.
    intros [= <-]. destruct (IH _ _ Hrest) as [Hlen Hall].
    split; [simpl; by rewrite Hlen|].
    constructor; [by eapply fromArticle_entry|done].
Qed.

Lemma fromSearchResults_entries results entries :
  mapE fromSearchResult results = inr entries ->
  length entries = length results
  /\ Forall (fun entry =>
               truthy (prop entry "title") = true
               /\ isDefined (prop entry "link") = true
               /\ isDefined (prop entry "contentSnippet") = true) entries.
Proof.
  revert entries. induction results as [|result results IH]; intros entries;
    simpl.
  - intros [= <-]. by split.
  - destruct (fromSearchResult result) as [e|entry] eqn:He; [done|]. simpl.
    destruct (mapE fromSearchResult results) as [e|rest] eqn:Hrest; [done|].
    simpl. intros [= <-]. destruct (IH _ eq_refl) as [Hlen Hall].
    split; [simpl; by rewrite Hlen|].
    constructor; [by eapply fromSearchResult_entry|done].
Qed.

(** X18. Every enriched article can be shown. When [enrichArticles]
    returns, it returns one entry per article the model named, or, when
    the model named none, one per search result; every entry has a
    non-empty title (at worst "Article n" or "Knowledge Base Article")
    and a link and a content snippet that are never undefined. *)
Theorem enriched_articles_have_titles (articles searchResults enriched
  : jsval) :
  enrichArticles articles searchResults = inr enriched ->
  exists entries,
    enriched = VArr entries
    /\ length entries
       = match articles, searchResults with
         | VArr (article :: rest), _ => length (article :: rest)
         | _, VArr results => length results
         | _, _ => 0%nat
         end
    /\ Forall (fun entry =>
                 truthy (prop entry "title") = true
                 /\ isDefined (prop entry "link") = true
                 /\ isDefined (prop entry "contentSnippet") = true) entries.
Proof.
  unfold enrichArticles.
  assert (Hsearch : forall e : jsError + jsval,
    match withDefault (VArr []) searchResults with
    | VArr results =>
        entries ← mapE fromSearchResult results; inr (VArr entries)
    | _ => e
    end = inr enriched ->
    (exists err, e = inl err) ->
    exists entries,
      enriched = VArr entries
      /\ length entries
         = match searchResults with
           | VArr results => length results
           | _ => 0%nat
           end
      /\ Forall (fun entry =>
                   truthy (prop entry "title") = true
                   /\ isDefined (prop entry "link") = true
                   /\ isDefined (prop entry "contentSnippet") = true)
           entries).
  { intros e Hrun [err ->].
    destruct searchResults as [| | | | |results|]; simpl in Hrun;
      try done.
    - injection Hrun as <-. exists []. by repeat split.
    - destruct (mapE fromSearchResult results) as [failure|entries] eqn:Hmap;
        [done|].
      simpl in Hrun. injection Hrun as <-.
      destruct (fromSearchResults_entries _ _ Hmap). by exists entries. }
  destruct articles as [| | | | |[|article rest]|]; cbn [withDefault];
    try (intros Hrun;
         destruct (Hsearch _ Hrun) as (entries & -> & Hlen & Hall);
         [by eauto|];
         exists entries; split; [done|]; split; [|done];
         by destruct searchResults).
  destruct (fromArticles _ 0 (article :: rest)) as [e|entries] eqn:Hmap;
    [done|].
  simpl. intros [= <-].
  destruct (fromArticles_entries _ _ _ _ Hmap). by exists entries.
Qed.

End ArticleTheorem.

Lemma enriched_articles_have_titles_witness :
  exists entries,
    Articles.enrichArticles (rt := Ref.runtime) Results.namedArticles
      Results.searchResults = inr (VArr entries)
    /\ length entries = 2%nat
    /\ map (fun entry => prop entry "title") entries
       = [VStr "Roaming abroad"; VStr "Article 2"].
Proof.
  destruct (Articles.enrichArticles (rt := Ref.runtime) Results.namedArticles
              Results.searchResults) as [e|enriched] eqn:Hrun;
    [by vm_compute in Hrun|].
  destruct (enriched_articles_have_titles (rt := Ref.runtime) _ _ _ Hrun)
    as (entries & -> & Hlen & _).
  exists entries. split; [done|]. split; [exact Hlen|].
  vm_compute in Hrun. injection Hrun as <-. vm_compute. reflexivity.
Defined.

(** * Properties of what the receiver logs *)

Section LoggingTheorem.
Context {rt : NodeRuntime}.
Import Logging.

(** X19. What is logged for a header set has the same names. A header
    is logged as it is unless its name, in lower case, contains
    [signature], [secret], [authorization], [token], [key] or [auth];
    then an empty value is logged as the empty text, a value of 1 to 8
    code units as [***], and a longer one as its first four code units,
    [...] and its last four, 11 code units in all. So a sensitive value
    of more than 11 code units is never logged in full, while one that
    itself reads [abcd...wxyz] is logged as it is. The signature headers
    that the verifier reads are among the sensitive ones. *)
Theorem sensitive_headers_are_masked (headers : jsobj) (name : string) :
  sanitizeHeadersForLogging headers !! name
  = (fun value => if isSensitive name then VStr (masked value) else value)
      <$> headers !! name
  /\ (forall value,
        let text := toStr (Js.or value (VStr "")) in
        (Text.length16 text = 0%nat -> masked value = "")
        /\ ((0 < Text.length16 text <= 8)%nat -> masked value = "***")
        /\ ((8 < Text.length16 text)%nat ->
            masked value
            = Text.sliceTo16 4 text ++ "..." ++ Text.sliceLast16 4 text
            /\ Text.length16 (Text.sliceTo16 4 text) = 4%nat
            /\ Text.length16 (Text.sliceLast16 4 text) = 4%nat
            /\ Text.length16 (masked value) = 11%nat)
        /\ ((11 < Text.length16 text)%nat -> masked value <> text))
  /\ masked (VStr "abcd...wxyz") = "abcd...wxyz"
  /\ (isSensitive name = true
      <-> exists pattern,
            pattern ∈ ["signature"; "secret"; "authorization"; "token";
                       "key"; "auth"]
            /\ Text.includes pattern (Text.toLowerCase name) = true)
  /\ Forall (fun signed => isSensitive signed = true)
       ["x-openai-signature"; "openai-signature"; "svix-signature";
        "webhook-signature"; "authorization"]
  /\ Forall (fun plain => isSensitive plain = false)
       ["webhook-id"; "webhook-timestamp"; "content-type"].
Proof.
  split.
  { unfold sanitizeHeadersForLogging. rewrite map_lookup_imap.
    by destruct (headers !! name). }
  split;
    [|split; [reflexivity|split; [|split; repeat constructor]]].
  2:{ unfold isSensitive, sensitivePatterns. rewrite existsb_exists.
      split; intros (pattern & Hin & Hfound); exists pattern;
        (split; [|done]); by apply list_elem_of_In. }
  intros value text.
  assert (Hlong : (8 < Text.length16 text)%nat ->
    masked value
    = Text.sliceTo16 4 text ++ "..." ++ Text.sliceLast16 4 text
    /\ Text.length16 (Text.sliceTo16 4 text) = 4%nat
    /\ Text.length16 (Text.sliceLast16 4 text) = 4%nat
    /\ Text.length16 (masked value) = 11%nat).
  { intros Hlen.
    assert (Hshown : masked value
      = Text.sliceTo16 4 text ++ "..." ++ Text.sliceLast16 4 text).
    { unfold masked. fold text.
      by destruct (Nat.ltb_spec 8 (Text.length16 text)); [|lia]. }
    assert (Hhead : Text.length16 (Text.sliceTo16 4 text) = 4%nat)
      by (rewrite length16_sliceTo16; lia).
    assert (Htail : Text.length16 (Text.sliceLast16 4 text) = 4%nat)
      by (rewrite length16_sliceLast16; lia).
    split; [done|]. split; [done|]. split; [done|].
    rewrite Hshown, !length16_app, Hhead, Htail. reflexivity. }
  split; [|split; [|split; [exact Hlong|]]].
  - intros Hempty. unfold masked. fold text. by rewrite Hempty.
  - intros Hshort. unfold masked. fold text.
    destruct (Nat.ltb_spec 8 (Text.length16 text)); [lia|].
    by destruct (Nat.ltb_spec 0 (Text.length16 text)); [|lia].
  - intros Hlen Hwhole.
    destruct Hlong as (_ & _ & _ & Hshown); [lia|].
    rewrite Hwhole in Hshown. lia.
Qed.

End LoggingTheorem.

(** * Properties of the reading of the signature headers *)

Section SignatureForms.
Context {rt : NodeRuntime}.
Import Verifier Scheme.




End SignatureForms.


